(** * Portfolio balancer: the valuation notebook and the trade-execution client

    A shallow embedding of [Metrics.ipynb] (price fetch, portfolio valuation,
    comparison of two portfolios) over a small model of the Python values the
    notebook computes with, followed by the trade-execution client that the
    repository documents but whose script is described only in prose. *)

From Stdlib Require Import ZArith Lia Floats QArith.
From stdpp Require Import base option list gmap strings pretty.

Set Warnings "-inexact-float".
Set Warnings "-register-all".
Set Default Proof Using "Type".

Local Open Scope Z_scope.

(** ** Python values *)

Module Python.

(** The exceptions the modelled code can raise, and, by the name of its
    class, any other that a request can end in. *)
Inductive exn :=
| KeyError (key : string)
| OverflowError
| RequestException
| JSONDecodeError
| TypeError
| AttributeError
| MemoryError
| OtherException (class : string).

(** The outcome of evaluating an expression: a value, or a raised exception. *)
Inductive result (A : Type) :=
| Ok (a : A)
| Raise (e : exn).
Arguments Ok {A} a.
Arguments Raise {A} e.

#[global] Instance result_ret : MRet result := λ A a, Ok a.
#[global] Instance result_bind : MBind result := λ A B k m,
  match m with
  | Ok a => k a
  | Raise e => Raise e
  end.

(** A Python number as the notebook meets it: an [int] of any size or a
    binary64 [float]. *)
Inductive pynum :=
| PInt (z : Z)
| PFloat (f : float).

(** [float(z)] for an int [z]: the nearest binary64 value, ties to even;
    [OverflowError] when that value is out of range. *)
Definition int_to_float (z : Z) : result float :=
  match binary_normalize prec emax z 0 false with
  | S754_infinity _ => Raise OverflowError
  | sf => Ok (SF2Prim sf)
  end.

(** The binary arithmetic operators on mixed operands: an int operand is
    converted to float when the other one is a float. *)
Definition py_binop (fz : Z → Z → Z) (ff : float → float → float)
    (a b : pynum) : result pynum :=
  match a, b with
  | PInt x, PInt y => Ok (PInt (fz x y))
  | PFloat x, PFloat y => Ok (PFloat (ff x y))
  | PInt x, PFloat y => fx ← int_to_float x; Ok (PFloat (ff fx y))
  | PFloat x, PInt y => fy ← int_to_float y; Ok (PFloat (ff x fy))
  end.

Definition py_add : pynum → pynum → result pynum := py_binop Z.add PrimFloat.add.
Definition py_sub : pynum → pynum → result pynum := py_binop Z.sub PrimFloat.sub.
Definition py_mul : pynum → pynum → result pynum := py_binop Z.mul PrimFloat.mul.

(** Comparison of a float with an int is exact in Python: the int is not
    rounded to a float first. [None] when the float is a NaN. *)
Definition compare_float_int (f : float) (z : Z) : option comparison :=
  match Prim2SF f with
  | S754_nan => None
  | S754_infinity s => Some (if s then Lt else Gt)
  | S754_zero _ => Some (0 ?= z)
  | S754_finite s m e =>
      let v := cond_Zopp s (Z.pos m) in
      Some (if 0 <=? e then v * 2 ^ e ?= z else v ?= z * 2 ^ (- e))
  end.

(** [a < b]. *)
Definition py_lt (a b : pynum) : bool :=
  match a, b with
  | PInt x, PInt y => x <? y
  | PFloat x, PFloat y => PrimFloat.ltb x y
  | PFloat x, PInt y =>
      match compare_float_int x y with Some Lt => true | _ => false end
  | PInt x, PFloat y =>
      match compare_float_int y x with Some Gt => true | _ => false end
  end.

(** [a > b]. *)
Definition py_gt (a b : pynum) : bool := py_lt b a.

(** A number that is neither an infinity nor a NaN. *)
Definition py_is_finite (a : pynum) : bool :=
  match a with
  | PInt _ => true
  | PFloat f =>
      match Prim2SF f with
      | S754_zero _ | S754_finite _ _ _ => true
      | _ => false
      end
  end.

(** [a == 0]: the int [0] and both float zeros. *)
Definition py_is_zero (a : pynum) : bool :=
  match a with
  | PInt z => z =? 0
  | PFloat f => PrimFloat.eqb f 0
  end.

(** [round(n / d)] to the nearest integer, ties to even, for [0 ≤ n], [0 < d]. *)
Definition div_round_half_even (n d : Z) : Z :=
  let q := n / d in
  let r := n mod d in
  match 2 * r ?= d with
  | Lt => q
  | Gt => q + 1
  | Eq => if Z.even q then q else q + 1
  end.

(** The digits of [format(x, '.2f')] for [x = cents / 100 ≥ 0]. *)
Definition two_decimals (cents : Z) : string :=
  let frac := cents mod 100 in
  pretty (cents / 100) +:+ "." +:+ (if frac <? 10 then "0" else "") +:+ pretty frac.

(** [format(f, '.2f')] for a float: the exact binary value rounded to two
    decimals, ties to even. *)
Definition format_float_2f (f : float) : string :=
  match Prim2SF f with
  | S754_nan => "nan"
  | S754_infinity s => (if s then "-" else "") +:+ "inf"
  | S754_zero s => (if s then "-" else "") +:+ "0.00"
  | S754_finite s m e =>
      let cents :=
        if 0 <=? e then Z.pos m * 2 ^ e * 100
        else div_round_half_even (Z.pos m * 100) (2 ^ (- e)) in
      (if s then "-" else "") +:+ two_decimals cents
  end.

(** [f"{a:.2f}"]: an int is converted to float before it is formatted. *)
Definition format_2f (a : pynum) : result string :=
  match a with
  | PInt z => f ← int_to_float z; Ok (format_float_2f f)
  | PFloat f => Ok (format_float_2f f)
  end.

(** [sep.join(parts)]. *)
Fixpoint join (sep : string) (parts : list string) : string :=
  match parts with
  | [] => ""
  | [p] => p
  | p :: rest => p +:+ sep +:+ join sep rest
  end.

(** A value decoded from JSON, as [response.json()] returns it: [None], a
    bool, a number, a str, a list or a dict of such values. The decoder
    applies the interpreter's limit on the digits of an int, so an int that
    it returned is one that [print] can write. *)
Inductive json :=
| JNull
| JBool (b : bool)
| JNum (n : pynum)
| JStr (s : string)
| JList (items : list json)
| JDict (members : gmap string json).

(** The attribute [v.get]: only a dict has it. *)
Definition as_dict (v : json) : result (gmap string json) :=
  match v with
  | JDict members => Ok members
  | _ => Raise AttributeError
  end.

(** The largest index of the interpreter, [sys.maxsize]. *)
Definition SSIZE_MAX : Z := 2 ^ 63 - 1.

(** [count * sequence] for a str or a list of [len] items, as CPython decides
    it: the count must fit an index; nothing is allocated for an empty
    result, nor for one copy of a str; a result longer than [sys.maxsize] is
    refused; otherwise the machine finds room for the result or does not,
    which [allocates] tells. *)
Definition py_repeat (allocates : Z → bool) (is_str : bool) (count len : Z)
    : result unit :=
  if (count <? - 2 ^ 63) || (SSIZE_MAX <? count) then Raise OverflowError
  else if (count <=? 0) || (len =? 0) then Ok ()
  else if is_str && (count =? 1) then Ok ()
  else if SSIZE_MAX / count <? len then
    Raise (if is_str then OverflowError else MemoryError)
  else if allocates (count * len) then Ok ()
  else Raise MemoryError.

(** The product of a number and a value of any JSON type: a number, or a
    sequence (a str or a list repeated), whose content nothing looks at. *)
Inductive product :=
| Number (n : pynum)
| Sequence.

(** [quantity * price] for a number [quantity] and a [price] of any JSON
    type: a bool counts as the int 1 or 0, an int repeats a str or a list,
    anything else is a [TypeError]. *)
Definition py_mul_json (allocates : Z → bool) (quantity : pynum) (price : json)
    : result product :=
  match price with
  | JNum p => n ← py_mul quantity p; Ok (Number n)
  | JBool b => n ← py_mul quantity (PInt (Z.b2z b)); Ok (Number n)
  | JNull | JDict _ => Raise TypeError
  | JStr s =>
      match quantity with
      | PInt count =>
          py_repeat allocates true count (Z.of_nat (String.length s));; Ok Sequence
      | PFloat _ => Raise TypeError
      end
  | JList items =>
      match quantity with
      | PInt count =>
          py_repeat allocates false count (Z.of_nat (length items));; Ok Sequence
      | PFloat _ => Raise TypeError
      end
  end.

(** [total_value + product] for a number [total_value]: a number does not
    add to a sequence. *)
Definition py_add_product (total_value : pynum) (p : product) : result pynum :=
  match p with
  | Number n => py_add total_value n
  | Sequence => Raise TypeError
  end.

(** What the code does to the outside world. *)
Inductive print_item :=
| PStr (s : string)
| PDict (d : gmap string pynum)
| PValues (d : gmap string json).

Inductive event :=
| HttpGet (url : string) (params : list (string * string))
| Print (line : list print_item).

(** A computation with effects: the events it emitted, in order, and its
    outcome. An exception stops the computation and keeps the events so far. *)
Definition io (A : Type) : Type := list event * result A.

#[global] Instance io_ret : MRet io := λ A a, ([], Ok a).
#[global] Instance io_bind : MBind io := λ A B k m,
  match m with
  | (t, Ok a) => let '(t', r) := k a in (t ++ t', r)
  | (t, Raise e) => (t, Raise e)
  end.

Definition emit (e : event) : io unit := ([e], Ok tt).
Definition lift {A} (r : result A) : io A := ([], r).

(** [print] of the items of a line. *)
Definition print (line : list print_item) : io unit := emit (Print line).

(** [d.get(key, default)]. *)
Definition dict_get {V} (d : gmap string V) (key : string) (default : V) : V :=
  match d !! key with
  | Some v => v
  | None => default
  end.

(** [d[key]] on a dict literal kept in insertion order. *)
Fixpoint getitem {V} (d : list (string * V)) (key : string) : result V :=
  match d with
  | [] => Raise (KeyError key)
  | (k, v) :: rest => if decide (k = key) then Ok v else getitem rest key
  end.

End Python.

Import Python.

(** ** The notebook [Metrics.ipynb] *)

Module Metrics.

(** Mapping portfolio symbols to CoinGecko API ids. *)
Definition COINGECKO_IDS : list (string * string) :=
  [ ("BTC", "bitcoin");
    ("ETH", "ethereum");
    ("DOGE", "dogecoin");
    ("SOL", "solana");
    ("ADA", "cardano");
    ("OKB", "okb");
    ("USDT", "tether");
    ("AGIX", "singularitynet") ].

(** A well-formed answer of the provider once decoded: provider id to quotes
    per currency. *)
Abbreviation quotes := (gmap string (gmap string pynum)).

(** A price map: symbol to unit price. *)
Abbreviation price_map := (gmap string pynum).

Definition url : string := "https://api.coingecko.com/api/v3/simple/price".

Definition params : list (string * string) :=
  [ ("ids", join "," COINGECKO_IDS.*2);
    ("vs_currencies", "usd") ].

(** [data.get(COINGECKO_IDS[symbol], {}).get("usd", 0)]. *)
Definition price_of (data : quotes) (symbol : string) : result pynum :=
  id ← getitem COINGECKO_IDS symbol;
  Ok (dict_get (dict_get data id ∅) "usd" (PInt 0)).

(** The dict comprehension over the symbols of [COINGECKO_IDS]: entries are
    inserted in iteration order. *)
Fixpoint prices_comprehension (data : quotes) (symbols : list string)
    (acc : price_map) : result price_map :=
  match symbols with
  | [] => Ok acc
  | symbol :: rest =>
      price ← price_of data symbol;
      prices_comprehension data rest (<[symbol := price]> acc)
  end.

Section Fetch.

(** [requests.get(url, params=params)] followed by [response.json()]: what the
    provider answers is outside the program. *)
Variable requests_get : string → list (string * string) → result quotes.

Definition fetch_crypto_prices : io price_map :=
  emit (HttpGet url params);;
  data ← lift (requests_get url params);
  prices ← lift (prices_comprehension data COINGECKO_IDS.*1 ∅);
  print [PStr "Fetched Prices:"; PDict prices];;
  mret prices.

End Fetch.

(** [data.get(COINGECKO_IDS[symbol], {}).get("usd", 0)] when [data] is a
    decoded answer of any shape: each [.get] needs a dict. *)
Definition price_of_untyped (data : json) (symbol : string) : result json :=
  members ← as_dict data;
  id ← getitem COINGECKO_IDS symbol;
  entry ← as_dict (dict_get members id (JDict ∅));
  Ok (dict_get entry "usd" (JNum (PInt 0))).

Fixpoint prices_comprehension_untyped (data : json) (symbols : list string)
    (acc : gmap string json) : result (gmap string json) :=
  match symbols with
  | [] => Ok acc
  | symbol :: rest =>
      price ← price_of_untyped data symbol;
      prices_comprehension_untyped data rest (<[symbol := price]> acc)
  end.

Section FetchUntyped.

(** [requests.get(url, params=params)] followed by [response.json()], which
    may decode to a value of any JSON type. *)
Variable requests_get : string → list (string * string) → result json.

(** [fetch_crypto_prices] on an answer of any shape; on a well-formed one it
    is the function above. *)
Definition fetch_crypto_prices_untyped : io (gmap string json) :=
  emit (HttpGet url params);;
  data ← lift (requests_get url params);
  prices ← lift (prices_comprehension_untyped data COINGECKO_IDS.*1 ∅);
  print [PStr "Fetched Prices:"; PValues prices];;
  mret prices.

End FetchUntyped.

Record Asset := { symbol : string; quantity : pynum }.
Record Portfolio := { currency : string; assets : list Asset }.

(** The body of the [for asset in portfolio["assets"]] loop, with the running
    [total_value]. *)
Fixpoint valuation_loop (prices : price_map) (assets : list Asset)
    (total_value : pynum) : io pynum :=
  match assets with
  | [] => mret total_value
  | asset :: rest =>
      let symbol := asset.(symbol) in
      let quantity := asset.(quantity) in
      let price := dict_get prices symbol (PInt 0) in
      product ← lift (py_mul quantity price);
      total_value ← lift (py_add total_value product);
      valuation_loop prices rest total_value
  end.

Definition calculate_portfolio_value (portfolio : Portfolio)
    (prices : price_map) : io pynum :=
  valuation_loop prices portfolio.(assets) (PInt 0).

Section ValuationUntyped.

(** Whether the machine finds room for a sequence of so many items. *)
Variable allocates : Z → bool.

(** The loop of [calculate_portfolio_value] when the prices may be of any
    JSON type. *)
Fixpoint valuation_loop_untyped (prices : gmap string json) (assets : list Asset)
    (total_value : pynum) : io pynum :=
  match assets with
  | [] => mret total_value
  | asset :: rest =>
      let symbol := asset.(symbol) in
      let quantity := asset.(quantity) in
      let price := dict_get prices symbol (JNum (PInt 0)) in
      product ← lift (py_mul_json allocates quantity price);
      total_value ← lift (py_add_product total_value product);
      valuation_loop_untyped prices rest total_value
  end.

(** [calculate_portfolio_value] on prices of any JSON type; on prices that
    are numbers it is the function above. *)
Definition calculate_portfolio_value_untyped (portfolio : Portfolio)
    (prices : gmap string json) : io pynum :=
  valuation_loop_untyped prices portfolio.(assets) (PInt 0).

End ValuationUntyped.

(** The branch that says which portfolio performed better. *)
Definition compare_portfolios (portfolio1_value portfolio2_value : pynum) : io unit :=
  if py_gt portfolio1_value portfolio2_value then
    diff ← lift (py_sub portfolio1_value portfolio2_value);
    text ← lift (format_2f diff);
    print [PStr ("AI Portfolio performed better! " +:+ text +:+ "$")]
  else if py_gt portfolio2_value portfolio1_value then
    diff ← lift (py_sub portfolio1_value portfolio2_value);
    text ← lift (format_2f diff);
    print [PStr ("Portfolio 2 performed worse! -" +:+ text +:+ "$")]
  else
    print [PStr "Both portfolios have the same value!"].

(** The example input of the notebook. *)
Definition portfolio1 : Portfolio :=
  {| currency := "USDT";
     assets :=
       [ {| symbol := "BTC"; quantity := PFloat 1.01190024 |};
         {| symbol := "OKB"; quantity := PInt 100 |};
         {| symbol := "ETH"; quantity := PInt 1 |};
         {| symbol := "DOGE"; quantity := PFloat 8626.95585954 |};
         {| symbol := "SOL"; quantity := PFloat 7.50619828 |};
         {| symbol := "ADA"; quantity := PFloat 1348.542108 |};
         {| symbol := "USDT"; quantity := PFloat 300.0004958 |};
         {| symbol := "AGIX"; quantity := PFloat 308.562129 |} ] |}.

Definition portfolio2 : Portfolio :=
  {| currency := "USDT";
     assets :=
       [ {| symbol := "BTC"; quantity := PInt 1 |};
         {| symbol := "OKB"; quantity := PInt 100 |};
         {| symbol := "USDT"; quantity := PFloat 3300.0000509 |};
         {| symbol := "ETH"; quantity := PInt 1 |};
         {| symbol := "ADA"; quantity := PFloat 1348.542108 |};
         {| symbol := "DOGE"; quantity := PFloat 2870.6896547 |};
         {| symbol := "AGIX"; quantity := PFloat 308.562129 |} ] |}.

Section Main.

(** What lies outside the cell: the provider, whose answer may decode to a
    value of any JSON type, and the memory of the machine. *)
Variable requests_get : string → list (string * string) → result json.
Variable allocates : Z → bool.

(** The top-level statements of the cell, in order. *)
Definition main : io unit :=
  prices ← fetch_crypto_prices_untyped requests_get;
  portfolio1_value ← calculate_portfolio_value_untyped allocates portfolio1 prices;
  portfolio2_value ← calculate_portfolio_value_untyped allocates portfolio2 prices;
  text1 ← lift (format_2f portfolio1_value);
  print [PStr ("Portfolio 1 Total Value: $" +:+ text1 +:+ " USDT")];;
  text2 ← lift (format_2f portfolio2_value);
  print [PStr ("Portfolio 2 Total Value: $" +:+ text2 +:+ " USDT")];;
  compare_portfolios portfolio1_value portfolio2_value.

End Main.

(** A well-formed answer as the decoded value it is. *)
Definition json_of_quotes (data : quotes) : json :=
  JDict ((λ quote : gmap string pynum, JDict (JNum <$> quote)) <$> data).

(** The provider's answer behind the output recorded in the notebook. *)
Definition recorded_quotes : quotes :=
  list_to_map
    [ ("bitcoin", {[ "usd" := PInt 84417 ]});
      ("ethereum", {[ "usd" := PFloat 1939.77 ]});
      ("dogecoin", {[ "usd" := PFloat 0.175962 ]});
      ("solana", {[ "usd" := PFloat 135.14 ]});
      ("cardano", {[ "usd" := PFloat 0.752097 ]});
      ("okb", {[ "usd" := PFloat 46.98 ]});
      ("tether", {[ "usd" := PFloat 1.0 ]});
      ("singularitynet", {[ "usd" := PFloat 0.228085 ]}) ].

End Metrics.

Import Metrics.

(** ** The trade-execution client *)

(** The script [auto-trader.py] and the agents it drives are documented in
    the repository's README files but are not among its sources. The
    definitions of this module follow the specification's wording of the
    client: request signer, recommendation validator, order placement and
    the cycle that chains them. *)
Module AutoTrader.

(** *** Bytes, SHA-256, HMAC and base64 *)

(** Bytes are integers in [0, 256). *)
Definition bytes_of_string (s : string) : list Z :=
  (λ a, Z.of_N (Ascii.N_of_ascii a)) <$> String.list_ascii_of_string s.

Definition string_of_bytes (bs : list Z) : string :=
  String.string_of_list_ascii ((λ b, Ascii.ascii_of_N (Z.to_N b)) <$> bs).

(** The [n] low-order bytes of [x], most significant first. *)
Fixpoint be_bytes (n : nat) (x : Z) : list Z :=
  match n with
  | O => []
  | S n' => Z.shiftr x (8 * Z.of_nat n') `mod` 256 :: be_bytes n' x
  end.

Definition be_word (bs : list Z) : Z := foldl (λ acc b, acc * 256 + b) 0 bs.

Definition mask32 : Z := 2 ^ 32 - 1.
Definition add32 (x y : Z) : Z := Z.land (x + y) mask32.
Definition rotr (n x : Z) : Z :=
  Z.lor (Z.shiftr x n) (Z.land (Z.shiftl x (32 - n)) mask32).
Definition not32 (x : Z) : Z := Z.lxor x mask32.

Definition Ch (x y z : Z) : Z := Z.lxor (Z.land x y) (Z.land (not32 x) z).
Definition Maj (x y z : Z) : Z := Z.lxor (Z.lxor (Z.land x y) (Z.land x z)) (Z.land y z).
Definition Sigma0 (x : Z) : Z := Z.lxor (Z.lxor (rotr 2 x) (rotr 13 x)) (rotr 22 x).
Definition Sigma1 (x : Z) : Z := Z.lxor (Z.lxor (rotr 6 x) (rotr 11 x)) (rotr 25 x).
Definition sigma0 (x : Z) : Z := Z.lxor (Z.lxor (rotr 7 x) (rotr 18 x)) (Z.shiftr x 3).
Definition sigma1 (x : Z) : Z := Z.lxor (Z.lxor (rotr 17 x) (rotr 19 x)) (Z.shiftr x 10).

(** The first 64 primes. *)
Definition primes64 : list Z :=
  [ 2; 3; 5; 7; 11; 13; 17; 19; 23; 29; 31; 37; 41; 43; 47; 53;
    59; 61; 67; 71; 73; 79; 83; 89; 97; 101; 103; 107; 109; 113; 127; 131;
    137; 139; 149; 151; 157; 163; 167; 173; 179; 181; 191; 193; 197; 199; 211; 223;
    227; 229; 233; 239; 241; 251; 257; 263; 269; 271; 277; 281; 283; 293; 307; 311 ].

(** The integer cube root of [n], found bit by bit from bit [bits - 1] down. *)
Fixpoint cube_root (bits : nat) (n root : Z) : Z :=
  match bits with
  | O => root
  | S bits' =>
      let candidate := root + 2 ^ Z.of_nat bits' in
      cube_root bits' n (if candidate ^ 3 <=? n then candidate else root)
  end.

(** The round constants: the first 32 bits of the fractional parts of the cube
    roots of the first 64 primes. *)
Definition K256 : list Z :=
  Eval vm_compute in (λ p, Z.land (cube_root 40 (p * 2 ^ 96) 0) mask32) <$> primes64.

(** The initial hash value: the first 32 bits of the fractional parts of the
    square roots of the first 8 primes. *)
Definition H256 : list Z :=
  Eval vm_compute in (λ p, Z.land (Z.sqrt (p * 2 ^ 64)) mask32) <$> take 8 primes64.

(** The message with its padding: a 1 bit, zeros, and the length in bits on
    eight bytes, up to a multiple of 64 bytes. *)
Definition pad (msg : list Z) : list Z :=
  let n := Z.of_nat (length msg) in
  let zeros := Z.to_nat ((55 - n) `mod` 64) in
  msg ++ [0x80] ++ replicate zeros 0 ++ be_bytes 8 (8 * n).

(** A list cut into chunks of [n] elements; [fuel] bounds their number. *)
Fixpoint chunks {A} (fuel n : nat) (l : list A) : list (list A) :=
  match fuel, l with
  | O, _ | _, [] => []
  | S fuel', _ => take n l :: chunks fuel' n (drop n l)
  end.

(** The message schedule: [count] more words after the window of the last 16. *)
Fixpoint schedule (count : nat) (window : list Z) : list Z :=
  match count with
  | O => []
  | S count' =>
      let w := add32 (add32 (sigma1 (window !!! 14%nat)) (window !!! 9%nat))
                     (add32 (sigma0 (window !!! 1%nat)) (window !!! 0%nat)) in
      w :: schedule count' (drop 1 window ++ [w])
  end.

Definition round (st : list Z) (kw : Z * Z) : list Z :=
  match st with
  | [a; b; c; d; e; f; g; h] =>
      let t1 := add32 (add32 (add32 h (Sigma1 e)) (add32 (Ch e f g) kw.1)) kw.2 in
      let t2 := add32 (Sigma0 a) (Maj a b c) in
      [add32 t1 t2; a; b; c; add32 d t1; e; f; g]
  | _ => st
  end.

Definition compress (st : list Z) (block : list Z) : list Z :=
  let w16 := be_word <$> chunks 16 4 block in
  let w := w16 ++ schedule 48 w16 in
  zip_with add32 st (foldl round st (zip K256 w)).

(** Modelled from the spec: the cryptographic hash function of the signer,
    whose code is missing; the README names it (HMAC-SHA256). *)
Definition sha256 (msg : list Z) : list Z :=
  let padded := pad msg in
  let blocks := chunks (length padded) 64 padded in
  foldl compress H256 blocks ≫= be_bytes 4.

Section Hmac.

(** The cryptographic hash function, and the length in bytes of its blocks. *)
Variable hash : list Z → list Z.
Variable block_size : nat.

Definition hmac_key (key : list Z) : list Z :=
  let k := if decide (block_size < length key)%nat then hash key else key in
  k ++ replicate (block_size - length k) 0.

(** Modelled from the spec: the keyed hash (HMAC) of the signer, whose code
    is missing, over the hash function given. *)
Definition hmac (key msg : list Z) : list Z :=
  let k := hmac_key key in
  hash ((Z.lxor 0x5c <$> k) ++ hash ((Z.lxor 0x36 <$> k) ++ msg)).

End Hmac.

Definition base64_alphabet : list Z :=
  bytes_of_string "ABCDEFGHIJKLMNOPQRSTUVWXYZabcdefghijklmnopqrstuvwxyz0123456789+/".

Definition base64_char (i : Z) : Z := base64_alphabet !!! Z.to_nat i.

Fixpoint base64_bytes (fuel : nat) (bs : list Z) : list Z :=
  match fuel, bs with
  | O, _ | _, [] => []
  | S fuel', [a] =>
      [base64_char (a / 4); base64_char (a `mod` 4 * 16); 61; 61]
  | S fuel', [a; b] =>
      [base64_char (a / 4); base64_char (a `mod` 4 * 16 + b / 16);
       base64_char (b `mod` 16 * 4); 61]
  | S fuel', a :: b :: c :: rest =>
      [base64_char (a / 4); base64_char (a `mod` 4 * 16 + b / 16);
       base64_char (b `mod` 16 * 4 + c / 64); base64_char (c `mod` 64)]
      ++ base64_bytes fuel' rest
  end.

(** Modelled from the spec: the base64 encoding of the digest by the signer,
    whose code is missing. *)
Definition base64_encode (bs : list Z) : string :=
  string_of_bytes (base64_bytes (length bs) bs).

Definition hex_digit (i : Z) : Z := bytes_of_string "0123456789abcdef" !!! Z.to_nat i.

Definition hex (bs : list Z) : string :=
  string_of_bytes (bs ≫= λ b, [hex_digit (b / 16); hex_digit (b `mod` 16)]).

(** *** The authenticated request signer *)

(** Modelled from the spec: the credential of the client, whose code is
    missing. *)
Record Credential := { api_key : string; api_secret : string; passphrase : string }.

(** Modelled from the spec: the credential is read once from three
    environment variables, and a missing one is a configuration error (the
    README names the variables). *)
Definition load_credential (env : gmap string string) : option Credential :=
  key ← env !! "OKX_API_KEY";
  secret ← env !! "OKX_API_SECRET";
  phrase ← env !! "OKX_API_PASSPHRASE";
  Some {| api_key := key; api_secret := secret; passphrase := phrase |}.

Record Headers := {
  header_key : string;
  header_signature : string;
  header_timestamp : string;
  header_passphrase : string }.

Section Signer.

Variable hash : list Z → list Z.
Variable block_size : nat.

(** Modelled from the spec: the signature base string of the signer, whose
    code is missing: [timestamp + method + request_path + body]. *)
Definition prehash (timestamp method request_path body : string) : string :=
  timestamp +:+ method +:+ request_path +:+ body.

(** Modelled from the spec: the signer, whose code is missing: the HMAC of the
    base string keyed by the API secret, base64-encoded. *)
Definition sign (secret timestamp method request_path body : string) : string :=
  base64_encode
    (hmac hash block_size (bytes_of_string secret)
       (bytes_of_string (prehash timestamp method request_path body))).

(** Modelled from the spec: the headers of a signed request, whose code is
    missing: API key, signature, timestamp, and the passphrase verbatim. *)
Definition signed_headers (cred : Credential)
    (timestamp method request_path body : string) : Headers :=
  {| header_key := cred.(api_key);
     header_signature := sign cred.(api_secret) timestamp method request_path body;
     header_timestamp := timestamp;
     header_passphrase := cred.(passphrase) |}.

End Signer.

(** The signer with the hash the README names, HMAC-SHA256. *)
Definition sign_sha256 : string → string → string → string → string → string :=
  sign sha256 64.

(** *** Recommendations, orders and what a cycle does *)

Inductive Action := BUY | SELL | HOLD.

Inductive Side := Buy | Sell.

(** Modelled from the spec: the trade recommendation once parsed, the code
    that receives it being missing; the action is still the text received. *)
Record Recommendation := {
  action : string;
  coin : string;
  amount_usd : Q;
  reasoning : option string }.

(** Modelled from the spec: the configured risk limits of the validator,
    whose code is missing. *)
Record RiskLimits := { max_trade_size_usd : Q; risk_tolerance : string }.

(** Modelled from the spec: the output of the validator, whose code is
    missing: a validated recommendation, ready for order construction. *)
Record Validated := { valid_side : Side; valid_coin : string; valid_amount_usd : Q }.

(** Modelled from the spec: the body of an order request, the code that
    builds it being missing. *)
Record Order := {
  instrument : string;
  side : Side;
  order_type : string;
  size_or_amount : Q }.

Inductive SkipReason :=
| parse_error
| unsupported_action
| negative_amount
| unsupported_coin.

Inductive FailReason :=
| network_exhausted
| authentication_error
| order_rejected.

(** Modelled from the spec: what the validator, whose code is missing,
    decides: an order to place, no order, or a skip with its reason. *)
Inductive Decision :=
| Execute (v : Validated)
| NoOrder
| Skip (reason : SkipReason).

(** Modelled from the spec: the outcome of a cycle, whose code is missing. *)
Inductive CycleResult :=
| Succeeded
| Skipped (reason : SkipReason)
| Failed (reason : FailReason).

Inductive Level := INFO | WARNING | ERROR.

Inductive Endpoint := BalanceEndpoint | RecommendationSource | OrderEndpoint.

(** What the client logs and what it sends over the network. *)
Inductive Event :=
| Log (level : Level) (text : string)
| LogOrder (level : Level) (text : string) (o : Order)
| Get (endpoint : Endpoint)
| Post (endpoint : Endpoint) (o : Order)
| Sleep (seconds : nat).

(** Modelled from the spec: the failures of a network call in the error
    taxonomy of the client, whose code is missing. *)
Inductive Error :=
| NetworkError
| RateLimitError
| AuthenticationError
| OrderRejectedError.

Inductive Reply (A : Type) :=
| Answer (a : A)
| Failure (e : Error).
Arguments Answer {A} a.
Arguments Failure {A} e.

Record OrderAck := { order_id : string; status : string }.

Record Balance := { asset_symbol : string; free_quantity : Q }.

(** What lies outside the client: the answers of the exchange and of the
    recommendation source to each attempt, the decoder of the recommendation
    text, and the symbols the exchange trades. *)
Record World := {
  balances_reply : nat → Reply (list Balance);
  recommendation_reply : nat → Reply string;
  order_reply : nat → Reply OrderAck;
  parse : string → option Recommendation;
  supported : string → bool }.

(** Modelled from the spec: the settings of the client, whose code is
    missing: the simulate flag, the risk limits and the retry policy. *)
Record Config := {
  simulate : bool;
  limits : RiskLimits;
  max_retries : nat;
  backoff_seconds : nat }.

Definition parse_action (text : string) : option Action :=
  if decide (text = "BUY") then Some BUY
  else if decide (text = "SELL") then Some SELL
  else if decide (text = "HOLD") then Some HOLD
  else None.

(** Modelled from the spec: rules 3 and 4 of the validator, whose code is
    missing: a negative amount is rejected, an amount above the cap is
    clamped to the cap with a warning, then an unsupported coin is rejected. *)
Definition validate_trade (lim : RiskLimits) (is_supported : string → bool)
    (s : Side) (r : Recommendation) : list Event * Decision :=
  if negb (Qle_bool 0 r.(amount_usd)) then
    ([Log ERROR "amount_usd is negative"], Skip negative_amount)
  else
    let above := negb (Qle_bool r.(amount_usd) lim.(max_trade_size_usd)) in
    let amount := if above then lim.(max_trade_size_usd) else r.(amount_usd) in
    let warning :=
      if above then [Log WARNING "amount_usd clamped to max_trade_size_usd"] else [] in
    if is_supported r.(coin) then
      (warning, Execute {| valid_side := s; valid_coin := r.(coin); valid_amount_usd := amount |})
    else
      (warning ++ [Log ERROR "coin is not supported"], Skip unsupported_coin).

(** Modelled from the spec: rule 2 of the validator, whose code is missing,
    followed by rules 3 and 4: the action must be BUY, SELL or HOLD, and HOLD
    short-circuits to no order. *)
Definition validate_parsed (lim : RiskLimits) (is_supported : string → bool)
    (r : Recommendation) : list Event * Decision :=
  match parse_action r.(action) with
  | None => ([Log ERROR "action is not BUY, SELL or HOLD"], Skip unsupported_action)
  | Some HOLD => ([], NoOrder)
  | Some BUY => validate_trade lim is_supported Buy r
  | Some SELL => validate_trade lim is_supported Sell r
  end.

(** Modelled from the spec: the validator, whose code is missing, from the
    raw text on: rule 1 rejects a text that does not parse and logs it. *)
Definition validate (lim : RiskLimits) (w : World) (raw : string) : list Event * Decision :=
  match w.(parse) raw with
  | None => ([Log ERROR ("recommendation does not parse: " +:+ raw)], Skip parse_error)
  | Some r => validate_parsed lim w.(supported) r
  end.

(** Modelled from the spec: the construction of the market order for a
    validated recommendation, whose code is missing. *)
Definition construct_order (v : Validated) : Order :=
  {| instrument := v.(valid_coin);
     side := v.(valid_side);
     order_type := "market";
     size_or_amount := v.(valid_amount_usd) |}.

Definition transient (e : Error) : bool :=
  match e with
  | NetworkError | RateLimitError => true
  | AuthenticationError | OrderRejectedError => false
  end.

Definition fail_reason (e : Error) : FailReason :=
  match e with
  | NetworkError | RateLimitError => network_exhausted
  | AuthenticationError => authentication_error
  | OrderRejectedError => order_rejected
  end.

(** Modelled from the spec: the retry policy, whose code is missing: a call
    is retried after a transient failure, with a delay that doubles, until
    [retries] retries are used up; another failure ends the call at once. *)
Fixpoint with_retry {A} (request : Event) (reply : nat → Reply A)
    (delay retries attempt : nat) : list Event * (FailReason + A) :=
  match reply attempt with
  | Answer a => ([request], inr a)
  | Failure e =>
      if transient e then
        match retries with
        | O => ([request], inl network_exhausted)
        | S retries' =>
            let '(t, r) := with_retry request reply (2 * delay) retries' (S attempt) in
            (request :: Sleep delay :: t, r)
        end
      else ([request], inl (fail_reason e))
  end.

(** Modelled from the spec: order placement, whose code is missing: in
    simulate mode the would-be order is logged as SIMULATED and the placement
    succeeds without any network call; otherwise the order is posted to the
    order endpoint under the retry policy. *)
Definition place_order (cfg : Config) (w : World) (o : Order) : list Event * (FailReason + unit) :=
  if cfg.(simulate) then ([LogOrder INFO "SIMULATED" o], inr ())
  else
    let '(t, r) :=
      with_retry (Post OrderEndpoint o) w.(order_reply) cfg.(backoff_seconds)
        cfg.(max_retries) 0 in
    match r with
    | inr ack =>
        (t ++ [Log INFO ("order " +:+ ack.(order_id) +:+ " " +:+ ack.(status))], inr ())
    | inl reason => (t, inl reason)
    end.

(** Modelled from the spec: what the cycle does with the validator's
    decision, the code of the cycle being missing: a skip and a hold place no
    order, a validated recommendation becomes one order. *)
Definition execute (cfg : Config) (w : World) (d : Decision) : list Event * CycleResult :=
  match d with
  | Skip reason => ([Log INFO "skipped"], Skipped reason)
  | NoOrder => ([Log INFO "hold: no order"], Succeeded)
  | Execute v =>
      let '(t, r) := place_order cfg w (construct_order v) in
      match r with
      | inr _ => (t ++ [Log INFO "order placed"], Succeeded)
      | inl reason => (t ++ [Log ERROR "order failed"], Failed reason)
      end
  end.

(** Modelled from the spec: the cycle, whose code is missing, from a parsed
    recommendation on: validate, then act on the decision. *)
Definition handle_recommendation (cfg : Config) (w : World) (r : Recommendation)
    : list Event * CycleResult :=
  let '(t, d) := validate_parsed cfg.(limits) w.(supported) r in
  let '(t', result) := execute cfg w d in
  (t ++ t', result).

(** Modelled from the spec: the cycle, whose code is missing, from the text
    of the recommendation on: validate, then act on the decision. *)
Definition handle_text (cfg : Config) (w : World) (raw : string) : list Event * CycleResult :=
  let '(t, d) := validate cfg.(limits) w raw in
  let '(t', result) := execute cfg w d in
  (t ++ t', result).

(** Modelled from the spec: one cycle of the scheduler, whose code is
    missing: fetch the balances, fetch the recommendation, validate it, place
    the order or simulate it, and log the outcome; a failed fetch fails the
    cycle only. *)
Definition run_cycle (cfg : Config) (w : World) : list Event * CycleResult :=
  let '(t1, r1) :=
    with_retry (Get BalanceEndpoint) w.(balances_reply) cfg.(backoff_seconds)
      cfg.(max_retries) 0 in
  match r1 with
  | inl reason => (t1 ++ [Log ERROR "balances not fetched"], Failed reason)
  | inr _ =>
      let '(t2, r2) :=
        with_retry (Get RecommendationSource) w.(recommendation_reply)
          cfg.(backoff_seconds) cfg.(max_retries) 0 in
      match r2 with
      | inl reason => (t1 ++ t2 ++ [Log ERROR "no recommendation"], Failed reason)
      | inr raw =>
          let '(t3, result) := handle_text cfg w raw in
          (t1 ++ t2 ++ t3, result)
      end
  end.

(** The orders a trace sent to the order endpoint. *)
Definition is_post (ev : Event) : bool :=
  match ev with
  | Post _ _ => true
  | _ => false
  end.

Definition is_network (ev : Event) : bool :=
  match ev with
  | Post _ _ | Get _ => true
  | _ => false
  end.

Definition orders_submitted (t : list Event) : nat := length (filter is_post t).

End AutoTrader.

(** ** Vocabulary of the statements *)

(** The sum of a list of numbers, added left to right onto [start]. *)
Fixpoint sum_from (start : pynum) (values : list pynum) : result pynum :=
  match values with
  | [] => Ok start
  | v :: rest => s ← py_add start v; sum_from s rest
  end.

(** What one balance entry contributes: quantity × price, the price being 0
    when the symbol has none. *)
Definition contribution (prices : price_map) (asset : Asset) : result pynum :=
  py_mul asset.(quantity) (dict_get prices asset.(symbol) (PInt 0)).

Definition is_int (a : pynum) : bool :=
  match a with
  | PInt _ => true
  | PFloat _ => false
  end.

Definition int_of (a : pynum) : Z :=
  match a with
  | PInt z => z
  | PFloat _ => 0
  end.

(** The exact value of a portfolio whose quantities and prices are ints. *)
Definition exact_value (prices : price_map) (assets : list Asset) : Z :=
  foldr (λ asset s, int_of asset.(quantity) * int_of (dict_get prices asset.(symbol) (PInt 0)) + s)
    0 assets.

(** The portfolio of the notebook's example with its entries in another order. *)
Definition portfolio1_reordered : Portfolio :=
  {| currency := "USDT";
     assets :=
       [ {| symbol := "OKB"; quantity := PInt 100 |};
         {| symbol := "DOGE"; quantity := PFloat 8626.95585954 |};
         {| symbol := "SOL"; quantity := PFloat 7.50619828 |};
         {| symbol := "BTC"; quantity := PFloat 1.01190024 |};
         {| symbol := "ETH"; quantity := PInt 1 |};
         {| symbol := "ADA"; quantity := PFloat 1348.542108 |};
         {| symbol := "USDT"; quantity := PFloat 300.0004958 |};
         {| symbol := "AGIX"; quantity := PFloat 308.562129 |} ] |}.

(** The prices printed in the notebook's recorded output. *)
Definition recorded_prices : price_map :=
  list_to_map
    [ ("BTC", PInt 84417);
      ("ETH", PFloat 1939.77);
      ("DOGE", PFloat 0.175962);
      ("SOL", PFloat 135.14);
      ("ADA", PFloat 0.752097);
      ("OKB", PFloat 46.98);
      ("USDT", PFloat 1.0);
      ("AGIX", PFloat 0.228085) ].

(** A holding the price map knows nothing about. *)
Definition unpriced_portfolio : Portfolio :=
  {| currency := "USDT";
     assets := [ {| symbol := "NEAR"; quantity := PInt 5 |};
                 {| symbol := "BTC"; quantity := PInt 1 |} ] |}.

(** A portfolio of whole quantities at whole prices, and a reordering of it. *)
Definition whole_portfolio : Portfolio :=
  {| currency := "USDT";
     assets := [ {| symbol := "BTC"; quantity := PInt 1 |};
                 {| symbol := "OKB"; quantity := PInt 100 |};
                 {| symbol := "ETH"; quantity := PInt 2 |} ] |}.

Definition whole_portfolio_reordered : Portfolio :=
  {| currency := "USDT";
     assets := [ {| symbol := "ETH"; quantity := PInt 2 |};
                 {| symbol := "BTC"; quantity := PInt 1 |};
                 {| symbol := "OKB"; quantity := PInt 100 |} ] |}.

Definition whole_prices : price_map :=
  list_to_map [ ("BTC", PInt 84417); ("OKB", PInt 47); ("ETH", PInt 1940) ].

(** A client configuration with the cap of scenario B, an exchange that
    trades NEAR only and always answers, and a recommendation above the cap. *)
Definition limits_5000 : AutoTrader.RiskLimits :=
  {| AutoTrader.max_trade_size_usd := 5000; AutoTrader.risk_tolerance := "medium" |}.

Definition config_5000 (simulated : bool) : AutoTrader.Config :=
  {| AutoTrader.simulate := simulated;
     AutoTrader.limits := limits_5000;
     AutoTrader.max_retries := 3;
     AutoTrader.backoff_seconds := 1 |}.

Definition buy_10000 (symbol : string) : AutoTrader.Recommendation :=
  {| AutoTrader.action := "BUY";
     AutoTrader.coin := symbol;
     AutoTrader.amount_usd := 10000;
     AutoTrader.reasoning := None |}.

Definition hold_anything : AutoTrader.Recommendation :=
  {| AutoTrader.action := "HOLD";
     AutoTrader.coin := "no such coin";
     AutoTrader.amount_usd := -1;
     AutoTrader.reasoning := Some "wait" |}.

(** The decoder of this world only knows two texts. *)
Definition near_world (balances : nat → AutoTrader.Reply (list AutoTrader.Balance))
    : AutoTrader.World :=
  {| AutoTrader.balances_reply := balances;
     AutoTrader.recommendation_reply := λ _, AutoTrader.Answer "buy near";
     AutoTrader.order_reply :=
       λ _, AutoTrader.Answer {| AutoTrader.order_id := "1"; AutoTrader.status := "filled" |};
     AutoTrader.parse := λ raw,
       if decide (raw = "buy near") then Some (buy_10000 "NEAR")
       else if decide (raw = "hold") then Some hold_anything
       else None;
     AutoTrader.supported := λ symbol, bool_decide (symbol = "NEAR") |}.

Definition balances_ok : nat → AutoTrader.Reply (list AutoTrader.Balance) :=
  λ _, AutoTrader.Answer
         [ {| AutoTrader.asset_symbol := "BTC"; AutoTrader.free_quantity := 1 |};
           {| AutoTrader.asset_symbol := "USDT"; AutoTrader.free_quantity := 300 |} ].

Definition balances_down : nat → AutoTrader.Reply (list AutoTrader.Balance) :=
  λ _, AutoTrader.Failure AutoTrader.NetworkError.

(** A float below zero: a finite one or an infinity with the sign bit set. *)
Definition strictly_negative (sf : spec_float) : bool :=
  match sf with
  | S754_finite true _ _ | S754_infinity true => true
  | _ => false
  end.

(** A number that converts to float without rounding: any float, and an int
    below 2^53 in magnitude. *)
Definition within_float_precision (a : pynum) : bool :=
  match a with
  | PInt z => Z.abs z <? 2 ^ 53
  | PFloat _ => true
  end.

(** The exponent of the canonical form of a binary64 number. *)
Abbreviation fexp := (SpecFloat.fexp prec emax).

(** A float above zero: a finite one or an infinity with the sign bit clear. *)
Definition strictly_positive (sf : spec_float) : bool :=
  match sf with
  | S754_finite false _ _ | S754_infinity false => true
  | _ => false
  end.

(** A float that is not below zero: a zero of either sign, or a float above
    zero; a NaN is not one. *)
Definition nonnegative (sf : spec_float) : bool :=
  match sf with
  | S754_zero _ | S754_finite false _ _ | S754_infinity false => true
  | _ => false
  end.

(** [a >= 0]. *)
Definition py_is_nonneg (a : pynum) : bool :=
  match a with
  | PInt z => 0 <=? z
  | PFloat f => nonnegative (Prim2SF f)
  end.

(** [a == b]: like the order, exact between an int and a float. *)
Definition py_eq (a b : pynum) : bool :=
  match a, b with
  | PInt x, PInt y => x =? y
  | PFloat x, PFloat y => PrimFloat.eqb x y
  | PFloat x, PInt y =>
      match compare_float_int x y with Some Eq => true | _ => false end
  | PInt x, PFloat y =>
      match compare_float_int y x with Some Eq => true | _ => false end
  end.

(** [math.isnan(a)]. *)
Definition py_is_nan (a : pynum) : bool :=
  match a with
  | PInt _ => false
  | PFloat f =>
      match Prim2SF f with
      | S754_nan => true
      | _ => false
      end
  end.

(** An int below [bound] in magnitude, or any float. *)
Definition int_below (bound : Z) (a : pynum) : Prop :=
  match a with
  | PInt z => Z.abs z < bound
  | PFloat _ => True
  end.

(** The USD quote an answer gives under an id, 0 when it gives none. *)
Definition usd_quote (data : quotes) (id : string) : pynum :=
  dict_get (dict_get data id ∅) "usd" (PInt 0).

(** The price map that belongs to an answer: each symbol of [COINGECKO_IDS]
    with the quote under its id. *)
Definition translated_prices (data : quotes) : price_map :=
  list_to_map ((λ entry, (entry.1, usd_quote data entry.2)) <$> COINGECKO_IDS).

(** The recorded answer with a coin nobody asked for, and with quotes in
    another currency. *)
Definition recorded_quotes_and_more : quotes :=
  <[ "ripple" := {[ "usd" := PFloat 2.5 ]} ]>
    (<[ "bitcoin" := {[ "usd" := PInt 84417; "eur" := PInt 77000 ]} ]> recorded_quotes).

(** [data.get(id, {}).get("usd", 0)]: the USD quote that an answer of any
    shape gives under an id, or the exception of a [.get] on what is no dict. *)
Definition usd_lookup (data : json) (id : string) : result json :=
  members ← as_dict data;
  entry ← as_dict (dict_get members id (JDict ∅));
  Ok (dict_get entry "usd" (JNum (PInt 0))).

(** The dict that the comprehension builds when [quote] gives the quote found
    under each id. *)
Definition quoted_prices (quote : string → json) : gmap string json :=
  foldl (λ acc entry, <[entry.1 := quote entry.2]> acc) ∅ COINGECKO_IDS.

(** The price map of an answer that quotes nothing. *)
Definition unquoted_prices : gmap string json :=
  quoted_prices (λ _, JNum (PInt 0)).

(** The prices of a dict that are numbers. *)
Definition numbers_of (prices : gmap string json) : price_map :=
  omap (λ v, match v with JNum n => Some n | _ => None end) prices.

(** The recorded answer as the decoded value it is. *)
Definition recorded_answer : json := json_of_quotes recorded_quotes.

(** An answer that carries an error report instead of quotes. *)
Definition error_body : json :=
  JDict {[ "status" := JDict {[ "error_code" := JNum (PInt 429);
                                "error_message" := JStr "rate limit" ]} ]}.

(** The recorded answer with a coin nobody asked for, quotes in another
    currency, and a member that is no object. *)
Definition recorded_answer_and_more : json :=
  JDict (<[ "ripple" := JDict {[ "usd" := JNum (PFloat 2.5) ]} ]>
           (<[ "status" := JNull ]>
              ((λ quote : gmap string pynum, JDict (JNum <$> quote))
                 <$> <[ "bitcoin" := {[ "usd" := PInt 84417; "eur" := PInt 77000 ]} ]>
                       recorded_quotes))).

(** The recorded answer with another member under an id. *)
Definition recorded_answer_with (id : string) (member : json) : json :=
  JDict (<[ id := member ]>
           ((λ quote : gmap string pynum, JDict (JNum <$> quote)) <$> recorded_quotes)).

(** The recorded prices as the fetch returns them, with another price of a
    symbol. *)
Definition recorded_prices_with (symbol : string) (price : json) : gmap string json :=
  <[ symbol := price ]> (JNum <$> recorded_prices).


(** A world whose recommendation is to hold, and whose exchange would reject
    any order. *)
Definition hold_world : AutoTrader.World :=
  {| AutoTrader.balances_reply := balances_ok;
     AutoTrader.recommendation_reply := λ _, AutoTrader.Answer "hold";
     AutoTrader.order_reply := λ _, AutoTrader.Failure AutoTrader.OrderRejectedError;
     AutoTrader.parse := AutoTrader.parse (near_world balances_ok);
     AutoTrader.supported := λ _, false |}.

(** A byte. *)
Definition is_byte (b : Z) : Prop := 0 <= b < 256.

(** The position of a character in a list, counted from [i]. *)
Fixpoint index_from (i : Z) (c : Z) (l : list Z) : option Z :=
  match l with
  | [] => None
  | x :: rest => if decide (x = c) then Some i else index_from (i + 1) c rest
  end.

(** The six bits a base64 character stands for. *)
Definition base64_index (c : Z) : option Z := index_from 0 c AutoTrader.base64_alphabet.

(** The bytes that groups of four base64 characters stand for (RFC 4648);
    only the last group may be padded with the character 61. *)
Fixpoint base64_decode_bytes (fuel : nat) (cs : list Z) : option (list Z) :=
  match fuel, cs with
  | _, [] => Some []
  | S fuel', c1 :: c2 :: c3 :: c4 :: rest =>
      s1 ← base64_index c1;
      s2 ← base64_index c2;
      if decide (c4 = 61) then
        match rest with
        | [] =>
            if decide (c3 = 61) then Some [s1 * 4 + s2 / 16]
            else
              s3 ← base64_index c3;
              Some [s1 * 4 + s2 / 16; s2 `mod` 16 * 16 + s3 / 4]
        | _ => None
        end
      else
        s3 ← base64_index c3;
        s4 ← base64_index c4;
        tail ← base64_decode_bytes fuel' rest;
        Some (s1 * 4 + s2 / 16 :: s2 `mod` 16 * 16 + s3 / 4 :: s3 `mod` 4 * 64 + s4 :: tail)
  | _, _ => None
  end.

(** The bytes a base64 text stands for. *)
Definition base64_decode (s : string) : option (list Z) :=
  let cs := AutoTrader.bytes_of_string s in
  base64_decode_bytes (length cs) cs.

(** ** Python numbers *)

Section PythonNumbers.

Lemma int_to_float_raise z e : int_to_float z = Raise e → e = OverflowError.
Proof.
  unfold int_to_float. destruct (binary_normalize _ _ _ _ _); congruence.
Qed.

Lemma py_binop_raise fz ff a b e : py_binop fz ff a b = Raise e → e = OverflowError.
Proof.
  destruct a as [x|x], b as [y|y]; simpl; try discriminate.
  - destruct (int_to_float x) eqn:E; simpl; [discriminate|].
    intros [= <-]. by eapply int_to_float_raise.
  - destruct (int_to_float y) eqn:E; simpl; [discriminate|].
    intros [= <-]. by eapply int_to_float_raise.
Qed.

Lemma py_binop_int fz ff x y : py_binop fz ff (PInt x) (PInt y) = Ok (PInt (fz x y)).
Proof. reflexivity. Qed.

(** A finite float times zero is a zero. *)
Lemma float_mul_zero_finite f :
  py_is_finite (PFloat f) = true → PrimFloat.eqb (f * 0)%float 0 = true.
Proof.
  simpl. intros Hfin. rewrite FloatAxioms.eqb_spec, FloatAxioms.mul_spec.
  destruct (Prim2SF f) as [s|s| |s m e]; try discriminate; by destruct s.
Qed.

(** Multiplying by the int [0] never raises, and gives zero on finite numbers. *)
Lemma py_mul_zero a :
  ∃ z, py_mul a (PInt 0) = Ok z ∧ (py_is_finite a = true → py_is_zero z = true).
Proof.
  destruct a as [x|f].
  - exists (PInt 0). split; [|done].
    unfold py_mul. rewrite py_binop_int. by rewrite Z.mul_0_r.
  - exists (PFloat (f * 0)). split; [done|]. apply float_mul_zero_finite.
Qed.

End PythonNumbers.

(** ** Subtraction of floats

    The difference of two floats is negative whenever the first is the
    smaller: the rounding of the exact difference never reaches zero. *)

Section FloatSubtraction.

Lemma digits2_pos_bounds m :
  2 ^ (Z.pos (digits2_pos m) - 1) <= Z.pos m < 2 ^ Z.pos (digits2_pos m).
Proof.
  induction m as [m IH|m IH|]; simpl digits2_pos.
  - rewrite Pos2Z.inj_succ, Z.pow_succ_r by lia.
    replace (Z.succ (Z.pos (digits2_pos m)) - 1) with (Z.succ (Z.pos (digits2_pos m) - 1)) by lia.
    rewrite Z.pow_succ_r by lia. lia.
  - rewrite Pos2Z.inj_succ, Z.pow_succ_r by lia.
    replace (Z.succ (Z.pos (digits2_pos m)) - 1) with (Z.succ (Z.pos (digits2_pos m) - 1)) by lia.
    rewrite Z.pow_succ_r by lia. lia.
  - simpl. lia.
Qed.

Lemma shr_1_m mrs : 0 <= shr_m mrs → shr_m (shr_1 mrs) = shr_m mrs / 2.
Proof.
  destruct mrs as [m r s]. cbn [shr_m]. intros Hm.
  destruct m as [|[p|p|]|p]; cbn [shr_1 shr_m]; try done.
  - apply Z.div_unique with 1; lia.
  - apply Z.div_unique with 0; lia.
Qed.

Lemma iter_shr_1_m p mrs :
  0 <= shr_m mrs → shr_m (SpecFloat.iter_pos shr_1 p mrs) = shr_m mrs / 2 ^ Z.pos p.
Proof.
  revert mrs. induction p as [p IH|p IH|]; intros mrs Hm; cbn [SpecFloat.iter_pos].
  - assert (0 <= shr_m (shr_1 mrs)) as H1.
    { rewrite shr_1_m by done. apply Z.div_pos; lia. }
    assert (0 <= shr_m (SpecFloat.iter_pos shr_1 p (shr_1 mrs))) as H2.
    { rewrite IH by done. apply Z.div_pos; lia. }
    rewrite IH, IH, shr_1_m by done.
    rewrite !Z.div_div by lia. f_equal.
    rewrite (Pos2Z.inj_xI p). replace (2 * Z.pos p + 1) with (1 + Z.pos p + Z.pos p) by lia.
    rewrite !Z.pow_add_r, Z.pow_1_r by lia. lia.
  - assert (0 <= shr_m (SpecFloat.iter_pos shr_1 p mrs)) as H2.
    { rewrite IH by done. apply Z.div_pos; lia. }
    rewrite IH, IH by done.
    rewrite !Z.div_div by lia. f_equal.
    rewrite (Pos2Z.inj_xO p). replace (2 * Z.pos p) with (Z.pos p + Z.pos p) by lia.
    by rewrite Z.pow_add_r by lia.
  - rewrite shr_1_m by done. by rewrite Z.pow_1_r.
Qed.

Lemma shl_align_value mx ex ez :
  ez <= ex → Z.pos (shl_align mx ex ez).1 = Z.pos mx * 2 ^ (ex - ez).
Proof.
  intros Hle. unfold shl_align.
  destruct (ez - ex) as [|d|d] eqn:Hd; cbn [fst]; try lia.
  - replace (ex - ez) with 0 by lia. lia.
  - replace (ex - ez) with (Z.pos d) by lia.
    change (Pos.iter xO mx d) with (shift_pos d mx).
    rewrite shift_pos_correct. change (Z.pow_pos 2 d) with (2 ^ Z.pos d). lia.
Qed.

Lemma shr_record_of_loc_m m l : shr_m (shr_record_of_loc m l) = m.
Proof. by destruct l as [|[]]. Qed.

Lemma shr_fexp_pos m e l :
  0 < m → emin <= e →
  0 < shr_m (shr_fexp prec emax m e l).1 ∧ emin <= (shr_fexp prec emax m e l).2.
Proof.
  intros Hm He. destruct m as [|p|p]; try lia.
  unfold shr_fexp, shr. cbn [Zdigits2].
  pose proof (digits2_pos_bounds p) as [Hlow _].
  set (d := Z.pos (digits2_pos p)) in *.
  assert (fexp (d + e) = Z.max (d + e - 53) emin) as Hfexp by reflexivity.
  destruct (fexp (d + e) - e) as [|k|k] eqn:Hk; cbn [fst snd];
    rewrite ?shr_record_of_loc_m; try done.
  split; [|lia].
  rewrite iter_shr_1_m by (rewrite shr_record_of_loc_m; lia).
  rewrite shr_record_of_loc_m.
  apply Z.div_str_pos. split; [lia|].
  assert (Z.pos k <= d - 1) as Hkd by lia.
  etransitivity; [|exact Hlow]. apply Z.pow_le_mono_r; lia.
Qed.

Lemma round_nearest_even_ge m l : m <= round_nearest_even m l.
Proof. destruct l as [|[]]; simpl; try lia. destruct (Z.even m); lia. Qed.

Lemma binary_round_aux_sign sx mx ex lx :
  0 < mx → emin <= ex →
  match binary_round_aux prec emax sx mx ex lx with
  | S754_finite s _ _ | S754_infinity s => s = sx
  | _ => False
  end.
Proof.
  intros Hm He. unfold binary_round_aux.
  pose proof (shr_fexp_pos mx ex lx Hm He) as [Hm' He'].
  destruct (shr_fexp prec emax mx ex lx) as [mrs' e']. cbn [fst snd] in *.
  pose proof (round_nearest_even_ge (shr_m mrs') (loc_of_shr_record mrs')) as Hround.
  set (m2 := round_nearest_even _ _) in *.
  assert (0 < m2) as Hm2 by lia.
  pose proof (shr_fexp_pos m2 e' loc_Exact Hm2 He') as [Hm'' He''].
  destruct (shr_fexp prec emax m2 e' loc_Exact) as [mrs'' e'']. cbn [fst snd] in *.
  destruct (shr_m mrs'') as [|p|p]; try lia.
  by destruct (e'' <=? emax - prec).
Qed.

Lemma binary_round_sign sx mx ex :
  emin <= ex →
  match binary_round prec emax sx mx ex with
  | S754_finite s _ _ | S754_infinity s => s = sx
  | _ => False
  end.
Proof.
  intros He. unfold binary_round.
  destruct (shl_align mx ex _) as [mz ez] eqn:Halign.
  apply binary_round_aux_sign; [lia|].
  unfold shl_align in Halign.
  assert (emin <= fexp (Z.pos (digits2_pos mx) + ex)) as Hfexp by apply Z.le_max_r.
  destruct (fexp (Z.pos (digits2_pos mx) + ex) - ex); by simplify_eq.
Qed.

Lemma valid_binary_emin s m e :
  valid_binary (S754_finite s m e) = true → emin <= e.
Proof.
  unfold SpecFloat.valid_binary, bounded, canonical_mantissa.
  intros [Hcanon _]%andb_prop. apply Z.eqb_eq in Hcanon. rewrite <-Hcanon.
  apply Z.le_max_r.
Qed.

(** Among canonical mantissas, the smaller exponent holds the smaller number. *)
Lemma canonical_exponent_lt mx ex my ey :
  canonical_mantissa prec emax mx ex = true →
  canonical_mantissa prec emax my ey = true →
  ex < ey → Z.pos mx < Z.pos my * 2 ^ (ey - ex).
Proof.
  unfold canonical_mantissa. intros Hx%Z.eqb_eq Hy%Z.eqb_eq Hlt.
  pose proof (digits2_pos_bounds mx) as [_ Hxhigh].
  pose proof (digits2_pos_bounds my) as [Hylow _].
  set (dx := Z.pos (digits2_pos mx)) in *. set (dy := Z.pos (digits2_pos my)) in *.
  assert (fexp (dx + ex) = Z.max (dx + ex - 53) emin) as Hfx by reflexivity.
  assert (fexp (dy + ey) = Z.max (dy + ey - 53) emin) as Hfy by reflexivity.
  assert (dx <= 53) as Hdx by lia.
  assert (dy = 53) as Hdy by lia.
  assert (Z.pos mx < 2 ^ 53) as Hmx.
  { eapply Z.lt_le_trans; [exact Hxhigh|]. apply Z.pow_le_mono_r; lia. }
  assert (2 ^ 1 <= 2 ^ (ey - ex)) as Hpow by (apply Z.pow_le_mono_r; lia).
  rewrite Hdy in Hylow. change (2 ^ (53 - 1)) with (2 ^ 52) in Hylow.
  change (2 ^ 1) with 2 in Hpow. change (2 ^ 53) with (2 * 2 ^ 52) in Hmx.
  nia.
Qed.

Lemma valid_binary_canonical s m e :
  valid_binary (S754_finite s m e) = true → canonical_mantissa prec emax m e = true.
Proof. unfold SpecFloat.valid_binary, bounded. by intros [? _]%andb_prop. Qed.

(** The difference of the aligned mantissas has the sign of the comparison. *)
Lemma aligned_difference_negative sx mx ex sy my ey :
  valid_binary (S754_finite sx mx ex) = true →
  valid_binary (S754_finite sy my ey) = true →
  SFltb (S754_finite sx mx ex) (S754_finite sy my ey) = true →
  cond_Zopp sx (Z.pos (shl_align mx ex (Z.min ex ey)).1)
  - cond_Zopp sy (Z.pos (shl_align my ey (Z.min ex ey)).1) < 0.
Proof.
  intros Hx%valid_binary_canonical Hy%valid_binary_canonical.
  rewrite !shl_align_value by lia.
  unfold SFltb, SFcompare.
  change (Pos.compare_cont Eq mx my) with (Pos.compare mx my).
  assert (0 < 2 ^ (ex - Z.min ex ey)) as Hpx by (apply Z.pow_pos_nonneg; lia).
  assert (0 < 2 ^ (ey - Z.min ex ey)) as Hpy by (apply Z.pow_pos_nonneg; lia).
  destruct sx, sy; cbn [cond_Zopp]; try done; [| nia |].
  - destruct (Z.compare_spec ex ey) as [->|Hlt|Hgt]; try done.
    + rewrite Z.min_id, Z.sub_diag, Z.pow_0_r.
      destruct (Pos.compare_spec mx my); try done. lia.
    + intros _. rewrite Z.min_r, Z.sub_diag, Z.pow_0_r by lia.
      pose proof (canonical_exponent_lt my ey mx ex Hy Hx Hgt). lia.
  - destruct (Z.compare_spec ex ey) as [->|Hlt|Hgt]; try done.
    + rewrite Z.min_id, Z.sub_diag, Z.pow_0_r.
      destruct (Pos.compare_spec mx my); try done. lia.
    + intros _. rewrite Z.min_l, Z.sub_diag, Z.pow_0_r by lia.
      pose proof (canonical_exponent_lt mx ex my ey Hx Hy Hlt). lia.
Qed.

(** Subtracting a larger float from a smaller one gives a negative float:
    rounding never turns the difference into a zero. *)
Lemma SF64sub_negative x y :
  valid_binary x = true → valid_binary y = true →
  SFltb x y = true → strictly_negative (SF64sub x y) = true.
Proof.
  intros Hx Hy Hlt.
  destruct x as [sx|sx| |sx mx ex], y as [sy|sy| |sy my ey].
  16: {
    pose proof (aligned_difference_negative _ _ _ _ _ _ Hx Hy Hlt) as Hneg.
    apply valid_binary_emin in Hx, Hy.
    unfold SF64sub, SFsub.
    destruct (_ - _) as [|p|p]; try lia.
    cbn [binary_normalize].
    pose proof (binary_round_sign true p (Z.min ex ey)) as Hsign.
    destruct (binary_round prec emax true p (Z.min ex ey)) as [| | |s m e];
      try (exfalso; apply Hsign; lia); by rewrite Hsign by lia. }
  all: try destruct sx; try destruct sy; try (vm_compute in Hlt; discriminate Hlt).
  all: reflexivity.
Qed.

Lemma float_sub_negative x y :
  PrimFloat.ltb x y = true → strictly_negative (Prim2SF (x - y)) = true.
Proof.
  rewrite FloatAxioms.ltb_spec, FloatAxioms.sub_spec. apply SF64sub_negative; apply Prim2SF_valid.
Qed.
End FloatSubtraction.

(** ** Conversion of ints to floats

    An int below 2^53 in magnitude converts to a float of the same value, so
    the exact comparison of a float with such an int is the comparison of
    two floats. *)

Section IntToFloat.

Lemma digits2_pos_iter_xO p k :
  digits2_pos (Pos.iter xO p k) = (digits2_pos p + k)%positive.
Proof.
  induction k as [|k IH] using Pos.peano_ind.
  - simpl. lia.
  - rewrite Pos.iter_succ. cbn [digits2_pos]. rewrite IH. lia.
Qed.

Lemma shr_fexp_canonical m e :
  canonical_mantissa prec emax m e = true →
  shr_fexp prec emax (Z.pos m) e loc_Exact
  = ({| shr_m := Z.pos m; shr_r := false; shr_s := false |}, e).
Proof.
  unfold canonical_mantissa, shr_fexp. intros Hcanon%Z.eqb_eq.
  cbn [Zdigits2]. rewrite Hcanon, Z.sub_diag. reflexivity.
Qed.

Lemma binary_round_aux_canonical s m e :
  canonical_mantissa prec emax m e = true → e <= emax - prec →
  binary_round_aux prec emax s (Z.pos m) e loc_Exact = S754_finite s m e.
Proof.
  intros Hcanon Hmax. unfold binary_round_aux.
  rewrite (shr_fexp_canonical _ _ Hcanon). cbn [shr_m loc_of_shr_record round_nearest_even].
  rewrite (shr_fexp_canonical _ _ Hcanon). cbn [shr_m].
  apply Z.leb_le in Hmax. by rewrite Hmax.
Qed.

(** An int below 2^53 in magnitude is a float: its conversion is exact. *)
Lemma binary_round_small s p :
  Z.pos p < 2 ^ 53 →
  ∃ m e, binary_round prec emax s p 0 = S754_finite s m e
         ∧ canonical_mantissa prec emax m e = true
         ∧ e <= 0 ∧ emin <= e
         ∧ Z.pos m = Z.pos p * 2 ^ (- e).
Proof.
  intros Hsmall.
  pose proof (digits2_pos_bounds p) as [Hlow Hhigh].
  set (d := Z.pos (digits2_pos p)) in *.
  assert (d <= 53) as Hd.
  { destruct (Z.le_gt_cases d 53) as [|Hgt]; [done|].
    assert (2 ^ 53 <= 2 ^ (d - 1)) by (apply Z.pow_le_mono_r; lia). lia. }
  assert (fexp (d + 0) = d - 53) as Hfexp.
  { unfold SpecFloat.fexp, SpecFloat.emin. change prec with 53. change emax with 1024. lia. }
  unfold binary_round. fold d. rewrite Hfexp.
  destruct (shl_align p 0 (d - 53)) as [mz ez] eqn:Halign.
  assert (ez = d - 53 ∧ Z.pos (digits2_pos mz) = 53 ∧ Z.pos mz = Z.pos p * 2 ^ (- ez))
    as (-> & Hdigits & Hvalue).
  { unfold shl_align in Halign. destruct (d - 53 - 0) as [|k|k] eqn:Hk; try lia.
    - injection Halign as <- <-. assert (d = 53) as Hd53 by lia.
      split_and!; [lia|done|]. change (2 ^ (- 0)) with 1. lia.
    - injection Halign as <- <-. split_and!; [done| |].
      + rewrite digits2_pos_iter_xO. fold d. lia.
      + change (Pos.iter xO p k) with (shift_pos k p).
        rewrite shift_pos_correct. change (Z.pow_pos 2 k) with (2 ^ Z.pos k).
        replace (- (d - 53)) with (Z.pos k) by lia. lia. }
  assert (canonical_mantissa prec emax mz (d - 53) = true) as Hcanon.
  { unfold canonical_mantissa. apply Z.eqb_eq. rewrite Hdigits.
    unfold SpecFloat.fexp, SpecFloat.emin. change prec with 53. change emax with 1024. lia. }
  exists mz, (d - 53). split_and!; try done; try lia.
  - apply binary_round_aux_canonical; [done|]. change prec with 53. change emax with 1024. lia.
  - unfold SpecFloat.emin. change prec with 53. change emax with 1024. lia.
Qed.


(** The order of two canonical floats is that of their aligned mantissas. *)
Lemma SFcompare_finite s1 m1 e1 s2 m2 e2 :
  canonical_mantissa prec emax m1 e1 = true →
  canonical_mantissa prec emax m2 e2 = true →
  SFcompare (S754_finite s1 m1 e1) (S754_finite s2 m2 e2)
  = Some (cond_Zopp s1 (Z.pos m1) * 2 ^ (e1 - Z.min e1 e2)
          ?= cond_Zopp s2 (Z.pos m2) * 2 ^ (e2 - Z.min e1 e2)).
Proof.
  intros H1 H2. cbn [SFcompare]. f_equal.
  change (Pos.compare_cont Eq m1 m2) with (Z.pos m1 ?= Z.pos m2).
  assert (0 < 2 ^ (e1 - Z.min e1 e2)) as Hp1 by (apply Z.pow_pos_nonneg; lia).
  assert (0 < 2 ^ (e2 - Z.min e1 e2)) as Hp2 by (apply Z.pow_pos_nonneg; lia).
  destruct s1, s2; cbn [cond_Zopp].
  - destruct (Z.compare_spec e1 e2) as [->|Hlt|Hgt].
    + rewrite Z.min_id, Z.sub_diag, Z.pow_0_r, !Z.mul_1_r.
      rewrite Z.compare_opp. symmetry. apply Z.compare_antisym.
    + symmetry. apply Z.compare_gt_iff.
      rewrite Z.min_l, Z.sub_diag, Z.pow_0_r by lia.
      pose proof (canonical_exponent_lt m1 e1 m2 e2 H1 H2 Hlt). lia.
    + symmetry. apply Z.compare_lt_iff.
      rewrite Z.min_r, Z.sub_diag, Z.pow_0_r by lia.
      pose proof (canonical_exponent_lt m2 e2 m1 e1 H2 H1 Hgt). lia.
  - symmetry. apply Z.compare_lt_iff. nia.
  - symmetry. apply Z.compare_gt_iff. nia.
  - destruct (Z.compare_spec e1 e2) as [->|Hlt|Hgt].
    + by rewrite Z.min_id, Z.sub_diag, Z.pow_0_r, !Z.mul_1_r.
    + symmetry. apply Z.compare_lt_iff.
      rewrite Z.min_l, Z.sub_diag, Z.pow_0_r by lia.
      pose proof (canonical_exponent_lt m1 e1 m2 e2 H1 H2 Hlt). lia.
    + symmetry. apply Z.compare_gt_iff.
      rewrite Z.min_r, Z.sub_diag, Z.pow_0_r by lia.
      pose proof (canonical_exponent_lt m2 e2 m1 e1 H2 H1 Hgt). lia.
Qed.

Lemma Zmul_compare_r n m p : 0 < p → (n * p ?= m * p) = (n ?= m).
Proof.
  intros Hp. destruct (Z.compare_spec n m) as [->|Hlt|Hgt].
  - apply Z.compare_refl.
  - apply Z.compare_lt_iff. nia.
  - apply Z.compare_gt_iff. nia.
Qed.

(** Comparing a canonical float with an int that converts exactly is
    comparing it with the converted int. *)
Lemma compare_finite_exact sg mg eg s p m e :
  canonical_mantissa prec emax mg eg = true →
  canonical_mantissa prec emax m e = true →
  e <= 0 → Z.pos m = Z.pos p * 2 ^ (- e) →
  (if 0 <=? eg
   then cond_Zopp sg (Z.pos mg) * 2 ^ eg ?= cond_Zopp s (Z.pos p)
   else cond_Zopp sg (Z.pos mg) ?= cond_Zopp s (Z.pos p) * 2 ^ (- eg))
  = (cond_Zopp sg (Z.pos mg) * 2 ^ (eg - Z.min eg e)
     ?= cond_Zopp s (Z.pos m) * 2 ^ (e - Z.min eg e)).
Proof.
  intros Hg Hm He Hvalue.
  set (v := cond_Zopp sg (Z.pos mg)). set (z := cond_Zopp s (Z.pos p)).
  assert (cond_Zopp s (Z.pos m) = z * 2 ^ (- e)) as ->.
  { unfold z. destruct s; cbn [cond_Zopp]; lia. }
  destruct (0 <=? eg) eqn:Heg.
  - apply Z.leb_le in Heg. rewrite Z.min_r by lia.
    rewrite Z.sub_diag, Z.pow_0_r, Z.mul_1_r.
    replace (eg - e) with (eg + - e) by lia. rewrite Z.pow_add_r by lia.
    rewrite Z.mul_assoc. symmetry. apply Zmul_compare_r.
    apply Z.pow_pos_nonneg; lia.
  - apply Z.leb_gt in Heg. set (em := Z.min eg e).
    assert (z * 2 ^ (- e) * 2 ^ (e - em) = z * 2 ^ (- eg) * 2 ^ (eg - em)) as ->.
    { rewrite <-!Z.mul_assoc, <-!Z.pow_add_r by lia. do 2 f_equal. lia. }
    symmetry. apply Zmul_compare_r. apply Z.pow_pos_nonneg; lia.
Qed.

Lemma compare_float_int_small f z :
  Z.abs z < 2 ^ 53 →
  valid_binary (binary_normalize prec emax z 0 false) = true
  ∧ int_to_float z = Ok (SF2Prim (binary_normalize prec emax z 0 false))
  ∧ compare_float_int f z
    = SFcompare (Prim2SF f) (binary_normalize prec emax z 0 false).
Proof.
  intros Hsmall. unfold compare_float_int, int_to_float.
  pose proof (Prim2SF_valid f) as Hvalid.
  destruct z as [|p|p]; cbn [binary_normalize].
  - split_and!; [done..|].
    destruct (Prim2SF f) as [s|s| |s m e]; try done.
    destruct s; cbn [cond_Zopp SFcompare]; destruct (0 <=? e) eqn:He; try done.
    + f_equal. apply Z.compare_lt_iff. apply Z.leb_le in He.
      assert (0 < 2 ^ e) by (by apply Z.pow_pos_nonneg). lia.
    + f_equal. apply Z.compare_gt_iff. apply Z.leb_le in He.
      assert (0 < 2 ^ e) by (by apply Z.pow_pos_nonneg). lia.
  - destruct (binary_round_small false p) as (m & e & -> & Hcanon & He & Hemin & Hvalue); [lia|].
    split_and!; [|done|].
    { unfold SpecFloat.valid_binary, bounded. rewrite Hcanon. apply Z.leb_le.
      change prec with 53. change emax with 1024. lia. }
    destruct (Prim2SF f) as [sg|sg| |sg mg eg]; try done.
    apply valid_binary_canonical in Hvalid.
    rewrite (SFcompare_finite _ _ _ _ _ _ Hvalid Hcanon). f_equal.
    by apply (compare_finite_exact sg mg eg false p m e).
  - destruct (binary_round_small true p) as (m & e & -> & Hcanon & He & Hemin & Hvalue); [lia|].
    split_and!; [|done|].
    { unfold SpecFloat.valid_binary, bounded. rewrite Hcanon. apply Z.leb_le.
      change prec with 53. change emax with 1024. lia. }
    destruct (Prim2SF f) as [sg|sg| |sg mg eg]; try done.
    apply valid_binary_canonical in Hvalid.
    rewrite (SFcompare_finite _ _ _ _ _ _ Hvalid Hcanon). f_equal.
    by apply (compare_finite_exact sg mg eg true p m e).
Qed.

Lemma SFcompare_Gt_Lt x y : SFcompare x y = Some Gt → SFcompare y x = Some Lt.
Proof.
  destruct x as [sx|sx| |sx mx ex], y as [sy|sy| |sy my ey]; simpl;
    try destruct sx; try destruct sy; try done.
  all: change (Pos.compare_cont Eq ?p ?q) with (Pos.compare p q).
  all: rewrite (Z.compare_antisym ex ey), (Pos.compare_antisym mx my).
  all: by destruct (ex ?= ey), (mx ?= my)%positive.
Qed.

(** Between an int below 2^53 in magnitude and a float, the difference of
    the smaller and the larger is negative. *)
Lemma mixed_sub_negative_int_float a y fa :
  Z.abs a < 2 ^ 53 → int_to_float a = Ok fa →
  py_lt (PInt a) (PFloat y) = true →
  strictly_negative (Prim2SF (fa - y)) = true.
Proof.
  intros Hsmall Hfa Hlt.
  destruct (compare_float_int_small y a Hsmall) as (Hvalid & Hconv & Hcmp).
  rewrite Hconv in Hfa. injection Hfa as <-.
  apply float_sub_negative. rewrite FloatAxioms.ltb_spec.
  rewrite (Prim2SF_SF2Prim _ Hvalid).
  simpl in Hlt. rewrite Hcmp in Hlt. unfold SFltb.
  destruct (SFcompare (Prim2SF y) _) as [[]|] eqn:Hc; try done.
  by rewrite (SFcompare_Gt_Lt _ _ Hc).
Qed.

Lemma mixed_sub_negative_float_int x b fb :
  Z.abs b < 2 ^ 53 → int_to_float b = Ok fb →
  py_lt (PFloat x) (PInt b) = true →
  strictly_negative (Prim2SF (x - fb)) = true.
Proof.
  intros Hsmall Hfb Hlt.
  destruct (compare_float_int_small x b Hsmall) as (Hvalid & Hconv & Hcmp).
  rewrite Hconv in Hfb. injection Hfb as <-.
  apply float_sub_negative. rewrite FloatAxioms.ltb_spec.
  rewrite (Prim2SF_SF2Prim _ Hvalid).
  simpl in Hlt. rewrite Hcmp in Hlt. unfold SFltb.
  by destruct (SFcompare (Prim2SF x) _) as [[]|].
Qed.

End IntToFloat.

(** A negative float is below the int [0]. *)
Lemma strictly_negative_lt_zero f :
  strictly_negative (Prim2SF f) = true → py_lt (PFloat f) (PInt 0) = true.
Proof.
  simpl. unfold compare_float_int.
  destruct (Prim2SF f) as [s|s| |s m e]; try done; destruct s; try done.
  intros _. cbn [cond_Zopp].
  destruct (0 <=? e) eqn:He; [|done].
  apply Z.leb_le in He.
  assert (0 < 2 ^ e) by (by apply Z.pow_pos_nonneg).
  assert (- Z.pos m * 2 ^ e < 0) as Hlt by lia.
  apply Z.compare_lt_iff in Hlt. by rewrite Hlt.
Qed.

(** ** The effect monad *)

Section Effects.

Lemma bind_lift_Ok {A B} (a : A) (k : A → io B) : lift (Ok a) ≫= k = k a.
Proof. unfold lift, mbind, io_bind. by destruct (k a). Qed.

Lemma bind_lift_Raise {A B} e (k : A → io B) : lift (Raise e) ≫= k = ([], Raise e).
Proof. reflexivity. Qed.

Lemma bind_emit {B} ev (k : unit → io B) :
  emit ev ≫= k = ((ev :: (k ()).1), (k ()).2).
Proof. unfold emit, mbind, io_bind. by destruct (k ()). Qed.

Lemma bind_lift_events {A B} (r : result A) (k : A → io B) :
  (∀ a, (k a).1 = []) → (lift r ≫= k).1 = [].
Proof.
  intros Hk. destruct r as [a|e]; [|done]. rewrite bind_lift_Ok. apply Hk.
Qed.

End Effects.

(** ** Valuation *)

Section Valuation.

Implicit Types (prices : price_map) (assets : list Asset) (portfolio : Portfolio).

Lemma valuation_loop_cons prices asset rest total_value :
  valuation_loop prices (asset :: rest) total_value
  = (product ← lift (contribution prices asset);
     total_value ← lift (py_add total_value product);
     valuation_loop prices rest total_value).
Proof. reflexivity. Qed.

Lemma valuation_loop_events prices assets total_value :
  (valuation_loop prices assets total_value).1 = [].
Proof.
  revert total_value. induction assets as [|asset rest IH]; intros total_value; [done|].
  rewrite valuation_loop_cons. apply bind_lift_events. intros product.
  apply bind_lift_events. intros total'. apply IH.
Qed.

Lemma contribution_raise prices asset e :
  contribution prices asset = Raise e → e = OverflowError.
Proof. apply py_binop_raise. Qed.

Lemma mapM_cons {A B} (f : A → result B) x l :
  mapM f (x :: l) = (y ← f x; k ← mapM f l; Ok (y :: k)).
Proof. reflexivity. Qed.

Lemma mapM_contribution_raise prices assets e :
  mapM (contribution prices) assets = Raise e → e = OverflowError.
Proof.
  induction assets as [|asset rest IH]; [discriminate|].
  rewrite mapM_cons.
  destruct (contribution prices asset) eqn:E; simpl.
  - destruct (mapM (contribution prices) rest); simpl; [discriminate|].
    intros [= <-]. by apply IH.
  - intros [= <-]. by eapply contribution_raise.
Qed.

Lemma sum_from_raise start values e : sum_from start values = Raise e → e = OverflowError.
Proof.
  revert start. induction values as [|v rest IH]; intros start; simpl; [discriminate|].
  destruct (py_add start v) eqn:E; simpl; [apply IH|].
  intros [= <-]. by eapply py_binop_raise.
Qed.

(** The loop computes the contributions and adds them up in list order. *)
Lemma valuation_loop_sum prices assets total_value :
  (valuation_loop prices assets total_value).2
  = (terms ← mapM (contribution prices) assets; sum_from total_value terms).
Proof.
  revert total_value. induction assets as [|asset rest IH]; intros total_value; [done|].
  rewrite valuation_loop_cons, mapM_cons.
  destruct (contribution prices asset) as [product|e] eqn:Eterm; [|done].
  rewrite bind_lift_Ok.
  destruct (py_add total_value product) as [total'|e] eqn:Eadd.
  - rewrite bind_lift_Ok, IH.
    destruct (mapM (contribution prices) rest); simpl; [|done]. by rewrite Eadd.
  - rewrite bind_lift_Raise. simpl.
    apply py_binop_raise in Eadd as Ee. subst e.
    destruct (mapM (contribution prices) rest) eqn:Erest; simpl.
    + by rewrite Eadd.
    + by apply mapM_contribution_raise in Erest as ->.
Qed.

Lemma valuation_loop_int prices assets t :
  Forall (λ asset, is_int asset.(quantity) = true
                   ∧ is_int (dict_get prices asset.(symbol) (PInt 0)) = true) assets →
  valuation_loop prices assets (PInt t) = ([], Ok (PInt (t + exact_value prices assets))).
Proof.
  intros Hint. revert t. induction Hint as [|asset rest [Hq Hp] _ IH]; intros t.
  { simpl. by rewrite Z.add_0_r. }
  rewrite valuation_loop_cons. unfold contribution. simpl exact_value.
  destruct (quantity asset) as [q|?]; [|done].
  destruct (dict_get prices (symbol asset) (PInt 0)) as [p|?]; [|done].
  unfold py_mul, py_add. rewrite py_binop_int, bind_lift_Ok, py_binop_int, bind_lift_Ok.
  rewrite IH. simpl. do 3 f_equal. lia.
Qed.

Lemma exact_value_permutation prices assets assets' :
  assets ≡ₚ assets' → exact_value prices assets = exact_value prices assets'.
Proof.
  induction 1 as [|a l l' _ IH|a b l|l l' l'' _ IH1 _ IH2]; simpl;
    [done|by rewrite IH|lia|congruence].
Qed.

End Valuation.

(** ** Claims about the valuation *)

Section ValuationClaims.

Implicit Types (prices : price_map) (portfolio : Portfolio).




(** The unpriced asset adds nothing: the value is that of the priced one. *)
Example unpriced_portfolio_value :
  calculate_portfolio_value unpriced_portfolio recorded_prices = ([], Ok (PInt 84417)).
Proof. vm_compute. reflexivity. Qed.

(** Scenario A of the specification: balances BTC 1.0 and USDT 300 at prices
    84417 and 1.0 are worth 84717.0. *)
Example scenario_A :
  calculate_portfolio_value
    {| currency := "USDT";
       assets := [ {| symbol := "BTC"; quantity := PFloat 1.0 |};
                   {| symbol := "USDT"; quantity := PInt 300 |} ] |}
    (list_to_map [("BTC", PInt 84417); ("USDT", PFloat 1.0)])
  = ([], Ok (PFloat 84717.0)).
Proof. vm_compute. reflexivity. Qed.

(** An int quantity too large for a float meets a float price. *)
Example valuation_overflow :
  (calculate_portfolio_value
     {| currency := "USDT"; assets := [ {| symbol := "ETH"; quantity := PInt (10 ^ 400) |} ] |}
     recorded_prices).2
  = Raise OverflowError.
Proof. vm_compute. reflexivity. Qed.

(** C2, as stated, fails: a portfolio holding an asset whose symbol is absent
    from the price map is valued without any line being printed or logged. *)
Lemma valuation_warning_counterexample :
  ¬ (∀ portfolio prices,
       (∃ asset, asset ∈ portfolio.(assets) ∧ prices !! asset.(symbol) = None) →
       ∃ line, Print line ∈ (calculate_portfolio_value portfolio prices).1).
Proof.
  intros Hwarn.
  destruct (Hwarn unpriced_portfolio recorded_prices) as [line Hline].
  - exists {| symbol := "NEAR"; quantity := PInt 5 |}. split; [|by vm_compute].
    apply list_elem_of_here.
  - rewrite unpriced_portfolio_value in Hline. by apply elem_of_nil in Hline.
Qed.

(** C2, amended: for every portfolio holding an entry whose symbol is absent
    from the price map, the valuation emits nothing at all, no warning
    included; the entry silently counts with the price 0. *)
Theorem valuation_is_silent portfolio prices asset :
  asset ∈ portfolio.(assets) →
  prices !! asset.(symbol) = None →
  (calculate_portfolio_value portfolio prices).1 = []
  ∧ contribution prices asset = py_mul asset.(quantity) (PInt 0).
Proof.
  intros _ Hnone. split.
  - apply valuation_loop_events.
  - unfold contribution, dict_get. by rewrite Hnone.
Qed.

Lemma valuation_is_silent_witness :
  (calculate_portfolio_value unpriced_portfolio recorded_prices).1 = []
  ∧ contribution recorded_prices {| symbol := "NEAR"; quantity := PInt 5 |}
    = py_mul (PInt 5) (PInt 0).
Proof.
  apply (valuation_is_silent unpriced_portfolio recorded_prices
           {| symbol := "NEAR"; quantity := PInt 5 |}).
  - apply list_elem_of_here.
  - vm_compute. reflexivity.
Defined.

(** The notebook's first portfolio and its reordering, at the recorded prices. *)
Example portfolio1_value :
  calculate_portfolio_value portfolio1 recorded_prices
  = ([], Ok (PFloat 95976.369965389007)).
Proof. vm_compute. reflexivity. Qed.

Example portfolio1_reordered_value :
  calculate_portfolio_value portfolio1_reordered recorded_prices
  = ([], Ok (PFloat 95976.369965389022)).
Proof. vm_compute. reflexivity. Qed.

(** C3, as stated, fails: float addition is not associative, and the entries
    of the notebook's own first portfolio, taken in another order at the
    recorded prices, add up to another float. *)
Lemma reordering_counterexample :
  portfolio1.(assets) ≡ₚ portfolio1_reordered.(assets)
  ∧ calculate_portfolio_value portfolio1 recorded_prices
    ≠ calculate_portfolio_value portfolio1_reordered recorded_prices.
Proof.
  split.
  - simpl.
    apply (Permutation_cons_app [_; _; _] [_; _; _; _]). simpl.
    apply Permutation_skip.
    apply (Permutation_cons_app [_; _] [_; _; _]). simpl.
    reflexivity.
  - rewrite portfolio1_value, portfolio1_reordered_value.
    discriminate.
Qed.

(** C3, amended: when the quantities and the prices looked up are ints, whose
    arithmetic is exact, the value is the same for every permutation of the
    entries. *)
Theorem calculate_portfolio_value_permutation portfolio portfolio' prices :
  Forall (λ asset, is_int asset.(quantity) = true
                   ∧ is_int (dict_get prices asset.(symbol) (PInt 0)) = true)
    portfolio.(assets) →
  portfolio.(assets) ≡ₚ portfolio'.(assets) →
  calculate_portfolio_value portfolio prices = calculate_portfolio_value portfolio' prices
  ∧ calculate_portfolio_value portfolio prices
    = ([], Ok (PInt (exact_value prices portfolio.(assets)))).
Proof.
  intros Hint Hperm. unfold calculate_portfolio_value.
  rewrite !valuation_loop_int; [|by rewrite <-Hperm|done].
  by rewrite (exact_value_permutation _ _ _ Hperm).
Qed.

Lemma calculate_portfolio_value_permutation_witness :
  calculate_portfolio_value whole_portfolio whole_prices
  = calculate_portfolio_value whole_portfolio_reordered whole_prices
  ∧ calculate_portfolio_value whole_portfolio whole_prices
    = ([], Ok (PInt (exact_value whole_prices whole_portfolio.(assets)))).
Proof.
  apply (calculate_portfolio_value_permutation whole_portfolio whole_portfolio_reordered).
  - repeat apply Forall_cons_2; try apply Forall_nil_2; by vm_compute.
  - simpl. apply (Permutation_cons_app [_] [_]). simpl.
    apply (Permutation_cons_app [_] []). reflexivity.
Defined.

End ValuationClaims.

(** ** The price fetch *)

Section FetchLemmas.

Implicit Types (data : quotes) (prices acc : price_map) (symbols : list string).

(** A key of a dict literal without repeated keys is found with its value. *)
Lemma getitem_elem_of {V} (d : list (string * V)) k v :
  NoDup d.*1 → (k, v) ∈ d → getitem d k = Ok v.
Proof.
  induction d as [|[k' v'] d IH]; simpl; intros Hnodup Hin.
  { by apply elem_of_nil in Hin. }
  apply NoDup_cons in Hnodup as [Hk' Hnodup].
  apply elem_of_cons in Hin as [[= -> ->]|Hin].
  - by case_decide.
  - case_decide as Hk; [|by apply IH].
    destruct Hk'. subst k'. apply list_elem_of_fmap. by exists (k, v).
Qed.

Lemma getitem_Ok {V} (d : list (string * V)) k v : getitem d k = Ok v → (k, v) ∈ d.
Proof.
  induction d as [|[k' v'] d IH]; simpl; [discriminate|].
  destruct (decide (k' = k)) as [->|].
  - intros [= ->]. apply list_elem_of_here.
  - intros. apply list_elem_of_further. by apply IH.
Qed.

Lemma getitem_Raise {V} (d : list (string * V)) k e : getitem d k = Raise e → k ∉ d.*1.
Proof.
  induction d as [|[k' v'] d IH]; simpl.
  { intros _. apply not_elem_of_nil. }
  destruct (decide (k' = k)) as [->|]; [discriminate|].
  intros Hd. apply not_elem_of_cons. split; [done|by apply IH].
Qed.

Lemma COINGECKO_IDS_NoDup : NoDup COINGECKO_IDS.*1.
Proof. apply (bool_decide_unpack _). by vm_compute. Qed.

(** Every symbol the comprehension iterates over has an id, so the subscript
    [COINGECKO_IDS[symbol]] never raises. *)
Lemma price_of_symbol data symbol :
  symbol ∈ COINGECKO_IDS.*1 →
  ∃ id, (symbol, id) ∈ COINGECKO_IDS
        ∧ price_of data symbol = Ok (dict_get (dict_get data id ∅) "usd" (PInt 0)).
Proof.
  intros Hin. unfold price_of.
  destruct (getitem COINGECKO_IDS symbol) as [id|e] eqn:E.
  - exists id. split; [by apply getitem_Ok|done].
  - by apply getitem_Raise in E.
Qed.

Lemma price_of_id data symbol id :
  (symbol, id) ∈ COINGECKO_IDS →
  price_of data symbol = Ok (dict_get (dict_get data id ∅) "usd" (PInt 0)).
Proof.
  intros Hin. unfold price_of.
  by rewrite (getitem_elem_of _ _ _ COINGECKO_IDS_NoDup Hin).
Qed.

(** The comprehension returns a dict that maps each symbol iterated over to
    its quote and leaves the other keys as they were. *)
Lemma prices_comprehension_spec data symbols acc :
  symbols ⊆ COINGECKO_IDS.*1 →
  ∃ prices, prices_comprehension data symbols acc = Ok prices
    ∧ ∀ symbol,
        (symbol ∈ symbols → Ok <$> prices !! symbol = Some (price_of data symbol))
        ∧ (symbol ∉ symbols → prices !! symbol = acc !! symbol).
Proof.
  revert acc. induction symbols as [|s rest IH]; intros acc Hsub; simpl.
  { exists acc. split; [done|]. intros symbol. split; [|done].
    intros Hin. by apply elem_of_nil in Hin. }
  destruct (price_of_symbol data s) as (id & Hid & Hprice).
  { apply Hsub. apply list_elem_of_here. }
  rewrite Hprice. simpl.
  destruct (IH (<[s := dict_get (dict_get data id ∅) "usd" (PInt 0)]> acc))
    as (prices & -> & Hprices).
  { intros x Hx. apply Hsub. by apply list_elem_of_further. }
  exists prices. split; [done|]. intros symbol.
  destruct (Hprices symbol) as [Hin Hout]. split.
  - intros [->|Hrest]%elem_of_cons; [|by apply Hin].
    destruct (decide (s ∈ rest)) as [Hs|Hs]; [by apply Hin|].
    rewrite (Hout Hs), lookup_insert_eq. simpl. by rewrite Hprice.
  - intros [Hne Hrest]%not_elem_of_cons.
    by rewrite (Hout Hrest), lookup_insert_ne.
Qed.

Lemma fetch_crypto_prices_Ok requests_get data :
  requests_get url params = Ok data →
  ∃ prices,
    fetch_crypto_prices requests_get
    = ([HttpGet url params; Print [PStr "Fetched Prices:"; PDict prices]], Ok prices)
    ∧ (∀ symbol id, (symbol, id) ∈ COINGECKO_IDS →
         prices !! symbol = Some (dict_get (dict_get data id ∅) "usd" (PInt 0)))
    ∧ (∀ symbol, symbol ∉ COINGECKO_IDS.*1 → prices !! symbol = None).
Proof.
  intros Hget.
  destruct (prices_comprehension_spec data COINGECKO_IDS.*1 ∅) as (prices & Hcomp & Hprices);
    [done|].
  exists prices. split_and!.
  - unfold fetch_crypto_prices. rewrite Hget.
    rewrite bind_emit, bind_lift_Ok, Hcomp, bind_lift_Ok. reflexivity.
  - intros symbol id Hin. destruct (Hprices symbol) as [Hsome _].
    rewrite (price_of_id data _ _ Hin) in Hsome.
    assert (symbol ∈ COINGECKO_IDS.*1) as Hsymbol.
    { apply list_elem_of_fmap. by exists (symbol, id). }
    specialize (Hsome Hsymbol).
    destruct (prices !! symbol); [|discriminate]. by injection Hsome as ->.
  - intros symbol Hout. destruct (Hprices symbol) as [_ Hnone].
    by rewrite (Hnone Hout).
Qed.

Lemma fetch_crypto_prices_Raise requests_get e :
  requests_get url params = Raise e →
  fetch_crypto_prices requests_get = ([HttpGet url params], Raise e).
Proof.
  intros Hget. unfold fetch_crypto_prices. by rewrite Hget, bind_emit, bind_lift_Raise.
Qed.

End FetchLemmas.

(** ** Claims about the price fetch *)

Section FetchClaims.

Variable requests_get : string → list (string * string) → result quotes.

(** C4: the fetch first queries the provider with the ids that
    [COINGECKO_IDS] gives for the program's symbols; when the provider
    answers, the price map returned is keyed by the program's symbols again,
    each mapped to the USD quote found under its id, and to 0 when the answer
    has no entry for the id (or no USD quote in it); when the query fails, the
    failure is the outcome of the fetch. *)
Theorem fetch_crypto_prices_translates :
  params = [ ("ids", "bitcoin,ethereum,dogecoin,solana,cardano,okb,tether,singularitynet");
             ("vs_currencies", "usd") ]
  ∧ match requests_get url params with
    | Ok data =>
        ∃ prices,
          fetch_crypto_prices requests_get
          = ([HttpGet url params; Print [PStr "Fetched Prices:"; PDict prices]], Ok prices)
          ∧ ∀ symbol id, (symbol, id) ∈ COINGECKO_IDS →
              prices !! symbol
              = Some match data !! id with
                     | Some quote => match quote !! "usd" with
                                     | Some price => price
                                     | None => PInt 0
                                     end
                     | None => PInt 0
                     end
    | Raise e => fetch_crypto_prices requests_get = ([HttpGet url params], Raise e)
    end.
Proof.
  split; [reflexivity|].
  destruct (requests_get url params) as [data|e] eqn:Hget.
  - destruct (fetch_crypto_prices_Ok _ _ Hget) as (prices & Hfetch & Hprices & _).
    exists prices. split; [done|]. intros symbol id Hin.
    rewrite (Hprices _ _ Hin). unfold dict_get.
    destruct (data !! id) as [quote|]; [done|]. by rewrite lookup_empty.
  - by apply fetch_crypto_prices_Raise.
Qed.

(** C10: a price map returned by the fetch has exactly the eight symbols of
    [COINGECKO_IDS] as its keys, and each price in it is either 0 or the USD
    quote the provider gave under the id of the symbol. *)
Theorem fetch_crypto_prices_keys (prices : price_map) :
  (fetch_crypto_prices requests_get).2 = Ok prices →
  dom prices
  = list_to_set ["BTC"; "ETH"; "DOGE"; "SOL"; "ADA"; "OKB"; "USDT"; "AGIX"]
  ∧ ∀ symbol price, prices !! symbol = Some price →
      price = PInt 0
      ∨ ∃ data id quote,
          requests_get url params = Ok data
          ∧ (symbol, id) ∈ COINGECKO_IDS
          ∧ data !! id = Some quote
          ∧ quote !! "usd" = Some price.
Proof.
  destruct (requests_get url params) as [data|e] eqn:Hget.
  2: { by rewrite (fetch_crypto_prices_Raise _ _ Hget). }
  destruct (fetch_crypto_prices_Ok _ _ Hget) as (prices' & -> & Hin & Hout).
  intros [= ->]. split.
  - apply set_eq. intros symbol. rewrite elem_of_dom.
    change (list_to_set _) with (list_to_set (C := gset string) COINGECKO_IDS.*1).
    rewrite elem_of_list_to_set. split.
    + intros [price Hprice]. destruct (decide (symbol ∈ COINGECKO_IDS.*1)); [done|].
      rewrite Hout in Hprice; done.
    + intros ((symbol' & id) & -> & Hpair)%list_elem_of_fmap. simpl.
      rewrite (Hin _ _ Hpair). eauto.
  - intros symbol price Hprice.
    destruct (decide (symbol ∈ COINGECKO_IDS.*1)) as [Hsymbol|Hsymbol].
    2: { rewrite Hout in Hprice; done. }
    apply list_elem_of_fmap in Hsymbol as ((symbol' & id) & -> & Hpair).
    simpl in Hprice. rewrite (Hin _ _ Hpair) in Hprice. injection Hprice as <-.
    unfold dict_get. destruct (data !! id) as [quote|] eqn:Hquote.
    + destruct (quote !! "usd") as [p|] eqn:Husd; [|by left].
      right. by exists data, id, quote.
    + rewrite lookup_empty. by left.
Qed.

End FetchClaims.

(** The provider's recorded answer yields the recorded prices. *)
Example fetch_recorded_prices :
  (fetch_crypto_prices (λ _ _, Ok recorded_quotes)).2 = Ok recorded_prices.
Proof. vm_compute. reflexivity. Qed.

(** A provider that answers without an entry for the ids: every symbol is
    priced 0. *)
Example fetch_empty_answer :
  (fetch_crypto_prices (λ _ _, Ok ∅)).2
  = Ok (list_to_map ((λ symbol, (symbol, PInt 0)) <$> COINGECKO_IDS.*1)).
Proof. vm_compute. reflexivity. Qed.

Lemma fetch_crypto_prices_keys_witness :
  dom recorded_prices
  = list_to_set ["BTC"; "ETH"; "DOGE"; "SOL"; "ADA"; "OKB"; "USDT"; "AGIX"]
  ∧ ∀ symbol price, recorded_prices !! symbol = Some price →
      price = PInt 0
      ∨ ∃ data id quote,
          (λ _ _, Ok recorded_quotes) url params = Ok data
          ∧ (symbol, id) ∈ COINGECKO_IDS
          ∧ data !! id = Some quote
          ∧ quote !! "usd" = Some price.
Proof.
  apply (fetch_crypto_prices_keys (λ _ _, Ok recorded_quotes) recorded_prices).
  vm_compute. reflexivity.
Defined.

(** ** The comparison of the two portfolios *)

Section Comparison.

Lemma SFltb_asym x y : SFltb x y = true → SFltb y x = false.
Proof.
  unfold SFltb.
  destruct x as [sx|sx| |sx mx ex], y as [sy|sy| |sy my ey]; simpl;
    try destruct sx; try destruct sy; try done.
  all: change (Pos.compare_cont Eq ?p ?q) with (Pos.compare p q).
  all: rewrite (Z.compare_antisym ex ey), (Pos.compare_antisym mx my).
  all: by destruct (ex ?= ey), (mx ?= my)%positive.
Qed.

(** [a < b] and [b < a] never hold together, whatever the mix of int and float. *)
Lemma py_lt_asym a b : py_lt a b = true → py_lt b a = false.
Proof.
  destruct a as [x|x], b as [y|y]; simpl.
  - intros ?%Z.ltb_lt. apply Z.ltb_ge. lia.
  - by destruct (compare_float_int y x) as [[]|].
  - by destruct (compare_float_int x y) as [[]|].
  - rewrite !ltb_spec. apply SFltb_asym.
Qed.

(** The notebook's two values, swapped: the portfolio worth more is reported
    as the worse one, with a doubled minus sign. *)
Example swapped_values_output :
  compare_portfolios (PFloat 95944.515210913756) (PFloat 95976.369965389007)
  = ([Print [PStr "Portfolio 2 performed worse! --31.85$"]], Ok ()).
Proof. vm_compute. reflexivity. Qed.

(** An int and a float of ordinary size: the int converts exactly. *)
Example mixed_values_output :
  compare_portfolios (PInt 95944) (PFloat 95976.369965389007)
  = ([Print [PStr "Portfolio 2 performed worse! --32.37$"]], Ok ()).
Proof. vm_compute. reflexivity. Qed.

(** The other two branches, on the recorded values and on equal values. *)
Example recorded_values_output :
  compare_portfolios (PFloat 95976.369965389007) (PFloat 95944.515210913756)
  = ([Print [PStr "AI Portfolio performed better! 31.85$"]], Ok ()).
Proof. vm_compute. reflexivity. Qed.

Example equal_values_output :
  compare_portfolios (PInt 5) (PFloat 5.0)
  = ([Print [PStr "Both portfolios have the same value!"]], Ok ()).
Proof. vm_compute. reflexivity. Qed.

End Comparison.

(** ** Rounding to binary64

    What the conversion of an int of any size and the arithmetic on floats
    keep of the number rounded: a valid binary64 number of the same sign,
    and a finite one below the top binade. *)

Section Rounding.

Lemma digits2_pos_unique p d :
  2 ^ (d - 1) <= Z.pos p < 2 ^ d → Z.pos (digits2_pos p) = d.
Proof.
  intros [Hlow Hhigh].
  pose proof (digits2_pos_bounds p) as [Hlow' Hhigh'].
  set (d' := Z.pos (digits2_pos p)) in *.
  destruct (Z.lt_trichotomy d' d) as [Hlt|[Heq|Hgt]]; [|done|].
  - assert (2 ^ d' <= 2 ^ (d - 1)) by (apply Z.pow_le_mono_r; lia). lia.
  - assert (0 <= d) as Hd.
    { destruct (Z.le_gt_cases 0 d) as [|Hneg]; [done|].
      rewrite (Z.pow_neg_r 2 d) in Hhigh by lia. lia. }
    assert (2 ^ d <= 2 ^ (d' - 1)) by (apply Z.pow_le_mono_r; lia). lia.
Qed.

Lemma Zdigits2_mono m m' : 0 <= m <= m' → Zdigits2 m <= Zdigits2 m'.
Proof.
  intros [Hm Hle]. destruct m as [|p|p], m' as [|p'|p']; simpl; try lia.
  pose proof (digits2_pos_bounds p) as [Hlow _].
  pose proof (digits2_pos_bounds p') as [_ Hhigh].
  set (d := Z.pos (digits2_pos p)) in *. set (d' := Z.pos (digits2_pos p')) in *.
  destruct (Z.le_gt_cases d d') as [|Hgt]; [done|].
  assert (2 ^ d' <= 2 ^ (d - 1)) by (apply Z.pow_le_mono_r; lia). lia.
Qed.

Lemma Zdigits2_succ m : 0 <= m → Zdigits2 (m + 1) <= Zdigits2 m + 1.
Proof.
  intros Hm. destruct m as [|p|p]; [done| |lia].
  change (Z.pos p + 1) with (Z.pos (p + 1)). cbn [Zdigits2].
  pose proof (digits2_pos_bounds p) as [_ Hhigh].
  pose proof (digits2_pos_bounds (p + 1)) as [Hlow _].
  set (d := Z.pos (digits2_pos p)) in *. set (d' := Z.pos (digits2_pos (p + 1))) in *.
  destruct (Z.le_gt_cases d' (d + 1)) as [|Hgt]; [done|].
  assert (2 ^ (d + 1) <= 2 ^ (d' - 1)) by (apply Z.pow_le_mono_r; lia).
  rewrite Z.pow_add_r, Z.pow_1_r in * by lia. lia.
Qed.

Lemma fexp_eq e : fexp e = Z.max (e - 53) (-1074).
Proof. reflexivity. Qed.

Lemma fexp_mono e e' : e <= e' → fexp e <= fexp e'.
Proof. rewrite !fexp_eq. lia. Qed.

Lemma round_nearest_even_le m l : round_nearest_even m l <= m + 1.
Proof. destruct l as [|[]]; simpl; try lia. destruct (Z.even m); lia. Qed.

Lemma shr_fexp_nonneg m e l : 0 <= m → 0 <= shr_m (shr_fexp prec emax m e l).1.
Proof.
  intros Hm. unfold shr_fexp, shr.
  destruct (fexp (Zdigits2 m + e) - e) as [|k|k]; cbn [fst];
    rewrite ?shr_record_of_loc_m; try done.
  rewrite iter_shr_1_m by (by rewrite shr_record_of_loc_m).
  rewrite shr_record_of_loc_m. apply Z.div_pos; [done|].
  apply Z.pow_pos_nonneg; lia.
Qed.

Lemma shr_fexp_exponent m e l :
  e <= fexp (Zdigits2 m + e) → (shr_fexp prec emax m e l).2 = fexp (Zdigits2 m + e).
Proof.
  intros He. unfold shr_fexp, shr.
  destruct (fexp (Zdigits2 m + e) - e) as [|k|k] eqn:Hk; cbn [snd]; lia.
Qed.

(** A mantissa shifted to its canonical exponent is canonical there. *)
Lemma shr_fexp_canonical_exponent m e l :
  0 <= m → e <= fexp (Zdigits2 m + e) →
  fexp (Zdigits2 (shr_m (shr_fexp prec emax m e l).1) + (shr_fexp prec emax m e l).2)
  = (shr_fexp prec emax m e l).2.
Proof.
  intros Hm He. unfold shr_fexp, shr.
  destruct (fexp (Zdigits2 m + e) - e) as [|k|k] eqn:Hk; cbn [fst snd];
    rewrite ?shr_record_of_loc_m; try lia.
  rewrite iter_shr_1_m by (by rewrite shr_record_of_loc_m).
  rewrite shr_record_of_loc_m.
  assert (0 < 2 ^ Z.pos k) as Hpow by (apply Z.pow_pos_nonneg; lia).
  rewrite fexp_eq in Hk.
  destruct m as [|p|p]; [| |lia].
  { rewrite Z.div_0_l by lia. cbn [Zdigits2] in *. rewrite fexp_eq. lia. }
  cbn [Zdigits2] in Hk.
  pose proof (digits2_pos_bounds p) as [Hlow Hhigh].
  set (d := Z.pos (digits2_pos p)) in *.
  destruct (Z.le_gt_cases d (Z.pos k)) as [Hge|Hlt].
  - assert (2 ^ d <= 2 ^ Z.pos k) by (apply Z.pow_le_mono_r; lia).
    rewrite Z.div_small by lia. cbn [Zdigits2]. rewrite fexp_eq. lia.
  - assert (0 < Z.pos p / 2 ^ Z.pos k) as Hq.
    { apply Z.div_str_pos. split; [lia|].
      etransitivity; [|exact Hlow]. apply Z.pow_le_mono_r; lia. }
    destruct (Z.pos p / 2 ^ Z.pos k) as [|q|q] eqn:Hdiv; try lia.
    cbn [Zdigits2].
    rewrite (digits2_pos_unique q (d - Z.pos k)).
    + replace (d - Z.pos k + (e + Z.pos k)) with (d + e) by lia. rewrite fexp_eq. lia.
    + rewrite <-Hdiv. split.
      * apply Z.div_le_lower_bound; [lia|].
        rewrite <-Z.pow_add_r by lia.
        replace (Z.pos k + (d - Z.pos k - 1)) with (d - 1) by lia. done.
      * apply Z.div_lt_upper_bound; [lia|].
        rewrite <-Z.pow_add_r by lia.
        replace (Z.pos k + (d - Z.pos k)) with d by lia. done.
Qed.

(** Rounding keeps the sign: it gives a zero, a finite number or an infinity
    of the sign it was given. *)
Lemma binary_round_aux_signed s m e l :
  0 <= m →
  match binary_round_aux prec emax s m e l with
  | S754_zero s' | S754_finite s' _ _ | S754_infinity s' => s' = s
  | S754_nan => False
  end.
Proof.
  intros Hm. unfold binary_round_aux.
  pose proof (shr_fexp_nonneg m e l Hm) as Hm1.
  destruct (shr_fexp prec emax m e l) as [mrs1 e1]. cbn [fst] in Hm1.
  pose proof (round_nearest_even_ge (shr_m mrs1) (loc_of_shr_record mrs1)) as Hround.
  set (m2 := round_nearest_even _ _) in *.
  assert (0 <= m2) as Hm2 by lia.
  pose proof (shr_fexp_nonneg m2 e1 loc_Exact Hm2) as Hm3.
  destruct (shr_fexp prec emax m2 e1 loc_Exact) as [mrs3 e3]. cbn [fst] in Hm3.
  destruct (shr_m mrs3) as [|p|p]; [done| |lia].
  by destruct (e3 <=? emax - prec).
Qed.

Lemma binary_round_signed s m e :
  match binary_round prec emax s m e with
  | S754_zero s' | S754_finite s' _ _ | S754_infinity s' => s' = s
  | S754_nan => False
  end.
Proof.
  unfold binary_round. destruct (shl_align m e _) as [mz ez].
  apply binary_round_aux_signed. lia.
Qed.

(** Rounding a mantissa that sits at or below its canonical exponent gives a
    binary64 number, and a finite one unless the number is in the top binade. *)
Lemma binary_round_aux_valid s m e l :
  0 <= m → e <= fexp (Zdigits2 m + e) →
  valid_binary (binary_round_aux prec emax s m e l) = true
  ∧ (Zdigits2 m + e <= 1023 →
     match binary_round_aux prec emax s m e l with
     | S754_infinity _ => False
     | _ => True
     end).
Proof.
  intros Hm He. unfold binary_round_aux.
  pose proof (shr_fexp_nonneg m e l Hm) as Hm1.
  pose proof (shr_fexp_canonical_exponent m e l Hm He) as He1.
  pose proof (shr_fexp_exponent m e l He) as Hexp1.
  destruct (shr_fexp prec emax m e l) as [mrs1 e1]. cbn [fst snd] in *.
  pose proof (round_nearest_even_ge (shr_m mrs1) (loc_of_shr_record mrs1)) as Hge.
  pose proof (round_nearest_even_le (shr_m mrs1) (loc_of_shr_record mrs1)) as Hle.
  set (m2 := round_nearest_even _ _) in *.
  assert (0 <= m2) as Hm2 by lia.
  pose proof (Zdigits2_mono (shr_m mrs1) m2) as Hmono.
  pose proof (Zdigits2_mono m2 (shr_m mrs1 + 1)) as Hmono'.
  pose proof (Zdigits2_succ (shr_m mrs1) Hm1) as Hsucc.
  assert (e1 <= fexp (Zdigits2 m2 + e1)) as He2.
  { rewrite <-He1 at 1. apply fexp_mono. lia. }
  pose proof (shr_fexp_nonneg m2 e1 loc_Exact Hm2) as Hm3.
  pose proof (shr_fexp_canonical_exponent m2 e1 loc_Exact Hm2 He2) as He3.
  pose proof (shr_fexp_exponent m2 e1 loc_Exact He2) as Hexp3.
  destruct (shr_fexp prec emax m2 e1 loc_Exact) as [mrs3 e3]. cbn [fst snd] in *.
  destruct (shr_m mrs3) as [|p|p]; [done| |lia].
  destruct (e3 <=? emax - prec) eqn:Hmax.
  - split; [|done].
    unfold SpecFloat.valid_binary, bounded, canonical_mantissa.
    rewrite Hmax, andb_true_r. apply Z.eqb_eq. exact He3.
  - split; [done|]. intros Hd. apply Z.leb_gt in Hmax.
    change (emax - prec) with 971 in Hmax. rewrite fexp_eq in *. lia.
Qed.

Lemma binary_round_valid s m e :
  valid_binary (binary_round prec emax s m e) = true
  ∧ (Z.pos (digits2_pos m) + e <= 1023 →
     match binary_round prec emax s m e with
     | S754_infinity _ => False
     | _ => True
     end).
Proof.
  unfold binary_round.
  destruct (shl_align m e _) as [mz ez] eqn:Halign.
  unfold shl_align in Halign.
  assert (Z.pos (digits2_pos mz) + ez = Z.pos (digits2_pos m) + e
          ∧ ez <= fexp (Z.pos (digits2_pos m) + e)) as [Hsum Hez].
  { destruct (fexp (Z.pos (digits2_pos m) + e) - e) as [|k|k] eqn:Hk;
      injection Halign as <- <-; try lia.
    rewrite digits2_pos_iter_xO. lia. }
  destruct (binary_round_aux_valid s (Z.pos mz) ez loc_Exact) as [Hvalid Hfinite].
  - lia.
  - cbn [Zdigits2]. by rewrite Hsum.
  - split; [done|]. intros Hd. apply Hfinite. cbn [Zdigits2]. lia.
Qed.

Lemma binary_normalize_valid z e :
  valid_binary (binary_normalize prec emax z e false) = true.
Proof. destruct z; [done|apply binary_round_valid..]. Qed.

(** [float(z)] is the rounding of [z], whatever the size of [z]. *)
Lemma int_to_float_Ok z f :
  int_to_float z = Ok f → Prim2SF f = binary_normalize prec emax z 0 false.
Proof.
  unfold int_to_float. intros Hf.
  rewrite <-(Prim2SF_SF2Prim _ (binary_normalize_valid z 0)).
  destruct (binary_normalize prec emax z 0 false); by simplify_eq.
Qed.

Lemma int_to_float_negative z f :
  z < 0 → int_to_float z = Ok f → strictly_negative (Prim2SF f) = true.
Proof.
  intros Hz Hf. rewrite (int_to_float_Ok _ _ Hf).
  unfold int_to_float in Hf. destruct z as [|p|p]; try lia. cbn [binary_normalize] in *.
  pose proof (binary_round_sign true p 0) as Hsign.
  destruct (binary_round prec emax true p 0); try done;
    try (exfalso; apply Hsign; done); by rewrite Hsign.
Qed.

Lemma int_to_float_nonneg z f :
  0 <= z → int_to_float z = Ok f →
  nonnegative (Prim2SF f) = true ∧ py_is_finite (PFloat f) = true.
Proof.
  intros Hz Hf. cbn [py_is_finite]. rewrite (int_to_float_Ok _ _ Hf).
  unfold int_to_float in Hf. destruct z as [|p|p]; [done| |lia].
  cbn [binary_normalize] in *.
  pose proof (binary_round_signed false p 0) as Hsign.
  destruct (binary_round prec emax false p 0) as [s'|s'| |s' m' e']; cbn in Hsign; try done;
    by subst s'.
Qed.

(** An int below 2^1023 in magnitude converts to a float. *)
Lemma int_to_float_in_range z :
  Z.abs z < 2 ^ 1023 → ∃ f, int_to_float z = Ok f.
Proof.
  intros Hz. unfold int_to_float.
  assert (∀ p, Z.pos p < 2 ^ 1023 → Z.pos (digits2_pos p) + 0 <= 1023) as Hdigits.
  { intros p Hp. pose proof (digits2_pos_bounds p) as [Hlow _].
    set (d := Z.pos (digits2_pos p)) in *.
    destruct (Z.le_gt_cases d 1023) as [|Hgt]; [lia|].
    assert (2 ^ 1023 <= 2 ^ (d - 1)) by (apply Z.pow_le_mono_r; lia). lia. }
  destruct z as [|p|p]; cbn [binary_normalize].
  - by eexists.
  - destruct (binary_round_valid false p 0) as [_ Hfinite].
    specialize (Hfinite (Hdigits p Hz)).
    destruct (binary_round prec emax false p 0); [by eexists|done|by eexists..].
  - destruct (binary_round_valid true p 0) as [_ Hfinite].
    specialize (Hfinite (Hdigits p Hz)).
    destruct (binary_round prec emax true p 0); [by eexists|done|by eexists..].
Qed.

End Rounding.

(** ** Signs and zeros of sums, products and differences *)

Section Signs.

Lemma SF64mul_nonnegative x y :
  nonnegative x = true → nonnegative y = true →
  match x with S754_infinity _ => False | _ => True end →
  match y with S754_infinity _ => False | _ => True end →
  nonnegative (SF64mul x y) = true.
Proof.
  intros Hx Hy Hfx Hfy.
  destruct x as [sx|sx| |sx mx ex], y as [sy|sy| |sy my ey]; try done.
  destruct sx, sy; try done. unfold SF64mul, SFmul. cbn [xorb].
  pose proof (binary_round_aux_signed false (Z.pos (mx * my)) (ex + ey) loc_Exact
                (Pos2Z.is_nonneg _)) as Hsign.
  destruct (binary_round_aux _ _ _ _ _ _) as [s'|s'| |s' m' e']; cbn in Hsign; try done;
    by subst s'.
Qed.

Lemma SF64add_nonnegative x y :
  nonnegative x = true → nonnegative y = true → nonnegative (SF64add x y) = true.
Proof.
  intros Hx Hy.
  destruct x as [sx|sx| |sx mx ex], y as [sy|sy| |sy my ey]; try done;
    try destruct sx; try destruct sy; try done.
  unfold SF64add, SFadd. cbn [cond_Zopp Z.add binary_normalize].
  pose proof (binary_round_signed false
    ((shl_align mx ex (Z.min ex ey)).1 + (shl_align my ey (Z.min ex ey)).1)%positive
    (Z.min ex ey)) as Hsign.
  change (Z.pos ?a + Z.pos ?b) with (Z.pos (a + b)). cbn [binary_normalize].
  destruct (binary_round _ _ _ _ _) as [s'|s'| |s' m' e']; cbn in Hsign; try done;
    by subst s'.
Qed.

Lemma float_mul_nonneg x y :
  py_is_nonneg (PFloat x) = true → py_is_finite (PFloat x) = true →
  py_is_nonneg (PFloat y) = true → py_is_finite (PFloat y) = true →
  py_is_nonneg (PFloat (x * y)) = true.
Proof.
  cbn [py_is_nonneg py_is_finite]. rewrite FloatAxioms.mul_spec.
  intros Hx Hfx Hy Hfy. apply SF64mul_nonnegative; try done.
  - by destruct (Prim2SF x).
  - by destruct (Prim2SF y).
Qed.

(** The product of two finite numbers that are not below zero is not below
    zero, and is no NaN. *)
Lemma py_mul_nonneg a b c :
  py_is_nonneg a = true → py_is_finite a = true →
  py_is_nonneg b = true → py_is_finite b = true →
  py_mul a b = Ok c → py_is_nonneg c = true.
Proof.
  intros Ha Hfa Hb Hfb. destruct a as [x|x], b as [y|y]; unfold py_mul; cbn [py_binop].
  - intros [= <-]. cbn in *. apply Z.leb_le in Ha, Hb. apply Z.leb_le. nia.
  - destruct (int_to_float x) as [fx|] eqn:Hfx; [|done]. intros [= <-].
    apply Z.leb_le in Ha. destruct (int_to_float_nonneg _ _ Ha Hfx).
    by apply float_mul_nonneg.
  - destruct (int_to_float y) as [fy|] eqn:Hfy; [|done]. intros [= <-].
    apply Z.leb_le in Hb. destruct (int_to_float_nonneg _ _ Hb Hfy).
    by apply float_mul_nonneg.
  - intros [= <-]. by apply float_mul_nonneg.
Qed.

Lemma float_add_nonneg x y :
  py_is_nonneg (PFloat x) = true → py_is_nonneg (PFloat y) = true →
  py_is_nonneg (PFloat (x + y)) = true.
Proof.
  cbn [py_is_nonneg]. rewrite FloatAxioms.add_spec. apply SF64add_nonnegative.
Qed.

Lemma py_add_nonneg a b c :
  py_is_nonneg a = true → py_is_nonneg b = true →
  py_add a b = Ok c → py_is_nonneg c = true.
Proof.
  intros Ha Hb. destruct a as [x|x], b as [y|y]; unfold py_add; cbn [py_binop].
  - intros [= <-]. cbn in *. apply Z.leb_le in Ha, Hb. apply Z.leb_le. lia.
  - destruct (int_to_float x) as [fx|] eqn:Hfx; [|done]. intros [= <-].
    apply Z.leb_le in Ha. destruct (int_to_float_nonneg _ _ Ha Hfx).
    by apply float_add_nonneg.
  - destruct (int_to_float y) as [fy|] eqn:Hfy; [|done]. intros [= <-].
    apply Z.leb_le in Hb. destruct (int_to_float_nonneg _ _ Hb Hfy).
    by apply float_add_nonneg.
  - intros [= <-]. by apply float_add_nonneg.
Qed.

Lemma py_is_zero_float f :
  py_is_zero (PFloat f) = true ↔ ∃ s, Prim2SF f = S754_zero s.
Proof.
  simpl. rewrite FloatAxioms.eqb_spec. change (Prim2SF 0) with (S754_zero false).
  destruct (Prim2SF f) as [s|s| |s m e]; simpl; split; try done; try (by intros [? ?]);
    try (by eexists); by destruct s.
Qed.

(** Adding a zero to a zero gives a zero, and never raises. *)
Lemma py_add_zero a b :
  py_is_zero a = true → py_is_zero b = true →
  ∃ c, py_add a b = Ok c ∧ py_is_zero c = true.
Proof.
  destruct a as [x|x], b as [y|y].
  - intros ->%Z.eqb_eq ->%Z.eqb_eq. by exists (PInt 0).
  - intros ->%Z.eqb_eq [sy Hy]%py_is_zero_float.
    exists (PFloat (0 + y)). split; [done|]. apply py_is_zero_float.
    rewrite FloatAxioms.add_spec, Hy. change (Prim2SF 0) with (S754_zero false).
    destruct sy; by eexists.
  - intros [sx Hx]%py_is_zero_float ->%Z.eqb_eq.
    exists (PFloat (x + 0)). split; [done|]. apply py_is_zero_float.
    rewrite FloatAxioms.add_spec, Hx. change (Prim2SF 0) with (S754_zero false).
    destruct sx; by eexists.
  - intros [sx Hx]%py_is_zero_float [sy Hy]%py_is_zero_float.
    exists (PFloat (x + y)). split; [done|]. apply py_is_zero_float.
    rewrite FloatAxioms.add_spec, Hx, Hy. destruct sx, sy; by eexists.
Qed.

(** The product of two numbers that convert to float without rounding never
    raises; when it is an int it is below 2^106. *)
Lemma py_mul_within a b :
  within_float_precision a = true → within_float_precision b = true →
  ∃ c, py_mul a b = Ok c ∧ int_below (2 ^ 106) c.
Proof.
  assert (∀ z, Z.abs z < 2 ^ 53 → ∃ f, int_to_float z = Ok f) as Hsmall.
  { intros z Hz. apply int_to_float_in_range.
    assert (2 ^ 53 <= 2 ^ 1023) by (apply Z.pow_le_mono_r; lia). lia. }
  destruct a as [x|x], b as [y|y]; unfold py_mul; cbn [py_binop within_float_precision].
  - intros Hx%Z.ltb_lt Hy%Z.ltb_lt. exists (PInt (x * y)). split; [done|].
    cbn. rewrite Z.abs_mul. change (2 ^ 106) with (2 ^ 53 * 2 ^ 53).
    assert (0 <= Z.abs x) by lia. assert (0 <= Z.abs y) by lia. nia.
  - intros Hx%Z.ltb_lt _. destruct (Hsmall x Hx) as [fx ->]. by eexists.
  - intros _ Hy%Z.ltb_lt. destruct (Hsmall y Hy) as [fy ->]. by eexists.
  - intros _ _. by eexists.
Qed.

(** Subtracting a smaller float from a larger one gives a positive float. *)
Lemma SF64sub_positive x y :
  valid_binary x = true → valid_binary y = true →
  SFltb y x = true → strictly_positive (SF64sub x y) = true.
Proof.
  intros Hx Hy Hlt.
  destruct x as [sx|sx| |sx mx ex], y as [sy|sy| |sy my ey].
  16: {
    pose proof (aligned_difference_negative _ _ _ _ _ _ Hy Hx Hlt) as Hneg.
    apply valid_binary_emin in Hx, Hy.
    unfold SF64sub, SFsub. rewrite (Z.min_comm ey ex) in Hneg.
    set (dx := cond_Zopp sx _) in *. set (dy := cond_Zopp sy _) in *.
    destruct (dx - dy) as [|p|p] eqn:Hd; try lia.
    cbn [binary_normalize].
    pose proof (binary_round_sign false p (Z.min ex ey)) as Hsign.
    destruct (binary_round prec emax false p (Z.min ex ey)) as [| | |s m e];
      try (exfalso; apply Hsign; lia); by rewrite Hsign by lia. }
  all: try destruct sx; try destruct sy; try (vm_compute in Hlt; discriminate Hlt).
  all: reflexivity.
Qed.

Lemma float_sub_positive x y :
  PrimFloat.ltb y x = true → strictly_positive (Prim2SF (x - y)) = true.
Proof.
  rewrite FloatAxioms.ltb_spec, FloatAxioms.sub_spec. apply SF64sub_positive; apply Prim2SF_valid.
Qed.

Lemma SFcompare_antisym x y : SFcompare y x = CompOpp <$> SFcompare x y.
Proof.
  destruct x as [sx|sx| |sx mx ex], y as [sy|sy| |sy my ey]; simpl;
    try destruct sx; try destruct sy; try done.
  all: change (Pos.compare_cont Eq ?p ?q) with (Pos.compare p q).
  all: rewrite (Z.compare_antisym ex ey), (Pos.compare_antisym mx my).
  all: by destruct (ex ?= ey), (mx ?= my)%positive.
Qed.

Lemma SFcompare_None x y :
  SFcompare x y = None ↔ x = S754_nan ∨ y = S754_nan.
Proof.
  destruct x as [sx|sx| |sx mx ex], y as [sy|sy| |sy my ey]; simpl;
    try destruct sx; try destruct sy;
    (split; [by auto|by intros [|]]).
Qed.

Lemma compare_float_int_None f z :
  compare_float_int f z = None ↔ Prim2SF f = S754_nan.
Proof. unfold compare_float_int. by destruct (Prim2SF f). Qed.

Lemma py_is_nan_float f : py_is_nan (PFloat f) = true ↔ Prim2SF f = S754_nan.
Proof. simpl. by destruct (Prim2SF f). Qed.

Lemma mixed_sub_positive_int_float a y fa :
  Z.abs a < 2 ^ 53 → int_to_float a = Ok fa →
  py_lt (PFloat y) (PInt a) = true →
  strictly_positive (Prim2SF (fa - y)) = true.
Proof.
  intros Hsmall Hfa Hlt.
  destruct (compare_float_int_small y a Hsmall) as (Hvalid & Hconv & Hcmp).
  rewrite Hconv in Hfa. injection Hfa as <-.
  apply float_sub_positive. rewrite FloatAxioms.ltb_spec.
  rewrite (Prim2SF_SF2Prim _ Hvalid).
  simpl in Hlt. rewrite Hcmp in Hlt. unfold SFltb.
  by destruct (SFcompare (Prim2SF y) _) as [[]|].
Qed.

Lemma mixed_sub_positive_float_int x b fb :
  Z.abs b < 2 ^ 53 → int_to_float b = Ok fb →
  py_lt (PInt b) (PFloat x) = true →
  strictly_positive (Prim2SF (x - fb)) = true.
Proof.
  intros Hsmall Hfb Hlt.
  destruct (compare_float_int_small x b Hsmall) as (Hvalid & Hconv & Hcmp).
  rewrite Hconv in Hfb. injection Hfb as <-.
  apply float_sub_positive. rewrite FloatAxioms.ltb_spec.
  rewrite (Prim2SF_SF2Prim _ Hvalid).
  simpl in Hlt. rewrite Hcmp in Hlt. unfold SFltb.
  destruct (SFcompare (Prim2SF x) _) as [[]|] eqn:Hc; try done.
  by rewrite (SFcompare_Gt_Lt _ _ Hc).
Qed.

(** A positive float is above the int [0]. *)
Lemma strictly_positive_gt_zero f :
  strictly_positive (Prim2SF f) = true → py_gt (PFloat f) (PInt 0) = true.
Proof.
  unfold py_gt. simpl. unfold compare_float_int.
  destruct (Prim2SF f) as [s|s| |s m e]; try done; destruct s; try done.
  intros _. cbn [cond_Zopp].
  destruct (0 <=? e) eqn:He; [|done].
  apply Z.leb_le in He.
  assert (0 < 2 ^ e) by (by apply Z.pow_pos_nonneg).
  assert (Z.pos m * 2 ^ e > 0) as Hgt by lia.
  by rewrite Hgt.
Qed.

(** The difference of the smaller and the larger of two values is negative,
    and that of the larger and the smaller positive, as long as no int is
    rounded on its way to float. *)
Lemma py_sub_sign a b :
  is_int a = is_int b ∨ within_float_precision a && within_float_precision b = true →
  ∃ diff, py_sub a b = Ok diff
          ∧ (py_lt a b = true → py_lt diff (PInt 0) = true)
          ∧ (py_gt a b = true → py_gt diff (PInt 0) = true).
Proof.
  unfold py_gt. destruct a as [a|x], b as [b|y]; intros Hkind.
  - exists (PInt (a - b)). split; [done|].
    simpl. rewrite !Z.ltb_lt. lia.
  - destruct Hkind as [|Hsmall]; [done|].
    apply andb_prop in Hsmall as [Hsmall%Z.ltb_lt _].
    destruct (compare_float_int_small y a Hsmall) as (_ & Hconv & _).
    exists (PFloat (SF2Prim (binary_normalize prec emax a 0 false) - y)). split_and!.
    + unfold py_sub, py_binop. by rewrite Hconv.
    + intros Hlt. by eapply strictly_negative_lt_zero, mixed_sub_negative_int_float.
    + intros Hgt. by eapply strictly_positive_gt_zero, mixed_sub_positive_int_float.
  - destruct Hkind as [|Hsmall]; [done|].
    apply andb_prop in Hsmall as [_ Hsmall%Z.ltb_lt].
    destruct (compare_float_int_small x b Hsmall) as (_ & Hconv & _).
    exists (PFloat (x - SF2Prim (binary_normalize prec emax b 0 false))). split_and!.
    + unfold py_sub, py_binop. by rewrite Hconv.
    + intros Hlt. by eapply strictly_negative_lt_zero, mixed_sub_negative_float_int.
    + intros Hgt. by eapply strictly_positive_gt_zero, mixed_sub_positive_float_int.
  - exists (PFloat (x - y)). split_and!; [done| |].
    + intros Hlt. by apply strictly_negative_lt_zero, float_sub_negative.
    + intros Hgt. by apply strictly_positive_gt_zero, float_sub_positive.
Qed.

(** Neither of two numbers exceeds the other exactly when they are equal or
    one of them is a NaN. *)
Lemma py_gt_neither a b :
  py_gt a b = false ∧ py_gt b a = false
  ↔ py_eq a b = true ∨ py_is_nan a = true ∨ py_is_nan b = true.
Proof.
  unfold py_gt. destruct a as [x|x], b as [y|y].
  - cbn [py_lt py_eq py_is_nan]. rewrite !Z.ltb_ge, Z.eqb_eq. split; [intros []; left; lia|].
    by intros [->|[|]].
  - rewrite py_is_nan_float, <-(compare_float_int_None y x). cbn [py_lt py_eq py_is_nan].
    destruct (compare_float_int y x) as [[]|]; intuition congruence.
  - rewrite py_is_nan_float, <-(compare_float_int_None x y). cbn [py_lt py_eq py_is_nan].
    destruct (compare_float_int x y) as [[]|]; intuition congruence.
  - rewrite !py_is_nan_float, <-(SFcompare_None (Prim2SF x) (Prim2SF y)).
    cbn [py_lt py_eq].
    rewrite !FloatAxioms.ltb_spec, FloatAxioms.eqb_spec. unfold SFltb, SFeqb.
    rewrite (SFcompare_antisym (Prim2SF x) (Prim2SF y)).
    destruct (SFcompare (Prim2SF x) (Prim2SF y)) as [[]|]; simpl; intuition congruence.
Qed.

Lemma py_binop_is_int fz ff a b c :
  py_binop fz ff a b = Ok c → is_int c = is_int a && is_int b.
Proof.
  destruct a as [x|x], b as [y|y]; simpl.
  - by intros [= <-].
  - destruct (int_to_float x); simpl; [by intros [= <-]|done].
  - destruct (int_to_float y); simpl; [by intros [= <-]|done].
  - by intros [= <-].
Qed.

(** The text of a negative number starts with a minus sign. *)
Lemma format_float_2f_negative f :
  strictly_negative (Prim2SF f) = true →
  ∃ amount, format_float_2f f = "-" +:+ amount.
Proof.
  unfold format_float_2f.
  destruct (Prim2SF f) as [s|s| |s m e]; try done; destruct s; try done; by eexists.
Qed.

Lemma format_2f_negative diff text :
  py_lt diff (PInt 0) = true → format_2f diff = Ok text →
  ∃ amount, text = "-" +:+ amount.
Proof.
  destruct diff as [z|f]; cbn [format_2f].
  - intros Hz%Z.ltb_lt. destruct (int_to_float z) as [f|] eqn:Hf; [|done].
    intros [= <-]. by eapply format_float_2f_negative, int_to_float_negative.
  - intros Hlt [= <-]. apply format_float_2f_negative.
    simpl in Hlt. unfold compare_float_int in Hlt.
    destruct (Prim2SF f) as [s|s| |s m e]; try done; destruct s; try done.
    exfalso. cbn [cond_Zopp] in Hlt.
    destruct (0 <=? e) eqn:He; [|done].
    apply Z.leb_le in He.
    assert (0 < 2 ^ e) by (by apply Z.pow_pos_nonneg).
    assert (Z.pos m * 2 ^ e > 0) as Hgt by lia.
    by rewrite Hgt in Hlt.
Qed.

Lemma format_2f_raise a e : format_2f a = Raise e → e = OverflowError.
Proof.
  destruct a as [z|f]; simpl; [|done].
  destruct (int_to_float z) eqn:E; simpl; [done|].
  intros [= <-]. by eapply int_to_float_raise.
Qed.

End Signs.

(** ** More about the valuation *)

Section ValuationProperties.

Implicit Types (prices : price_map) (assets : list Asset) (portfolio : Portfolio).

Lemma bind_events {A B} (t : list event) (a : A) (k : A → io B) :
  (t, Ok a) ≫= k = (t ++ (k a).1, (k a).2).
Proof. unfold mbind, io_bind. by destruct (k a). Qed.

(** The valuation has no effect but its outcome. *)
Lemma valuation_loop_lift prices assets total_value :
  valuation_loop prices assets total_value
  = lift (valuation_loop prices assets total_value).2.
Proof.
  unfold lift. rewrite <-(valuation_loop_events prices assets total_value).
  by destruct (valuation_loop _ _ _).
Qed.

Lemma valuation_loop_ext prices prices' assets total_value :
  (∀ asset, asset ∈ assets →
     dict_get prices asset.(symbol) (PInt 0) = dict_get prices' asset.(symbol) (PInt 0)) →
  valuation_loop prices assets total_value = valuation_loop prices' assets total_value.
Proof.
  revert total_value. induction assets as [|asset rest IH]; intros total_value Hagree; [done|].
  rewrite !valuation_loop_cons. unfold contribution.
  rewrite (Hagree asset) by apply list_elem_of_here.
  destruct (py_mul _ _) as [product|e]; [|done]. rewrite !bind_lift_Ok.
  destruct (py_add _ _) as [total'|e]; [|done]. rewrite !bind_lift_Ok.
  apply IH. intros a Ha. apply Hagree. by apply list_elem_of_further.
Qed.

Lemma valuation_loop_app prices assets assets' total_value :
  valuation_loop prices (assets ++ assets') total_value
  = (total_value ← valuation_loop prices assets total_value;
     valuation_loop prices assets' total_value).
Proof.
  revert total_value. induction assets as [|asset rest IH]; intros total_value.
  { symmetry. apply (bind_lift_Ok total_value (valuation_loop prices assets')). }
  change ((asset :: rest) ++ assets') with (asset :: (rest ++ assets')).
  rewrite !valuation_loop_cons.
  destruct (contribution prices asset) as [product|e]; [|done]. rewrite !bind_lift_Ok.
  destruct (py_add total_value product) as [total'|e]; [|done]. rewrite !bind_lift_Ok.
  apply IH.
Qed.

Lemma valuation_loop_is_int prices assets total_value v :
  (valuation_loop prices assets total_value).2 = Ok v →
  is_int v
  = is_int total_value
    && forallb (λ asset, is_int asset.(quantity)
                         && is_int (dict_get prices asset.(symbol) (PInt 0))) assets.
Proof.
  revert total_value. induction assets as [|asset rest IH]; intros total_value.
  { simpl. intros [= <-]. by rewrite andb_true_r. }
  rewrite valuation_loop_cons. unfold contribution.
  destruct (py_mul _ _) as [product|e] eqn:Hmul; [|done]. rewrite bind_lift_Ok.
  destruct (py_add total_value product) as [total'|e] eqn:Hadd; [|done]. rewrite bind_lift_Ok.
  intros Hv. rewrite (IH _ Hv).
  apply py_binop_is_int in Hmul, Hadd. rewrite Hadd, Hmul. cbn [forallb].
  by destruct (is_int total_value), (is_int (quantity asset)),
    (is_int (dict_get prices (symbol asset) (PInt 0))).
Qed.

Lemma valuation_loop_nonneg prices assets total_value v :
  (∀ asset, asset ∈ assets →
     py_is_nonneg asset.(quantity) = true ∧ py_is_finite asset.(quantity) = true
     ∧ py_is_nonneg (dict_get prices asset.(symbol) (PInt 0)) = true
     ∧ py_is_finite (dict_get prices asset.(symbol) (PInt 0)) = true) →
  py_is_nonneg total_value = true →
  (valuation_loop prices assets total_value).2 = Ok v →
  py_is_nonneg v = true.
Proof.
  revert total_value. induction assets as [|asset rest IH]; intros total_value Hall Htotal.
  { by intros [= <-]. }
  rewrite valuation_loop_cons. unfold contribution.
  destruct (Hall asset) as (Hq & Hfq & Hp & Hfp); [apply list_elem_of_here|].
  destruct (py_mul _ _) as [product|e] eqn:Hmul; [|done]. rewrite bind_lift_Ok.
  destruct (py_add total_value product) as [total'|e] eqn:Hadd; [|done]. rewrite bind_lift_Ok.
  apply IH.
  - intros a Ha. apply Hall. by apply list_elem_of_further.
  - eapply py_add_nonneg; [exact Htotal| |exact Hadd].
    exact (py_mul_nonneg _ _ _ Hq Hfq Hp Hfp Hmul).
Qed.

Lemma valuation_loop_unpriced prices assets total_value :
  (∀ asset, asset ∈ assets →
     prices !! asset.(symbol) = None ∧ py_is_finite asset.(quantity) = true) →
  py_is_zero total_value = true →
  ∃ v, valuation_loop prices assets total_value = ([], Ok v) ∧ py_is_zero v = true.
Proof.
  revert total_value. induction assets as [|asset rest IH]; intros total_value Hall Htotal.
  { by exists total_value. }
  rewrite valuation_loop_cons. unfold contribution, dict_get.
  destruct (Hall asset) as [-> Hfinite]; [apply list_elem_of_here|].
  destruct (py_mul_zero asset.(quantity)) as (product & -> & Hzero).
  rewrite bind_lift_Ok.
  destruct (py_add_zero total_value product Htotal (Hzero Hfinite)) as (total' & -> & Htotal').
  rewrite bind_lift_Ok. apply IH; [|done].
  intros a Ha. apply Hall. by apply list_elem_of_further.
Qed.

(** As long as an int total leaves room for the products still to come, no
    conversion to float overflows. *)
Lemma valuation_loop_no_overflow prices assets total_value :
  (∀ asset, asset ∈ assets →
     within_float_precision asset.(quantity) = true
     ∧ within_float_precision (dict_get prices asset.(symbol) (PInt 0)) = true) →
  match total_value with
  | PInt t => Z.abs t + Z.of_nat (length assets) * 2 ^ 106 < 2 ^ 1023
  | PFloat _ => True
  end →
  ∃ v, valuation_loop prices assets total_value = ([], Ok v).
Proof.
  revert total_value. induction assets as [|asset rest IH]; intros total_value Hall Htotal.
  { by eexists. }
  rewrite valuation_loop_cons. unfold contribution.
  destruct (Hall asset) as [Hq Hp]; [apply list_elem_of_here|].
  destruct (py_mul_within _ _ Hq Hp) as (product & -> & Hproduct).
  rewrite bind_lift_Ok.
  assert (0 < 2 ^ 106) as Hpos by done.
  assert (2 ^ 106 < 2 ^ 1023) as Hlt by done.
  assert (∃ total', py_add total_value product = Ok total'
            ∧ match total' with
              | PInt t => Z.abs t + Z.of_nat (length rest) * 2 ^ 106 < 2 ^ 1023
              | PFloat _ => True
              end) as (total' & -> & Htotal').
  { cbn [length] in Htotal. rewrite Nat2Z.inj_succ in Htotal.
    destruct total_value as [t|t], product as [z|z]; unfold py_add; cbn [py_binop int_below] in *.
    - eexists. split; [done|]. cbn beta iota. lia.
    - destruct (int_to_float_in_range t) as [ft ->]; [lia|]. by eexists.
    - destruct (int_to_float_in_range z) as [fz ->]; [lia|]. by eexists.
    - by eexists. }
  rewrite bind_lift_Ok. apply IH; [|done].
  intros a Ha. apply Hall. by apply list_elem_of_further.
Qed.

Lemma calculate_portfolio_value_lift portfolio prices :
  calculate_portfolio_value portfolio prices
  = lift (calculate_portfolio_value portfolio prices).2.
Proof. apply valuation_loop_lift. Qed.

Lemma calculate_portfolio_value_raise portfolio prices e :
  (calculate_portfolio_value portfolio prices).2 = Raise e → e = OverflowError.
Proof.
  unfold calculate_portfolio_value. rewrite valuation_loop_sum.
  destruct (mapM _ _) as [terms|e'] eqn:Eterms; simpl.
  - apply sum_from_raise.
  - intros [= <-]. by eapply mapM_contribution_raise.
Qed.

(** X1: the value of a portfolio depends on the price map only through the
    prices looked up for the symbols it holds: two price maps that agree on
    these (a missing price counting as 0) give the same value, the same
    exception included, whatever else they contain. *)
Theorem valuation_reads_held_prices_only portfolio prices prices' :
  (∀ asset, asset ∈ portfolio.(assets) →
     dict_get prices asset.(symbol) (PInt 0) = dict_get prices' asset.(symbol) (PInt 0)) →
  calculate_portfolio_value portfolio prices = calculate_portfolio_value portfolio prices'.
Proof. apply valuation_loop_ext. Qed.

Lemma valuation_reads_held_prices_only_witness :
  calculate_portfolio_value whole_portfolio whole_prices
  = calculate_portfolio_value whole_portfolio
      (<["SOL" := PFloat 135.14]> (delete "ADA" whole_prices)).
Proof.
  apply (valuation_reads_held_prices_only whole_portfolio whole_prices
           (<["SOL" := PFloat 135.14]> (delete "ADA" whole_prices))).
  intros asset Hin.
  repeat (apply elem_of_cons in Hin as [->|Hin]; [vm_compute; reflexivity|]).
  by apply elem_of_nil in Hin.
Defined.

(** X2: a symbol without a price and a symbol priced at the int 0 are
    valued alike: giving a missing symbol the price 0 changes nothing in the
    outcome of the valuation. *)
Theorem missing_price_is_zero_price portfolio prices s :
  prices !! s = None →
  calculate_portfolio_value portfolio (<[s := PInt 0]> prices)
  = calculate_portfolio_value portfolio prices.
Proof.
  intros Hnone. apply valuation_loop_ext. intros asset _. unfold dict_get.
  destruct (decide (s = asset.(symbol))) as [<-|Hne].
  - by rewrite lookup_insert_eq, Hnone.
  - by rewrite lookup_insert_ne.
Qed.

Lemma missing_price_is_zero_price_witness :
  calculate_portfolio_value unpriced_portfolio (<["NEAR" := PInt 0]> recorded_prices)
  = calculate_portfolio_value unpriced_portfolio recorded_prices.
Proof.
  apply (missing_price_is_zero_price unpriced_portfolio recorded_prices "NEAR").
  vm_compute. reflexivity.
Defined.

(** X3: a holding added at the end of a portfolio adds its quantity times its
    price to the value of the portfolio: the new value is the old one plus
    that product, and the valuation raises where the old valuation, the
    product or the final addition raises. *)
Theorem valuation_of_appended_asset portfolio prices asset :
  calculate_portfolio_value
    {| currency := portfolio.(currency); assets := portfolio.(assets) ++ [asset] |} prices
  = (total_value ← calculate_portfolio_value portfolio prices;
     product ← lift (py_mul asset.(quantity) (dict_get prices asset.(symbol) (PInt 0)));
     lift (py_add total_value product)).
Proof.
  unfold calculate_portfolio_value. cbn [assets].
  rewrite valuation_loop_app.
  destruct (valuation_loop prices (assets portfolio) (PInt 0)) as [t [total|e]]; [|done].
  rewrite !bind_events. cbn [fst snd].
  rewrite valuation_loop_cons. unfold contribution.
  destruct (py_mul _ _) as [product|e]; [|done]. rewrite !bind_lift_Ok.
  destruct (py_add total product) as [total'|e]; [|done]. by rewrite !bind_lift_Ok.
Qed.

(** X4: the value returned is an int exactly when every quantity and every
    price looked up (the int 0 for a missing one) is an int; one float among
    them makes it a float. *)
Theorem value_is_int_iff portfolio prices v :
  (calculate_portfolio_value portfolio prices).2 = Ok v →
  is_int v
  = forallb (λ asset, is_int asset.(quantity)
                      && is_int (dict_get prices asset.(symbol) (PInt 0)))
      portfolio.(assets).
Proof. intros Hv. by rewrite (valuation_loop_is_int _ _ _ _ Hv). Qed.

Lemma value_is_int_iff_witness :
  is_int (PFloat 95976.369965389007)
  = forallb (λ asset, is_int asset.(quantity)
                      && is_int (dict_get recorded_prices asset.(symbol) (PInt 0)))
      portfolio1.(assets).
Proof.
  apply (value_is_int_iff portfolio1 recorded_prices (PFloat 95976.369965389007)).
  vm_compute. reflexivity.
Defined.

(** X5: when every quantity and every price looked up is finite and not
    below zero, the value returned is not below zero either, and is no NaN:
    rounding and overflow to infinity never make it negative. *)
Theorem value_is_nonnegative portfolio prices v :
  (∀ asset, asset ∈ portfolio.(assets) →
     py_is_nonneg asset.(quantity) = true ∧ py_is_finite asset.(quantity) = true
     ∧ py_is_nonneg (dict_get prices asset.(symbol) (PInt 0)) = true
     ∧ py_is_finite (dict_get prices asset.(symbol) (PInt 0)) = true) →
  (calculate_portfolio_value portfolio prices).2 = Ok v →
  py_is_nonneg v = true.
Proof. intros Hall. by apply valuation_loop_nonneg. Qed.

Lemma value_is_nonnegative_witness :
  py_is_nonneg (PFloat 95976.369965389007) = true.
Proof.
  apply (value_is_nonnegative portfolio1 recorded_prices (PFloat 95976.369965389007)).
  - intros asset Hin.
    repeat (apply elem_of_cons in Hin as [->|Hin]; [vm_compute; done|]).
    by apply elem_of_nil in Hin.
  - vm_compute. reflexivity.
Defined.

(** Without finiteness the bound fails: an infinite quantity at the price 0
    is worth NaN. *)
Example infinite_quantity_value :
  calculate_portfolio_value
    {| currency := "USDT"; assets := [ {| symbol := "BTC"; quantity := PFloat infinity |} ] |}
    (<["BTC" := PInt 0]> ∅)
  = ([], Ok (PFloat nan)).
Proof. vm_compute. reflexivity. Qed.

(** X6: a portfolio of finite quantities none of whose symbols has a price is
    valued without any exception, and its value is zero. *)
Theorem unpriced_portfolio_is_worthless portfolio prices :
  (∀ asset, asset ∈ portfolio.(assets) →
     prices !! asset.(symbol) = None ∧ py_is_finite asset.(quantity) = true) →
  ∃ v, calculate_portfolio_value portfolio prices = ([], Ok v) ∧ py_is_zero v = true.
Proof. intros Hall. by apply valuation_loop_unpriced. Qed.

Lemma unpriced_portfolio_is_worthless_witness :
  ∃ v, calculate_portfolio_value portfolio1 ∅ = ([], Ok v) ∧ py_is_zero v = true.
Proof.
  apply (unpriced_portfolio_is_worthless portfolio1 ∅).
  intros asset Hin.
  repeat (apply elem_of_cons in Hin as [->|Hin]; [vm_compute; done|]).
  by apply elem_of_nil in Hin.
Defined.

(** X7: when every quantity and every price looked up is a float or an int
    below 2^53 in magnitude, the valuation raises nothing (for any portfolio
    of fewer than 2^900 entries, so that the int totals stay in the range of
    float): the [OverflowError] of the valuation needs an int of 2^53 or more. *)
Theorem valuation_never_overflows portfolio prices :
  (∀ asset, asset ∈ portfolio.(assets) →
     within_float_precision asset.(quantity) = true
     ∧ within_float_precision (dict_get prices asset.(symbol) (PInt 0)) = true) →
  Z.of_nat (length portfolio.(assets)) < 2 ^ 900 →
  ∃ v, calculate_portfolio_value portfolio prices = ([], Ok v).
Proof.
  intros Hall Hlen. apply valuation_loop_no_overflow; [done|].
  cbn [Z.abs]. change (2 ^ 1023) with (2 ^ 917 * 2 ^ 106).
  assert (2 ^ 900 < 2 ^ 917) by done. nia.
Qed.

Lemma valuation_never_overflows_witness :
  ∃ v, calculate_portfolio_value portfolio2 recorded_prices = ([], Ok v).
Proof.
  apply (valuation_never_overflows portfolio2 recorded_prices).
  - intros asset Hin.
    repeat (apply elem_of_cons in Hin as [->|Hin]; [vm_compute; done|]).
    by apply elem_of_nil in Hin.
  - vm_compute. reflexivity.
Defined.

(** Both portfolios of the notebook hold a float quantity, so their values
    are floats. *)
End ValuationProperties.

(** ** More about the comparison *)

Section ComparisonProperties.

Lemma compare_portfolios_floats x y :
  ∃ line, compare_portfolios (PFloat x) (PFloat y) = ([Print [PStr line]], Ok ()).
Proof.
  unfold compare_portfolios.
  destruct (py_gt (PFloat x) (PFloat y)); [by eexists|].
  destruct (py_gt (PFloat y) (PFloat x)); by eexists.
Qed.

Lemma difference_line_outcome a b prefix :
  (∃ line, (diff ← lift (py_sub a b);
            text ← lift (format_2f diff);
            print [PStr (prefix +:+ text +:+ "$")]) = ([Print [PStr line]], Ok ()))
  ∨ (diff ← lift (py_sub a b);
     text ← lift (format_2f diff);
     print [PStr (prefix +:+ text +:+ "$")]) = ([], Raise OverflowError).
Proof.
  destruct (py_sub a b) as [diff|e] eqn:Hsub.
  - rewrite bind_lift_Ok. destruct (format_2f diff) as [text|e] eqn:Htext.
    + rewrite bind_lift_Ok. left. by eexists.
    + right. by apply format_2f_raise in Htext as ->.
  - right. by apply py_binop_raise in Hsub as ->.
Qed.

(** X8: whatever the two values, the comparison either prints exactly one
    line and ends normally, or raises [OverflowError] (an int too large for a
    float) having printed nothing; it makes no request; and on two floats it
    always prints its line. *)
Theorem compare_portfolios_outcome (portfolio1_value portfolio2_value : pynum) :
  ((∃ line, compare_portfolios portfolio1_value portfolio2_value = ([Print [PStr line]], Ok ()))
   ∨ compare_portfolios portfolio1_value portfolio2_value = ([], Raise OverflowError))
  ∧ (is_int portfolio1_value = false → is_int portfolio2_value = false →
     ∃ line, compare_portfolios portfolio1_value portfolio2_value
             = ([Print [PStr line]], Ok ())).
Proof.
  split.
  - unfold compare_portfolios.
    destruct (py_gt portfolio1_value portfolio2_value); [apply difference_line_outcome|].
    destruct (py_gt portfolio2_value portfolio1_value); [apply difference_line_outcome|].
    left. by eexists.
  - destruct portfolio1_value as [|x], portfolio2_value as [|y]; try done.
    intros _ _. apply compare_portfolios_floats.
Qed.

Lemma compare_portfolios_outcome_witness :
  ((∃ line, compare_portfolios (PFloat 1.5) (PInt (10 ^ 400)) = ([Print [PStr line]], Ok ()))
   ∨ compare_portfolios (PFloat 1.5) (PInt (10 ^ 400)) = ([], Raise OverflowError))
  ∧ (is_int (PFloat 1.5) = false → is_int (PInt (10 ^ 400)) = false →
     ∃ line, compare_portfolios (PFloat 1.5) (PInt (10 ^ 400))
             = ([Print [PStr line]], Ok ())).
Proof. exact (compare_portfolios_outcome (PFloat 1.5) (PInt (10 ^ 400))). Defined.

(** A float below an int too large for a float: the subtraction raises. *)
Example compare_portfolios_overflow :
  compare_portfolios (PFloat 1.5) (PInt (10 ^ 400)) = ([], Raise OverflowError).
Proof. vm_compute. reflexivity. Qed.

(** X9: whenever the value of portfolio 2 exceeds that of portfolio 1 and no
    int is rounded on its way to float (two ints, two floats, or an int below
    2^53 in magnitude and a float), the line printed carries a doubled minus
    sign: "Portfolio 2 performed worse! --", the amount and "$"; the only
    other outcome is the [OverflowError] of two ints whose difference is too
    large for a float, with nothing printed. *)
Theorem compare_portfolios_double_minus (portfolio1_value portfolio2_value : pynum) :
  py_gt portfolio2_value portfolio1_value = true →
  is_int portfolio1_value = is_int portfolio2_value
  ∨ within_float_precision portfolio1_value && within_float_precision portfolio2_value = true →
  (∃ amount,
     compare_portfolios portfolio1_value portfolio2_value
     = ([Print [PStr ("Portfolio 2 performed worse! --" +:+ amount +:+ "$")]], Ok ()))
  ∨ (is_int portfolio1_value && is_int portfolio2_value = true
     ∧ compare_portfolios portfolio1_value portfolio2_value = ([], Raise OverflowError)).
Proof.
  intros Hgt Hkind. unfold compare_portfolios. rewrite Hgt.
  unfold py_gt in *. rewrite (py_lt_asym _ _ Hgt).
  destruct (py_sub_sign _ _ Hkind) as (diff & Hsub & Hneg & _).
  specialize (Hneg Hgt). rewrite Hsub, bind_lift_Ok.
  destruct (format_2f diff) as [text|e] eqn:Htext.
  - left. destruct (format_2f_negative _ _ Hneg Htext) as [amount ->].
    exists amount. by rewrite bind_lift_Ok.
  - right. apply format_2f_raise in Htext as He. subst e. split; [|done].
    destruct diff as [z|f]; [|done].
    by rewrite <-(py_binop_is_int _ _ _ _ _ Hsub).
Qed.

Lemma compare_portfolios_double_minus_witness :
  (∃ amount,
     compare_portfolios (PInt 95944) (PFloat 95976.369965389007)
     = ([Print [PStr ("Portfolio 2 performed worse! --" +:+ amount +:+ "$")]], Ok ()))
  ∨ (is_int (PInt 95944) && is_int (PFloat 95976.369965389007) = true
     ∧ compare_portfolios (PInt 95944) (PFloat 95976.369965389007)
       = ([], Raise OverflowError)).
Proof.
  apply (compare_portfolios_double_minus (PInt 95944) (PFloat 95976.369965389007)).
  - vm_compute. reflexivity.
  - right. vm_compute. reflexivity.
Defined.

(** The other outcome: two ints whose difference no float can hold. *)
Example compare_portfolios_int_overflow :
  compare_portfolios (PInt 0) (PInt (10 ^ 400)) = ([], Raise OverflowError).
Proof. vm_compute. reflexivity. Qed.

(** X10: whenever the value of portfolio 1 exceeds that of portfolio 2 and no
    int is rounded on its way to float, the difference that the first branch
    formats after "AI Portfolio performed better! " is strictly positive:
    rounding never brings it down to zero or below. *)
Theorem compare_portfolios_better_positive (portfolio1_value portfolio2_value : pynum) :
  py_gt portfolio1_value portfolio2_value = true →
  is_int portfolio1_value = is_int portfolio2_value
  ∨ within_float_precision portfolio1_value && within_float_precision portfolio2_value = true →
  ∃ diff,
    py_sub portfolio1_value portfolio2_value = Ok diff
    ∧ py_gt diff (PInt 0) = true
    ∧ compare_portfolios portfolio1_value portfolio2_value
      = (text ← lift (format_2f diff);
         print [PStr ("AI Portfolio performed better! " +:+ text +:+ "$")]).
Proof.
  intros Hgt Hkind. unfold compare_portfolios. rewrite Hgt.
  destruct (py_sub_sign _ _ Hkind) as (diff & -> & _ & Hpos).
  exists diff. split_and!; [done|by apply Hpos|]. by rewrite bind_lift_Ok.
Qed.

Lemma compare_portfolios_better_positive_witness :
  ∃ diff,
    py_sub (PFloat 95976.369965389007) (PFloat 95944.515210913756) = Ok diff
    ∧ py_gt diff (PInt 0) = true
    ∧ compare_portfolios (PFloat 95976.369965389007) (PFloat 95944.515210913756)
      = (text ← lift (format_2f diff);
         print [PStr ("AI Portfolio performed better! " +:+ text +:+ "$")]).
Proof.
  apply (compare_portfolios_better_positive
           (PFloat 95976.369965389007) (PFloat 95944.515210913756)).
  - vm_compute. reflexivity.
  - left. reflexivity.
Defined.

(** Beyond 2^53 the difference printed for a larger portfolio 1 can be zero. *)
Example better_difference_zero :
  compare_portfolios (PFloat 9007199254740996) (PInt 9007199254740995)
  = ([Print [PStr "AI Portfolio performed better! 0.00$"]], Ok ()).
Proof. vm_compute. reflexivity. Qed.

(** X11: the line "Both portfolios have the same value!" is what the
    comparison prints exactly when the two values are equal (an int and a
    float compared exactly) or one of them is a NaN; in every other case the
    outcome is another one. *)
Theorem compare_portfolios_same_iff (portfolio1_value portfolio2_value : pynum) :
  compare_portfolios portfolio1_value portfolio2_value
  = ([Print [PStr "Both portfolios have the same value!"]], Ok ())
  ↔ py_eq portfolio1_value portfolio2_value = true
    ∨ py_is_nan portfolio1_value = true
    ∨ py_is_nan portfolio2_value = true.
Proof.
  rewrite <-py_gt_neither. unfold compare_portfolios. split.
  - destruct (py_gt portfolio1_value portfolio2_value).
    { destruct (py_sub _ _) as [diff|e]; [|done]. rewrite bind_lift_Ok.
      destruct (format_2f diff) as [text|e]; [|done]. rewrite bind_lift_Ok.
      intros [=]. }
    destruct (py_gt portfolio2_value portfolio1_value); [|done].
    destruct (py_sub _ _) as [diff|e]; [|done]. rewrite bind_lift_Ok.
    destruct (format_2f diff) as [text|e]; [|done]. rewrite bind_lift_Ok.
    intros [=].
  - by intros [-> ->].
Qed.

Lemma compare_portfolios_same_iff_witness :
  compare_portfolios (PFloat nan) (PInt 5)
  = ([Print [PStr "Both portfolios have the same value!"]], Ok ()).
Proof.
  apply (compare_portfolios_same_iff (PFloat nan) (PInt 5)).
  right. left. vm_compute. reflexivity.
Defined.

End ComparisonProperties.

(** ** The cell on an answer of any shape *)

Section Untyped.

Implicit Types (data : json) (prices : gmap string json) (allocates : Z → bool).
Implicit Types (assets : list Asset) (portfolio : Portfolio).

(** *** The fetch *)

Lemma price_of_untyped_id data symbol id :
  (symbol, id) ∈ COINGECKO_IDS → price_of_untyped data symbol = usd_lookup data id.
Proof.
  intros Hin. unfold price_of_untyped, usd_lookup.
  destruct (as_dict data) as [members|e]; [|done]. cbn [mbind result_bind].
  by rewrite (getitem_elem_of _ _ _ COINGECKO_IDS_NoDup Hin).
Qed.


Lemma entry_of_ids (entry : string * string) :
  entry ∈ COINGECKO_IDS → (entry.1, entry.2) ∈ COINGECKO_IDS ∧ entry.2 ∈ COINGECKO_IDS.*2.
Proof.
  intros Hin. destruct entry as [symbol id]. split; [done|].
  apply list_elem_of_fmap. by exists (symbol, id).
Qed.

(** The comprehension on lookups that succeed. *)
Lemma prices_comprehension_untyped_fold data (quote : string → json) entries acc :
  entries ⊆ COINGECKO_IDS →
  (∀ entry, entry ∈ entries → usd_lookup data entry.2 = Ok (quote entry.2)) →
  prices_comprehension_untyped data entries.*1 acc
  = Ok (foldl (λ acc entry, <[entry.1 := quote entry.2]> acc) acc entries).
Proof.
  revert acc. induction entries as [|entry rest IH]; intros acc Hsub Hquotes; [done|].
  cbn [fmap list_fmap prices_comprehension_untyped foldl].
  destruct (entry_of_ids entry) as [Hentry _]; [apply Hsub, list_elem_of_here|].
  rewrite (price_of_untyped_id _ _ _ Hentry), (Hquotes entry) by apply list_elem_of_here.
  cbn [mbind result_bind]. apply IH.
  - intros x Hx. apply Hsub. by apply list_elem_of_further.
  - intros x Hx. apply Hquotes. by apply list_elem_of_further.
Qed.

(** The comprehension reads the answer through the lookups only. *)
Lemma prices_comprehension_untyped_ext data data' entries acc :
  entries ⊆ COINGECKO_IDS →
  (∀ entry, entry ∈ entries → usd_lookup data entry.2 = usd_lookup data' entry.2) →
  prices_comprehension_untyped data entries.*1 acc
  = prices_comprehension_untyped data' entries.*1 acc.
Proof.
  revert acc. induction entries as [|entry rest IH]; intros acc Hsub Hagree; [done|].
  cbn [fmap list_fmap prices_comprehension_untyped].
  destruct (entry_of_ids entry) as [Hentry _]; [apply Hsub, list_elem_of_here|].
  rewrite !(price_of_untyped_id _ _ _ Hentry), (Hagree entry) by apply list_elem_of_here.
  destruct (usd_lookup data' entry.2) as [price|e]; [|done].
  cbn [mbind result_bind]. apply IH.
  - intros x Hx. apply Hsub. by apply list_elem_of_further.
  - intros x Hx. apply Hagree. by apply list_elem_of_further.
Qed.


Lemma fetch_crypto_prices_untyped_Raise requests_get e :
  requests_get url params = Raise e →
  fetch_crypto_prices_untyped requests_get = ([HttpGet url params], Raise e).
Proof.
  intros Hget. unfold fetch_crypto_prices_untyped.
  by rewrite Hget, bind_emit, bind_lift_Raise.
Qed.

Lemma fetch_crypto_prices_untyped_Ok requests_get data :
  requests_get url params = Ok data →
  fetch_crypto_prices_untyped requests_get
  = match prices_comprehension_untyped data COINGECKO_IDS.*1 ∅ with
    | Ok prices =>
        ([HttpGet url params; Print [PStr "Fetched Prices:"; PValues prices]], Ok prices)
    | Raise e => ([HttpGet url params], Raise e)
    end.
Proof.
  intros Hget. unfold fetch_crypto_prices_untyped.
  rewrite Hget, bind_emit, bind_lift_Ok.
  destruct (prices_comprehension_untyped data COINGECKO_IDS.*1 ∅) as [prices|e]; [|done].
  by rewrite bind_lift_Ok.
Qed.

(** On a well-formed answer the fetch is [fetch_crypto_prices]: the same
    events and the same prices, seen as values. *)
Lemma price_of_untyped_well_formed (data : quotes) symbol :
  price_of_untyped (json_of_quotes data) symbol
  = (price ← price_of data symbol; Ok (JNum price)).
Proof.
  unfold price_of_untyped, price_of, json_of_quotes. cbn [as_dict mbind result_bind].
  destruct (getitem COINGECKO_IDS symbol) as [id|e]; [|done]. cbn [mbind result_bind].
  unfold dict_get. rewrite lookup_fmap.
  destruct (data !! id) as [quote|]; cbn [fmap option_fmap option_map as_dict mbind result_bind].
  - rewrite lookup_fmap. by destruct (quote !! "usd").
  - by rewrite !lookup_empty.
Qed.

Lemma prices_comprehension_untyped_well_formed (data : quotes) symbols (acc : price_map) :
  prices_comprehension_untyped (json_of_quotes data) symbols
    (JNum <$> (acc : gmap string pynum))
  = (prices ← prices_comprehension data symbols acc;
     Ok (JNum <$> (prices : gmap string pynum))).
Proof.
  revert acc. induction symbols as [|symbol rest IH]; intros acc; [done|].
  cbn [prices_comprehension_untyped prices_comprehension].
  rewrite price_of_untyped_well_formed.
  destruct (price_of data symbol) as [price|e]; [|done]. cbn [mbind result_bind].
  by rewrite <-fmap_insert, IH.
Qed.

Lemma fetch_crypto_prices_untyped_well_formed
    (requests_get : string → list (string * string) → result quotes) :
  fetch_crypto_prices_untyped (λ u p, data ← requests_get u p; Ok (json_of_quotes data))
  = match fetch_crypto_prices requests_get with
    | (t, Ok prices) =>
        ([ HttpGet url params;
           Print [PStr "Fetched Prices:"; PValues (JNum <$> (prices : gmap string pynum))] ],
         Ok (JNum <$> (prices : gmap string pynum)))
    | (t, Raise e) => (t, Raise e)
    end.
Proof.
  destruct (requests_get url params) as [data|e] eqn:Hget.
  - destruct (fetch_crypto_prices_Ok _ _ Hget) as (prices & Hfetch & _).
    rewrite Hfetch.
    rewrite (fetch_crypto_prices_untyped_Ok _ (json_of_quotes data)) by (by rewrite Hget).
    pose proof (prices_comprehension_untyped_well_formed data COINGECKO_IDS.*1 ∅) as Hcomp.
    rewrite fmap_empty in Hcomp. rewrite Hcomp.
    unfold fetch_crypto_prices in Hfetch. rewrite Hget, bind_emit, bind_lift_Ok in Hfetch.
    destruct (prices_comprehension data COINGECKO_IDS.*1 ∅) as [prices'|e]; [|done].
    rewrite bind_lift_Ok in Hfetch. by injection Hfetch as <-.
  - rewrite (fetch_crypto_prices_Raise _ _ Hget).
    apply fetch_crypto_prices_untyped_Raise. by rewrite Hget.
Qed.

(** *** The valuation *)

Lemma valuation_loop_untyped_cons allocates prices asset rest total_value :
  valuation_loop_untyped allocates prices (asset :: rest) total_value
  = (product ← lift (py_mul_json allocates asset.(quantity)
                       (dict_get prices asset.(symbol) (JNum (PInt 0))));
     total_value ← lift (py_add_product total_value product);
     valuation_loop_untyped allocates prices rest total_value).
Proof. reflexivity. Qed.

Lemma valuation_loop_untyped_events allocates prices assets total_value :
  (valuation_loop_untyped allocates prices assets total_value).1 = [].
Proof.
  revert total_value. induction assets as [|asset rest IH]; intros total_value; [done|].
  rewrite valuation_loop_untyped_cons. apply bind_lift_events. intros product.
  apply bind_lift_events. intros total'. apply IH.
Qed.

Lemma valuation_loop_untyped_lift allocates prices assets total_value :
  valuation_loop_untyped allocates prices assets total_value
  = lift (valuation_loop_untyped allocates prices assets total_value).2.
Proof.
  unfold lift. rewrite <-(valuation_loop_untyped_events allocates prices assets total_value).
  by destruct (valuation_loop_untyped _ _ _ _).
Qed.

Lemma py_repeat_raise allocates is_str count len e :
  py_repeat allocates is_str count len = Raise e → e = OverflowError ∨ e = MemoryError.
Proof.
  unfold py_repeat.
  repeat (match goal with |- context [if ?b then _ else _] => destruct b end);
    intros [= <-]; auto.
Qed.

Lemma py_mul_json_raise allocates quantity price e :
  py_mul_json allocates quantity price = Raise e →
  e = OverflowError ∨ e = TypeError ∨ e = MemoryError.
Proof.
  destruct price as [|b|p|s|items|members]; cbn [py_mul_json].
  - intros [= <-]. auto.
  - destruct (py_mul quantity _) eqn:Hmul; [done|]. intros [= <-].
    left. by eapply py_binop_raise.
  - destruct (py_mul quantity p) eqn:Hmul; [done|]. intros [= <-].
    left. by eapply py_binop_raise.
  - destruct quantity as [count|?]; [|intros [= <-]; auto].
    destruct (py_repeat _ _ _ _) eqn:Hrepeat; [done|]. intros [= <-].
    apply py_repeat_raise in Hrepeat as [->| ->]; auto.
  - destruct quantity as [count|?]; [|intros [= <-]; auto].
    destruct (py_repeat _ _ _ _) eqn:Hrepeat; [done|]. intros [= <-].
    apply py_repeat_raise in Hrepeat as [->| ->]; auto.
  - intros [= <-]. auto.
Qed.

Lemma py_add_product_raise total_value p e :
  py_add_product total_value p = Raise e → e = OverflowError ∨ e = TypeError.
Proof.
  destruct p as [n|]; cbn [py_add_product].
  - intros Hadd. left. by eapply py_binop_raise.
  - intros [= <-]. auto.
Qed.

(** The valuation raises nothing but these three. *)
Lemma valuation_loop_untyped_raise allocates prices assets total_value e :
  (valuation_loop_untyped allocates prices assets total_value).2 = Raise e →
  e = OverflowError ∨ e = TypeError ∨ e = MemoryError.
Proof.
  revert total_value. induction assets as [|asset rest IH]; intros total_value; [done|].
  rewrite valuation_loop_untyped_cons.
  destruct (py_mul_json _ _ _) as [product|e'] eqn:Hmul.
  2: { rewrite bind_lift_Raise. intros [= <-]. by eapply py_mul_json_raise. }
  rewrite bind_lift_Ok.
  destruct (py_add_product total_value product) as [total'|e'] eqn:Hadd.
  2: { rewrite bind_lift_Raise. intros [= <-].
       apply py_add_product_raise in Hadd as [->| ->]; auto. }
  rewrite bind_lift_Ok. apply IH.
Qed.

Lemma py_mul_json_is_int allocates quantity price n :
  py_mul_json allocates quantity price = Ok (Number n) →
  is_int n = true → is_int quantity = true.
Proof.
  destruct price as [|b|p|s|items|members]; cbn [py_mul_json]; try done.
  - destruct (py_mul quantity _) as [m|] eqn:Hmul; [|done]. intros [= <-] Hint.
    apply py_binop_is_int in Hmul. rewrite Hint in Hmul. by destruct (is_int quantity).
  - destruct (py_mul quantity p) as [m|] eqn:Hmul; [|done]. intros [= <-] Hint.
    apply py_binop_is_int in Hmul. rewrite Hint in Hmul. by destruct (is_int quantity).
  - destruct quantity; [|done]. by destruct (py_repeat _ _ _ _).
  - destruct quantity; [|done]. by destruct (py_repeat _ _ _ _).
Qed.

(** An int value needs int quantities throughout. *)
Lemma valuation_loop_untyped_int allocates prices assets total_value v :
  (valuation_loop_untyped allocates prices assets total_value).2 = Ok v →
  is_int v = true →
  is_int total_value = true ∧ Forall (λ asset, is_int asset.(quantity) = true) assets.
Proof.
  revert total_value. induction assets as [|asset rest IH]; intros total_value.
  { intros [= <-] Hint. by split. }
  rewrite valuation_loop_untyped_cons.
  destruct (py_mul_json _ _ _) as [product|e] eqn:Hmul; [|done]. rewrite bind_lift_Ok.
  destruct (py_add_product total_value product) as [total'|e] eqn:Hadd; [|done].
  rewrite bind_lift_Ok. intros Hv Hint.
  destruct (IH _ Hv Hint) as [Htotal' Hrest].
  destruct product as [n|]; [|done]. cbn [py_add_product] in Hadd.
  apply py_binop_is_int in Hadd. rewrite Htotal' in Hadd.
  symmetry in Hadd. apply andb_prop in Hadd as [Htotal Hn].
  split; [done|]. apply Forall_cons. split; [|done].
  by eapply py_mul_json_is_int.
Qed.

(** On prices that are numbers the valuation is [calculate_portfolio_value]. *)
Lemma valuation_loop_untyped_numbers allocates prices (numbers : price_map) assets total_value :
  (∀ asset, asset ∈ assets →
     dict_get prices asset.(symbol) (JNum (PInt 0))
     = JNum (dict_get numbers asset.(symbol) (PInt 0))) →
  valuation_loop_untyped allocates prices assets total_value
  = valuation_loop numbers assets total_value.
Proof.
  revert total_value. induction assets as [|asset rest IH]; intros total_value Hnumbers; [done|].
  rewrite valuation_loop_untyped_cons, valuation_loop_cons. unfold contribution.
  rewrite (Hnumbers asset) by apply list_elem_of_here. cbn [py_mul_json].
  destruct (py_mul _ _) as [product|e]; [|done]. cbn [mbind result_bind].
  rewrite !bind_lift_Ok. cbn [py_add_product].
  destruct (py_add total_value product) as [total'|e]; [|done]. rewrite !bind_lift_Ok.
  apply IH. intros a Ha. apply Hnumbers. by apply list_elem_of_further.
Qed.

Lemma calculate_portfolio_value_untyped_numbers allocates portfolio (numbers : price_map) :
  calculate_portfolio_value_untyped allocates portfolio
    (JNum <$> (numbers : gmap string pynum))
  = calculate_portfolio_value portfolio numbers.
Proof.
  apply valuation_loop_untyped_numbers. intros asset _. unfold dict_get.
  rewrite lookup_fmap. by destruct (numbers !! asset.(symbol)).
Qed.

Lemma dict_get_numbers_of prices symbol n :
  dict_get prices symbol (JNum (PInt 0)) = JNum n →
  dict_get (numbers_of prices) symbol (PInt 0) = n.
Proof.
  unfold dict_get, numbers_of. rewrite lookup_omap.
  destruct (prices !! symbol) as [v|]; cbn.
  - by intros ->.
  - by intros [= <-].
Qed.

(** A price of the dict that the comprehension builds is a quote or is
    missing. *)
Lemma quoted_prices_lookup (quote : string → json) symbol default :
  dict_get (quoted_prices quote) symbol default = default
  ∨ ∃ id, id ∈ COINGECKO_IDS.*2 ∧ dict_get (quoted_prices quote) symbol default = quote id.
Proof.
  unfold quoted_prices, dict_get.
  assert (∀ entries (acc : gmap string json),
            entries ⊆ COINGECKO_IDS →
            foldl (λ acc entry, <[entry.1 := quote entry.2]> acc) acc entries !! symbol
            = acc !! symbol
            ∨ ∃ id, id ∈ COINGECKO_IDS.*2
                    ∧ foldl (λ acc entry, <[entry.1 := quote entry.2]> acc) acc entries
                        !! symbol = Some (quote id)) as Hfold.
  { induction entries as [|entry rest IH]; intros acc Hsub; [by left|].
    cbn [foldl].
    destruct (IH (<[entry.1 := quote entry.2]> acc)) as [Hacc|Hquote].
    - intros x Hx. apply Hsub. by apply list_elem_of_further.
    - destruct (decide (entry.1 = symbol)) as [Heq|Hne].
      + right. exists entry.2. split; [apply entry_of_ids, Hsub, list_elem_of_here|].
        by rewrite Hacc, Heq, lookup_insert_eq.
      + left. by rewrite Hacc, lookup_insert_ne.
    - by right. }
  destruct (Hfold COINGECKO_IDS ∅) as [Hempty|(id & Hid & Hquote)]; [done| |].
  - left. by rewrite Hempty, lookup_empty.
  - right. exists id. split; [done|]. by rewrite Hquote.
Qed.

Lemma calculate_portfolio_value_untyped_lift allocates portfolio prices :
  calculate_portfolio_value_untyped allocates portfolio prices
  = lift (calculate_portfolio_value_untyped allocates portfolio prices).2.
Proof. apply valuation_loop_untyped_lift. Qed.

(** Both portfolios of the notebook hold a float quantity, so their values
    are floats whatever the prices are. *)
Lemma portfolio1_value_untyped_float allocates prices v :
  (calculate_portfolio_value_untyped allocates portfolio1 prices).2 = Ok v →
  is_int v = false.
Proof.
  intros Hv. destruct (is_int v) eqn:Hint; [|done].
  destruct (valuation_loop_untyped_int _ _ _ _ _ Hv Hint) as [_ Hquantities].
  by apply Forall_cons in Hquantities as [? _].
Qed.

Lemma portfolio2_value_untyped_float allocates prices v :
  (calculate_portfolio_value_untyped allocates portfolio2 prices).2 = Ok v →
  is_int v = false.
Proof.
  intros Hv. destruct (is_int v) eqn:Hint; [|done].
  destruct (valuation_loop_untyped_int _ _ _ _ _ Hv Hint) as [_ Hquantities].
  apply Forall_cons in Hquantities as [_ Hquantities].
  apply Forall_cons in Hquantities as [_ Hquantities].
  by apply Forall_cons in Hquantities as [? _].
Qed.

(** *** The whole cell *)

(** The cell once the prices are fetched. *)
Lemma main_fetched requests_get allocates data prices :
  requests_get url params = Ok data →
  prices_comprehension_untyped data COINGECKO_IDS.*1 ∅ = Ok prices →
  let fetched := [HttpGet url params; Print [PStr "Fetched Prices:"; PValues prices]] in
  (∃ e, (e = OverflowError ∨ e = TypeError ∨ e = MemoryError)
        ∧ main requests_get allocates = (fetched, Raise e)
        ∧ ((calculate_portfolio_value_untyped allocates portfolio1 prices).2 = Raise e
           ∨ (∃ v1, (calculate_portfolio_value_untyped allocates portfolio1 prices).2 = Ok v1)
             ∧ (calculate_portfolio_value_untyped allocates portfolio2 prices).2 = Raise e))
  ∨ ∃ v1 v2 line,
      calculate_portfolio_value_untyped allocates portfolio1 prices = ([], Ok (PFloat v1))
      ∧ calculate_portfolio_value_untyped allocates portfolio2 prices = ([], Ok (PFloat v2))
      ∧ compare_portfolios (PFloat v1) (PFloat v2) = ([Print [PStr line]], Ok ())
      ∧ main requests_get allocates
        = (fetched ++
           [ Print [PStr ("Portfolio 1 Total Value: $" +:+ format_float_2f v1 +:+ " USDT")];
             Print [PStr ("Portfolio 2 Total Value: $" +:+ format_float_2f v2 +:+ " USDT")];
             Print [PStr line] ],
           Ok ()).
Proof.
  intros Hget Hprices. cbv zeta. unfold main.
  rewrite (fetch_crypto_prices_untyped_Ok _ _ Hget), Hprices, bind_events. cbn [fst snd].
  rewrite (calculate_portfolio_value_untyped_lift allocates portfolio1 prices).
  destruct (calculate_portfolio_value_untyped allocates portfolio1 prices).2
    as [v1|e] eqn:Hv1.
  2: { left. exists e. split_and!.
       - by eapply valuation_loop_untyped_raise.
       - rewrite bind_lift_Raise. cbn [fst snd]. by rewrite app_nil_r.
       - by left. }
  rewrite bind_lift_Ok.
  rewrite (calculate_portfolio_value_untyped_lift allocates portfolio2 prices).
  destruct (calculate_portfolio_value_untyped allocates portfolio2 prices).2
    as [v2|e] eqn:Hv2.
  2: { left. exists e. split_and!.
       - by eapply valuation_loop_untyped_raise.
       - rewrite bind_lift_Raise. cbn [fst snd]. by rewrite app_nil_r.
       - right. eauto. }
  rewrite bind_lift_Ok.
  apply portfolio1_value_untyped_float in Hv1 as Hf1.
  apply portfolio2_value_untyped_float in Hv2 as Hf2.
  destruct v1 as [|v1], v2 as [|v2]; try done.
  destruct (compare_portfolios_floats v1 v2) as [line Hline].
  right. exists v1, v2, line. split_and!; [done..|].
  cbn [format_2f]. unfold print.
  rewrite bind_lift_Ok, bind_emit, bind_lift_Ok, bind_emit, Hline.
  reflexivity.
Qed.


(** The whole cell, run on the provider's recorded answer, issues one query
    and prints the lines recorded in the notebook. *)
Example main_recorded_output allocates :
  main (λ _ _, Ok recorded_answer) allocates
  = ([ HttpGet url params;
       Print [PStr "Fetched Prices:";
              PValues (JNum <$> (recorded_prices : gmap string pynum))];
       Print [PStr "Portfolio 1 Total Value: $95976.37 USDT"];
       Print [PStr "Portfolio 2 Total Value: $95944.52 USDT"];
       Print [PStr "AI Portfolio performed better! 31.85$"] ],
     Ok ()).
Proof. vm_compute. reflexivity. Qed.

(** The shapes of failure. An answer that is no dict, and a member that is
    no dict under an id: nothing is printed. *)
Example main_answer_no_dict allocates :
  main (λ _ _, Ok (JList [])) allocates = ([HttpGet url params], Raise AttributeError)
  ∧ main (λ _ _, Ok (recorded_answer_with "bitcoin" (JNum (PInt 5)))) allocates
    = ([HttpGet url params], Raise AttributeError)
  ∧ main (λ _ _, Ok (recorded_answer_with "bitcoin" JNull)) allocates
    = ([HttpGet url params], Raise AttributeError).
Proof. vm_compute. done. Qed.

(** A quote that is [null], a str or a dict: the prices are printed, and the
    first valuation raises [TypeError]. *)
Example main_quote_no_number allocates :
  main (λ _ _, Ok (recorded_answer_with "bitcoin" (JDict {[ "usd" := JNull ]}))) allocates
  = ([ HttpGet url params;
       Print [PStr "Fetched Prices:"; PValues (recorded_prices_with "BTC" JNull)] ],
     Raise TypeError)
  ∧ main (λ _ _, Ok (recorded_answer_with "bitcoin" (JDict {[ "usd" := JStr "84417" ]})))
      allocates
    = ([ HttpGet url params;
         Print [PStr "Fetched Prices:"; PValues (recorded_prices_with "BTC" (JStr "84417"))] ],
       Raise TypeError)
  ∧ main (λ _ _, Ok (recorded_answer_with "bitcoin" (JDict {[ "usd" := JDict ∅ ]}))) allocates
    = ([ HttpGet url params;
         Print [PStr "Fetched Prices:"; PValues (recorded_prices_with "BTC" (JDict ∅))] ],
       Raise TypeError).
Proof. vm_compute. done. Qed.

(** A quote that is a str, of a coin held in an int quantity: the product is
    the str repeated, which raises [MemoryError] when it cannot be allocated,
    and otherwise cannot be added to the total. *)
Example main_quote_repeated :
  main (λ _ _, Ok (recorded_answer_with "okb" (JDict {[ "usd" := JStr "48.4" ]})))
    (λ _, true)
  = ([ HttpGet url params;
       Print [PStr "Fetched Prices:"; PValues (recorded_prices_with "OKB" (JStr "48.4"))] ],
     Raise TypeError)
  ∧ main (λ _ _, Ok (recorded_answer_with "okb" (JDict {[ "usd" := JStr "48.4" ]})))
      (λ _, false)
    = ([ HttpGet url params;
         Print [PStr "Fetched Prices:";
                PValues (recorded_prices_with "OKB" (JStr "48.4"))] ],
       Raise MemoryError).
Proof. vm_compute. done. Qed.

(** A quote that is [true] counts as the price 1. *)
Example main_quote_bool allocates :
  main (λ _ _, Ok (recorded_answer_with "bitcoin" (JDict {[ "usd" := JBool true ]}))) allocates
  = ([ HttpGet url params;
       Print [PStr "Fetched Prices:"; PValues (recorded_prices_with "BTC" (JBool true))];
       Print [PStr "Portfolio 1 Total Value: $10555.80 USDT"];
       Print [PStr "Portfolio 2 Total Value: $11528.52 USDT"];
       Print [PStr "Portfolio 2 performed worse! --972.72$"] ],
     Ok ()).
Proof. vm_compute. reflexivity. Qed.

(** A quote beyond the range of float stops the cell after the prices. *)
Example main_overflow allocates :
  main (λ _ _, Ok (recorded_answer_with "bitcoin" (JDict {[ "usd" := JNum (PInt (10 ^ 400)) ]})))
    allocates
  = ([ HttpGet url params;
       Print [PStr "Fetched Prices:";
              PValues (recorded_prices_with "BTC" (JNum (PInt (10 ^ 400))))] ],
     Raise OverflowError).
Proof. vm_compute. reflexivity. Qed.

(** X13: when the answer is a dict in which, for each of the eight ids, the
    lookup [data.get(id, {}).get("usd", 0)] succeeds with a float or an int
    below 2^53 in magnitude (the member under the id is missing, or is a dict
    whose "usd" is missing or such a number), the cell runs to its end: it
    prints the prices, the two totals and the line of the comparison, and
    raises nothing. *)
Theorem main_completes requests_get allocates data (quote : string → pynum) :
  requests_get url params = Ok data →
  (∀ id, id ∈ COINGECKO_IDS.*2 →
     usd_lookup data id = Ok (JNum (quote id))
     ∧ within_float_precision (quote id) = true) →
  ∃ text1 text2 line,
    main requests_get allocates
    = ([ HttpGet url params;
         Print [PStr "Fetched Prices:"; PValues (quoted_prices (λ id, JNum (quote id)))];
         Print [PStr ("Portfolio 1 Total Value: $" +:+ text1 +:+ " USDT")];
         Print [PStr ("Portfolio 2 Total Value: $" +:+ text2 +:+ " USDT")];
         Print [PStr line] ],
       Ok ()).
Proof.
  intros Hget Hquotes.
  set (prices := quoted_prices (λ id, JNum (quote id))).
  assert (prices_comprehension_untyped data COINGECKO_IDS.*1 ∅ = Ok prices) as Hprices.
  { apply (prices_comprehension_untyped_fold data (λ id, JNum (quote id))); [done|].
    intros entry Hentry. apply Hquotes. by apply entry_of_ids. }
  assert (∀ symbol,
            dict_get prices symbol (JNum (PInt 0))
            = JNum (dict_get (numbers_of prices) symbol (PInt 0))
            ∧ within_float_precision (dict_get (numbers_of prices) symbol (PInt 0)) = true)
    as Hnumbers.
  { intros symbol.
    destruct (quoted_prices_lookup (λ id, JNum (quote id)) symbol (JNum (PInt 0)))
      as [Hzero|(id & Hid & Hquote)]; fold prices in Hzero || fold prices in Hquote.
    - rewrite Hzero, (dict_get_numbers_of _ _ _ Hzero). by split.
    - rewrite Hquote, (dict_get_numbers_of _ _ _ Hquote). split; [done|].
      by apply Hquotes. }
  assert (∀ portfolio,
            (∀ asset, asset ∈ portfolio.(assets) →
               within_float_precision asset.(quantity) = true) →
            Z.of_nat (length portfolio.(assets)) * 2 ^ 106 < 2 ^ 1023 →
            ∃ v, (calculate_portfolio_value_untyped allocates portfolio prices).2 = Ok v)
    as Hvalue.
  { intros portfolio Hquantities Hlength.
    unfold calculate_portfolio_value_untyped.
    rewrite (valuation_loop_untyped_numbers _ _ (numbers_of prices))
      by (intros asset _; apply Hnumbers).
    destruct (valuation_loop_no_overflow (numbers_of prices) portfolio.(assets) (PInt 0))
      as [v Hv]; [|done|].
    - intros asset Hin. split; [by apply Hquantities|apply Hnumbers].
    - exists v. by rewrite Hv. }
  destruct (Hvalue portfolio1) as [v1 Hv1]; [|done|].
  { intros asset Hin.
    repeat (apply elem_of_cons in Hin as [->|Hin]; [done|]). by apply elem_of_nil in Hin. }
  destruct (Hvalue portfolio2) as [v2 Hv2]; [|done|].
  { intros asset Hin.
    repeat (apply elem_of_cons in Hin as [->|Hin]; [done|]). by apply elem_of_nil in Hin. }
  destruct (main_fetched _ allocates _ _ Hget Hprices)
    as [(e & _ & _ & [Hraise|[_ Hraise]])|(f1 & f2 & line & _ & _ & _ & ->)].
  - by rewrite Hv1 in Hraise.
  - by rewrite Hv2 in Hraise.
  - by exists (format_float_2f f1), (format_float_2f f2), line.
Qed.

Lemma main_completes_witness :
  ∃ text1 text2 line,
    main (λ _ _, Ok recorded_answer) (λ _, false)
    = ([ HttpGet url params;
         Print [PStr "Fetched Prices:";
                PValues (quoted_prices
                           (λ id, JNum (dict_get (dict_get recorded_quotes id ∅) "usd"
                                          (PInt 0))))];
         Print [PStr ("Portfolio 1 Total Value: $" +:+ text1 +:+ " USDT")];
         Print [PStr ("Portfolio 2 Total Value: $" +:+ text2 +:+ " USDT")];
         Print [PStr line] ],
       Ok ()).
Proof.
  apply (main_completes (λ _ _, Ok recorded_answer) (λ _, false) recorded_answer
           (λ id, dict_get (dict_get recorded_quotes id ∅) "usd" (PInt 0)));
    [reflexivity|].
  intros id Hid.
  repeat (apply elem_of_cons in Hid as [->|Hid]; [vm_compute; done|]).
  by apply elem_of_nil in Hid.
Defined.

(** X14: when the answer is a dict in which, for each of the eight ids, the
    lookup [data.get(id, {}).get("usd", 0)] gives the int 0 (the member under
    the id is missing, as in an error report, or is a dict without "usd"),
    nothing fails: the cell prints every price as 0, both totals as $0.00 and
    "Both portfolios have the same value!". *)
Theorem main_without_quotes requests_get allocates data :
  requests_get url params = Ok data →
  (∀ id, id ∈ COINGECKO_IDS.*2 → usd_lookup data id = Ok (JNum (PInt 0))) →
  main requests_get allocates
  = ([ HttpGet url params;
       Print [PStr "Fetched Prices:"; PValues unquoted_prices];
       Print [PStr "Portfolio 1 Total Value: $0.00 USDT"];
       Print [PStr "Portfolio 2 Total Value: $0.00 USDT"];
       Print [PStr "Both portfolios have the same value!"] ],
     Ok ()).
Proof.
  intros Hget Hzero. unfold main.
  rewrite (fetch_crypto_prices_untyped_Ok _ _ Hget).
  rewrite (prices_comprehension_untyped_fold data (λ _, JNum (PInt 0)) COINGECKO_IDS ∅);
    [|done|].
  2: { intros entry Hentry. apply Hzero. by apply entry_of_ids. }
  fold (quoted_prices (λ _, JNum (PInt 0))). fold unquoted_prices.
  vm_compute. reflexivity.
Qed.

Lemma main_without_quotes_witness :
  main (λ _ _, Ok error_body) (λ _, false)
  = ([ HttpGet url params;
       Print [PStr "Fetched Prices:"; PValues unquoted_prices];
       Print [PStr "Portfolio 1 Total Value: $0.00 USDT"];
       Print [PStr "Portfolio 2 Total Value: $0.00 USDT"];
       Print [PStr "Both portfolios have the same value!"] ],
     Ok ()).
Proof.
  apply (main_without_quotes (λ _ _, Ok error_body) (λ _, false) error_body); [reflexivity|].
  intros id Hid.
  repeat (apply elem_of_cons in Hid as [->|Hid]; [vm_compute; reflexivity|]).
  by apply elem_of_nil in Hid.
Defined.

(** The fetch returns the price map that belongs to the answer. *)
Lemma fetch_crypto_prices_closed requests_get (data : quotes) :
  requests_get url params = Ok data →
  fetch_crypto_prices requests_get
  = ([HttpGet url params; Print [PStr "Fetched Prices:"; PDict (translated_prices data)]],
     Ok (translated_prices data)).
Proof.
  intros Hget.
  destruct (fetch_crypto_prices_Ok _ _ Hget) as (prices & -> & Hin & Hout).
  assert (prices = translated_prices data) as ->; [|done].
  apply map_eq. intros symbol. unfold translated_prices.
  assert (((λ entry : string * string, (entry.1, usd_quote data entry.2)) <$> COINGECKO_IDS).*1
          = COINGECKO_IDS.*1) as Hkeys by reflexivity.
  destruct (decide (symbol ∈ COINGECKO_IDS.*1)) as [Hsymbol|Hsymbol].
  - apply list_elem_of_fmap in Hsymbol as ((symbol' & id) & -> & Hpair).
    cbn [fst]. rewrite (Hin _ _ Hpair). symmetry. apply elem_of_list_to_map.
    + rewrite Hkeys. apply COINGECKO_IDS_NoDup.
    + apply list_elem_of_fmap. by exists (symbol', id).
  - rewrite (Hout _ Hsymbol). symmetry. apply not_elem_of_list_to_map.
    by rewrite Hkeys.
Qed.

Lemma translated_prices_ext (data data' : quotes) :
  (∀ id, id ∈ COINGECKO_IDS.*2 → usd_quote data id = usd_quote data' id) →
  translated_prices data = translated_prices data'.
Proof.
  intros Hagree. unfold translated_prices. f_equal. apply list_fmap_ext.
  intros i [symbol id] Hlookup. cbn [fst snd]. f_equal. apply Hagree.
  apply list_elem_of_fmap. exists (symbol, id). split; [done|].
  by eapply list_elem_of_lookup_2.
Qed.

(** X15: the fetch and the whole cell depend on the provider's answer only
    through the USD quotes under the eight ids of [COINGECKO_IDS]. Two
    answers of quotes that agree on these give the same price map and the
    same printed line; and two answers of any shape on which the eight
    lookups [data.get(id, {}).get("usd", 0)] agree, in the quote found or in
    the exception raised, give the same price map, the same printed lines
    and the same outcome of the cell, whatever else they hold (other coins,
    other currencies). *)
Theorem main_reads_quotes_only :
  (∀ (requests_get requests_get' : string → list (string * string) → result quotes)
     (data data' : quotes),
     requests_get url params = Ok data →
     requests_get' url params = Ok data' →
     (∀ id, id ∈ COINGECKO_IDS.*2 → usd_quote data id = usd_quote data' id) →
     fetch_crypto_prices requests_get = fetch_crypto_prices requests_get')
  ∧ ∀ (requests_get requests_get' : string → list (string * string) → result json)
      allocates data data',
      requests_get url params = Ok data →
      requests_get' url params = Ok data' →
      (∀ id, id ∈ COINGECKO_IDS.*2 → usd_lookup data id = usd_lookup data' id) →
      fetch_crypto_prices_untyped requests_get = fetch_crypto_prices_untyped requests_get'
      ∧ main requests_get allocates = main requests_get' allocates.
Proof.
  split.
  - intros requests_get requests_get' data data' Hget Hget' Hagree.
    rewrite (fetch_crypto_prices_closed _ _ Hget), (fetch_crypto_prices_closed _ _ Hget').
    by rewrite (translated_prices_ext _ _ Hagree).
  - intros requests_get requests_get' allocates data data' Hget Hget' Hagree.
    assert (fetch_crypto_prices_untyped requests_get
            = fetch_crypto_prices_untyped requests_get') as Hfetch.
    { rewrite (fetch_crypto_prices_untyped_Ok _ _ Hget),
        (fetch_crypto_prices_untyped_Ok _ _ Hget').
      rewrite (prices_comprehension_untyped_ext data data' COINGECKO_IDS ∅); [done..|].
      intros entry Hentry. apply Hagree. by apply entry_of_ids. }
    split; [done|]. unfold main. by rewrite Hfetch.
Qed.

Lemma main_reads_quotes_only_witness :
  fetch_crypto_prices (λ _ _, Ok recorded_quotes)
  = fetch_crypto_prices (λ _ _, Ok recorded_quotes_and_more)
  ∧ fetch_crypto_prices_untyped (λ _ _, Ok recorded_answer)
    = fetch_crypto_prices_untyped (λ _ _, Ok recorded_answer_and_more)
  ∧ main (λ _ _, Ok recorded_answer) (λ _, false)
    = main (λ _ _, Ok recorded_answer_and_more) (λ _, false).
Proof.
  destruct main_reads_quotes_only as [Hquotes Hanswers]. split.
  - apply (Hquotes (λ _ _, Ok recorded_quotes) (λ _ _, Ok recorded_quotes_and_more)
             recorded_quotes recorded_quotes_and_more);
      [reflexivity..|].
    intros id Hid.
    repeat (apply elem_of_cons in Hid as [->|Hid]; [vm_compute; reflexivity|]).
    by apply elem_of_nil in Hid.
  - apply (Hanswers (λ _ _, Ok recorded_answer) (λ _ _, Ok recorded_answer_and_more)
             (λ _, false) recorded_answer recorded_answer_and_more);
      [reflexivity..|].
    intros id Hid.
    repeat (apply elem_of_cons in Hid as [->|Hid]; [vm_compute; reflexivity|]).
    by apply elem_of_nil in Hid.
Defined.

End Untyped.

(** ** The comparison on the values of the cell *)

Section ComparisonClaim.

(** C9: the two values that the cell compares are floats, whatever the
    prices fetched, of whatever JSON type, each portfolio of the notebook
    holding a float quantity; and for every pair of floats in
    which the value of portfolio 2 strictly exceeds that of portfolio 1, the
    comparison prints exactly the line "Portfolio 2 performed worse! -"
    followed by the difference [portfolio1_value - portfolio2_value] to two
    decimals and "$": that difference is negative, its text begins with a
    minus sign of its own, and the portfolio of higher value is the one
    labelled worse. *)
Theorem compare_portfolios_labels_higher_worse :
  (∀ allocates prices v,
     (calculate_portfolio_value_untyped allocates portfolio1 prices).2 = Ok v →
     is_int v = false)
  ∧ (∀ allocates prices v,
       (calculate_portfolio_value_untyped allocates portfolio2 prices).2 = Ok v →
       is_int v = false)
  ∧ ∀ portfolio1_value portfolio2_value : float,
      py_gt (PFloat portfolio2_value) (PFloat portfolio1_value) = true →
      py_sub (PFloat portfolio1_value) (PFloat portfolio2_value)
      = Ok (PFloat (portfolio1_value - portfolio2_value))
      ∧ py_lt (PFloat (portfolio1_value - portfolio2_value)) (PInt 0) = true
      ∧ (∃ amount, format_float_2f (portfolio1_value - portfolio2_value) = "-" +:+ amount)
      ∧ compare_portfolios (PFloat portfolio1_value) (PFloat portfolio2_value)
        = ([Print [PStr ("Portfolio 2 performed worse! -"
                         +:+ format_float_2f (portfolio1_value - portfolio2_value)
                         +:+ "$")]],
           Ok ()).
Proof.
  split_and!.
  - apply portfolio1_value_untyped_float.
  - apply portfolio2_value_untyped_float.
  - intros v1 v2 Hgt.
    assert (strictly_negative (Prim2SF (v1 - v2)) = true) as Hneg.
    { by apply float_sub_negative. }
    split_and!.
    + reflexivity.
    + by apply strictly_negative_lt_zero.
    + by apply format_float_2f_negative.
    + unfold compare_portfolios. rewrite Hgt.
      unfold py_gt in *. by rewrite (py_lt_asym _ _ Hgt).
Qed.

(** The statement of C9 at the notebook's two values, swapped. *)
Lemma compare_portfolios_labels_higher_worse_witness :
  py_sub (PFloat 95944.515210913756) (PFloat 95976.369965389007)
  = Ok (PFloat (95944.515210913756 - 95976.369965389007))
  ∧ py_lt (PFloat (95944.515210913756 - 95976.369965389007)) (PInt 0) = true
  ∧ (∃ amount,
       format_float_2f (95944.515210913756 - 95976.369965389007) = "-" +:+ amount)
  ∧ compare_portfolios (PFloat 95944.515210913756) (PFloat 95976.369965389007)
    = ([Print [PStr ("Portfolio 2 performed worse! -"
                     +:+ format_float_2f (95944.515210913756 - 95976.369965389007)
                     +:+ "$")]],
       Ok ()).
Proof.
  apply compare_portfolios_labels_higher_worse.
  vm_compute. reflexivity.
Defined.

(** Values that are not both floats, which the cell never compares: between
    an int beyond 2^53 and a float the difference printed can be zero. *)
Example worse_difference_zero :
  py_gt (PFloat 9007199254740996) (PInt 9007199254740995) = true
  ∧ compare_portfolios (PInt 9007199254740995) (PFloat 9007199254740996)
    = ([Print [PStr "Portfolio 2 performed worse! -0.00$"]], Ok ()).
Proof. vm_compute. done. Qed.

End ComparisonClaim.

(** ** Claims about the trade-execution client *)

Section TraderClaims.

Import AutoTrader.

Implicit Types (cfg : Config) (w : World) (r : Recommendation) (o : Order).

(** The hash, the keyed hash and the encoding on published test vectors. *)
Example sha256_abc :
  hex (sha256 (bytes_of_string "abc"))
  = "ba7816bf8f01cfea414140de5dae2223b00361a396177a9cb410ff61f20015ad".
Proof. vm_compute. reflexivity. Qed.

Example hmac_sha256_rfc4231_case2 :
  hex (hmac sha256 64 (bytes_of_string "Jefe") (bytes_of_string "what do ya want for nothing?"))
  = "5bdcc146bf60754e6a042426089575c75a003f089d2739839dec58b964ec3843".
Proof. vm_compute. reflexivity. Qed.

Example hmac_sha256_rfc4231_case6 :
  hex (hmac sha256 64 (replicate 131 0xaa)
         (bytes_of_string "Test Using Larger Than Block-Size Key - Hash Key First"))
  = "60e431591ee0b67f0d8a26aacbf5b77f8e0bc6213728c5140546040f0ee37f54".
Proof. vm_compute. reflexivity. Qed.

Example base64_rfc4648 :
  base64_encode (bytes_of_string "foobar") = "Zm9vYmFy"
  ∧ base64_encode (bytes_of_string "fooba") = "Zm9vYmE="
  ∧ base64_encode (bytes_of_string "foob") = "Zm9vYg==".
Proof. vm_compute. done. Qed.

Lemma Qle_bool_false_of_lt (x y : Q) : (y < x)%Q → Qle_bool x y = false.
Proof.
  intros Hlt. destruct (Qle_bool x y) eqn:Hle; [|done].
  apply Qle_bool_iff in Hle. by apply Qlt_not_le in Hlt.
Qed.

(** The requests of a call under the retry policy are all the request given. *)
Lemma with_retry_unfold {A} request (reply : nat → Reply A) delay retries attempt :
  with_retry request reply delay retries attempt
  = match reply attempt with
    | Answer a => ([request], inr a)
    | Failure e =>
        if transient e then
          match retries with
          | O => ([request], inl network_exhausted)
          | S retries' =>
              let '(t, r) := with_retry request reply (2 * delay) retries' (S attempt) in
              (request :: Sleep delay :: t, r)
          end
        else ([request], inl (fail_reason e))
    end.
Proof. by destruct retries. Qed.

Lemma with_retry_events {A} request (reply : nat → Reply A) delay retries attempt :
  Forall (λ ev, ev = request ∨ ∃ n, ev = Sleep n)
    (with_retry request reply delay retries attempt).1.
Proof.
  assert (Forall (λ ev, ev = request ∨ ∃ n, ev = Sleep n) [request]) as Hone.
  { apply Forall_singleton. by left. }
  revert delay attempt. induction retries as [|retries IH]; intros delay attempt;
    rewrite with_retry_unfold;
    (destruct (reply attempt) as [a|e]; [done|destruct (transient e); [|done]]); [done|].
  specialize (IH (2 * delay)%nat (S attempt)).
  destruct (with_retry request reply (2 * delay) retries (S attempt)) as [t res].
  apply Forall_cons. split; [by left|].
  apply Forall_cons. split; [right; by exists delay|done].
Qed.

Lemma with_retry_get_no_post {A} endpoint (reply : nat → Reply A) delay retries attempt :
  filter is_post (with_retry (Get endpoint) reply delay retries attempt).1 = [].
Proof.
  pose proof (with_retry_events (Get endpoint) reply delay retries attempt) as Hall.
  set (t := (with_retry (Get endpoint) reply delay retries attempt).1) in *.
  clearbody t. induction Hall as [|ev t Hev _ IH]; [done|].
  rewrite filter_cons_False.
  - exact IH.
  - destruct Hev as [->|[n ->]]; simpl; tauto.
Qed.

Lemma orders_submitted_app t t' :
  orders_submitted (t ++ t') = (orders_submitted t + orders_submitted t')%nat.
Proof. unfold orders_submitted. by rewrite filter_app, length_app. Qed.

Lemma place_order_simulated cfg w o :
  cfg.(simulate) = true → place_order cfg w o = ([LogOrder INFO "SIMULATED" o], inr ()).
Proof. intros Hsim. unfold place_order. by rewrite Hsim. Qed.

(** The validator never sends anything: it only logs. *)
Lemma validate_no_post lim w raw : filter is_post (validate lim w raw).1 = [].
Proof.
  unfold validate, validate_parsed, validate_trade.
  destruct (parse w raw) as [r|]; [|done].
  destruct (parse_action (action r)) as [[]|]; try done.
  all: destruct (negb (Qle_bool 0 (amount_usd r))); [done|].
  all: by destruct (negb (Qle_bool _ _)), (supported w (coin r)).
Qed.

Lemma execute_simulated_no_post cfg w d :
  cfg.(simulate) = true → filter is_post (execute cfg w d).1 = [].
Proof.
  intros Hsim. destruct d as [v| |reason]; simpl; [|done..].
  by rewrite place_order_simulated.
Qed.

Lemma handle_text_simulated cfg w raw :
  cfg.(simulate) = true → orders_submitted (handle_text cfg w raw).1 = O.
Proof.
  intros Hsim. unfold handle_text.
  pose proof (validate_no_post (limits cfg) w raw) as Hvalidate.
  destruct (validate (limits cfg) w raw) as [t d].
  pose proof (execute_simulated_no_post cfg w d Hsim) as Hexecute.
  destruct (execute cfg w d) as [t' result]. simpl in *.
  rewrite orders_submitted_app. unfold orders_submitted.
  by rewrite Hvalidate, Hexecute.
Qed.

(** C5, as stated, fails on the validator the specification describes: a
    recommendation above the cap is clamped by rule 3 and then rejected by
    rule 4 when its coin is not supported. *)
Lemma clamp_counterexample :
  ¬ (∀ lim (is_supported : string → bool) r,
       r.(action) = "BUY" ∨ r.(action) = "SELL" →
       (0 <= r.(amount_usd))%Q →
       (lim.(max_trade_size_usd) < r.(amount_usd))%Q →
       ∃ s, (validate_parsed lim is_supported r).2
            = Execute {| valid_side := s;
                         valid_coin := r.(coin);
                         valid_amount_usd := lim.(max_trade_size_usd) |}).
Proof.
  intros Hclaim.
  destruct (Hclaim limits_5000 (λ symbol, bool_decide (symbol = "NEAR")) (buy_10000 "FOO"))
    as [s Hs]; [by left|done|done|].
  vm_compute in Hs. discriminate.
Qed.

(** C5, amended: a parsed recommendation with action BUY or SELL, a coin the
    exchange supports and a non-negative amount above the cap is clamped to
    the cap with a logged warning, and the cycle goes on to construct and
    place the order of the clamped amount; it is never skipped. *)
Theorem above_cap_is_clamped cfg w r :
  r.(action) = "BUY" ∨ r.(action) = "SELL" →
  (0 <= r.(amount_usd))%Q →
  (cfg.(limits).(max_trade_size_usd) < r.(amount_usd))%Q →
  w.(supported) r.(coin) = true →
  ∃ s,
    let v := {| valid_side := s;
                valid_coin := r.(coin);
                valid_amount_usd := cfg.(limits).(max_trade_size_usd) |} in
    validate_parsed cfg.(limits) w.(supported) r
    = ([Log WARNING "amount_usd clamped to max_trade_size_usd"], Execute v)
    ∧ handle_recommendation cfg w r
      = (Log WARNING "amount_usd clamped to max_trade_size_usd" :: (execute cfg w (Execute v)).1,
         (execute cfg w (Execute v)).2)
    ∧ (construct_order v).(size_or_amount) = cfg.(limits).(max_trade_size_usd)
    ∧ ∀ reason, (handle_recommendation cfg w r).2 ≠ Skipped reason.
Proof.
  intros Haction Hpos Habove Hsupported.
  assert (∃ s, validate_parsed cfg.(limits) w.(supported) r
               = validate_trade cfg.(limits) w.(supported) s r) as [s Hvalidate].
  { unfold validate_parsed. destruct Haction as [-> | ->]; [by exists Buy|by exists Sell]. }
  exists s. cbv zeta.
  assert (validate_parsed cfg.(limits) w.(supported) r
          = ([Log WARNING "amount_usd clamped to max_trade_size_usd"],
             Execute {| valid_side := s;
                        valid_coin := r.(coin);
                        valid_amount_usd := cfg.(limits).(max_trade_size_usd) |})) as Hdecision.
  { rewrite Hvalidate. unfold validate_trade.
    apply Qle_bool_iff in Hpos. rewrite Hpos.
    rewrite (Qle_bool_false_of_lt _ _ Habove), Hsupported. reflexivity. }
  split_and!; [done| |done|].
  - unfold handle_recommendation. rewrite Hdecision.
    by destruct (execute cfg w _).
  - intros reason. unfold handle_recommendation. rewrite Hdecision.
    unfold execute. by destruct (place_order cfg w _) as [t [?|?]].
Qed.

Lemma above_cap_is_clamped_witness :
  ∃ s,
    let v := {| valid_side := s; valid_coin := "NEAR"; valid_amount_usd := 5000 |} in
    validate_parsed limits_5000 (λ symbol, bool_decide (symbol = "NEAR")) (buy_10000 "NEAR")
    = ([Log WARNING "amount_usd clamped to max_trade_size_usd"], Execute v)
    ∧ handle_recommendation (config_5000 true) (near_world balances_ok) (buy_10000 "NEAR")
      = (Log WARNING "amount_usd clamped to max_trade_size_usd"
           :: (execute (config_5000 true) (near_world balances_ok) (Execute v)).1,
         (execute (config_5000 true) (near_world balances_ok) (Execute v)).2)
    ∧ (construct_order v).(size_or_amount) = 5000%Q
    ∧ ∀ reason,
        (handle_recommendation (config_5000 true) (near_world balances_ok) (buy_10000 "NEAR")).2
        ≠ Skipped reason.
Proof.
  apply (above_cap_is_clamped (config_5000 true) (near_world balances_ok) (buy_10000 "NEAR")).
  - by left.
  - done.
  - done.
  - reflexivity.
Defined.

(** Scenario B of the specification: BUY NEAR for 10000 under a cap of 5000
    becomes an order of 5000 with a logged clamp warning. *)
Example scenario_B :
  handle_recommendation (config_5000 true) (near_world balances_ok) (buy_10000 "NEAR")
  = ([ Log WARNING "amount_usd clamped to max_trade_size_usd";
       LogOrder INFO "SIMULATED"
         {| instrument := "NEAR"; side := Buy; order_type := "market"; size_or_amount := 5000 |};
       Log INFO "order placed" ],
     Succeeded).
Proof. vm_compute. reflexivity. Qed.

(** Scenario C: a text that does not parse skips the cycle. *)
Example scenario_C :
  handle_text (config_5000 false) (near_world balances_ok) "not json"
  = ([Log ERROR "recommendation does not parse: not json"; Log INFO "skipped"],
     Skipped parse_error).
Proof. vm_compute. reflexivity. Qed.

(** Scenario D: the balance fetch fails four times, three of them retried. *)
Example scenario_D :
  run_cycle (config_5000 false) (near_world balances_down)
  = ([ Get BalanceEndpoint; Sleep 1; Get BalanceEndpoint; Sleep 2;
       Get BalanceEndpoint; Sleep 4; Get BalanceEndpoint;
       Log ERROR "balances not fetched" ],
     Failed network_exhausted).
Proof. vm_compute. reflexivity. Qed.

(** C6: when the cycle obtains a recommendation whose action is HOLD (the
    balances are fetched, the recommendation text is fetched and parses to
    it), then, whatever its coin and amount, whatever the limits, the
    supported coins and the answers of the exchange, the validator decides no
    order by rule 2, and the cycle logs the hold after the events of its two
    fetches, submits zero orders and succeeds. *)
Theorem hold_submits_no_order cfg w r t1 balances t2 raw :
  r.(action) = "HOLD" →
  with_retry (Get BalanceEndpoint) w.(balances_reply) cfg.(backoff_seconds)
    cfg.(max_retries) 0 = (t1, inr balances) →
  with_retry (Get RecommendationSource) w.(recommendation_reply) cfg.(backoff_seconds)
    cfg.(max_retries) 0 = (t2, inr raw) →
  w.(parse) raw = Some r →
  validate cfg.(limits) w raw = ([], NoOrder)
  ∧ handle_text cfg w raw = ([Log INFO "hold: no order"], Succeeded)
  ∧ run_cycle cfg w = (t1 ++ t2 ++ [Log INFO "hold: no order"], Succeeded)
  ∧ orders_submitted (run_cycle cfg w).1 = O.
Proof.
  intros Hhold Hbalances Hrecommendation Hparse.
  assert (validate cfg.(limits) w raw = ([], NoOrder)) as Hdecision.
  { unfold validate, validate_parsed. by rewrite Hparse, Hhold. }
  assert (handle_text cfg w raw = ([Log INFO "hold: no order"], Succeeded)) as Htext.
  { unfold handle_text. by rewrite Hdecision. }
  assert (run_cycle cfg w = (t1 ++ t2 ++ [Log INFO "hold: no order"], Succeeded)) as Hcycle.
  { unfold run_cycle. by rewrite Hbalances, Hrecommendation, Htext. }
  split_and!; [done..|].
  rewrite Hcycle. cbn [fst]. rewrite !orders_submitted_app.
  pose proof (with_retry_get_no_post BalanceEndpoint (balances_reply w)
                (backoff_seconds cfg) (max_retries cfg) 0) as H1.
  pose proof (with_retry_get_no_post RecommendationSource (recommendation_reply w)
                (backoff_seconds cfg) (max_retries cfg) 0) as H2.
  rewrite Hbalances in H1. rewrite Hrecommendation in H2. cbn [fst] in *.
  unfold orders_submitted. by rewrite H1, H2.
Qed.

Lemma hold_submits_no_order_witness :
  validate limits_5000 hold_world "hold" = ([], NoOrder)
  ∧ handle_text (config_5000 false) hold_world "hold"
    = ([Log INFO "hold: no order"], Succeeded)
  ∧ run_cycle (config_5000 false) hold_world
    = ([Get BalanceEndpoint] ++ [Get RecommendationSource] ++ [Log INFO "hold: no order"],
       Succeeded)
  ∧ orders_submitted (run_cycle (config_5000 false) hold_world).1 = O.
Proof.
  eapply (hold_submits_no_order (config_5000 false) hold_world hold_anything
            [Get BalanceEndpoint] _ [Get RecommendationSource] "hold");
    reflexivity.
Defined.

(** C7: in simulate mode, order placement logs the would-be order as
    SIMULATED and succeeds without any network call, and no cycle, whatever
    the recommendation text and the answers of the world, posts to the order
    endpoint. *)
Theorem simulate_never_posts cfg w :
  cfg.(simulate) = true →
  (∀ o, place_order cfg w o = ([LogOrder INFO "SIMULATED" o], inr ())
        ∧ filter is_network (place_order cfg w o).1 = [])
  ∧ (∀ raw, orders_submitted (handle_text cfg w raw).1 = O)
  ∧ orders_submitted (run_cycle cfg w).1 = O.
Proof.
  intros Hsim. split_and!.
  - intros o. by rewrite place_order_simulated.
  - intros raw. by apply handle_text_simulated.
  - unfold run_cycle.
    pose proof (with_retry_get_no_post BalanceEndpoint (balances_reply w)
                  (backoff_seconds cfg) (max_retries cfg) 0) as H1.
    destruct (with_retry (Get BalanceEndpoint) _ _ _ _) as [t1 [reason|balances]].
    { simpl in *. rewrite orders_submitted_app. unfold orders_submitted. by rewrite H1. }
    pose proof (with_retry_get_no_post RecommendationSource (recommendation_reply w)
                  (backoff_seconds cfg) (max_retries cfg) 0) as H2.
    destruct (with_retry (Get RecommendationSource) _ _ _ _) as [t2 [reason|raw]].
    { simpl in *. rewrite !orders_submitted_app. unfold orders_submitted. by rewrite H1, H2. }
    pose proof (handle_text_simulated cfg w raw Hsim) as H3.
    destruct (handle_text cfg w raw) as [t3 result].
    simpl in *. rewrite !orders_submitted_app, H3. unfold orders_submitted. by rewrite H1, H2.
Qed.

Lemma simulate_never_posts_witness :
  (∀ o, place_order (config_5000 true) (near_world balances_ok) o
        = ([LogOrder INFO "SIMULATED" o], inr ())
        ∧ filter is_network (place_order (config_5000 true) (near_world balances_ok) o).1 = [])
  ∧ (∀ raw, orders_submitted (handle_text (config_5000 true) (near_world balances_ok) raw).1 = O)
  ∧ orders_submitted (run_cycle (config_5000 true) (near_world balances_ok)).1 = O.
Proof.
  apply (simulate_never_posts (config_5000 true) (near_world balances_ok)). reflexivity.
Defined.

(** The same cycle for real and simulated: only the real one posts. *)
Example real_cycle_posts :
  run_cycle (config_5000 false) (near_world balances_ok)
  = ([ Get BalanceEndpoint; Get RecommendationSource;
       Log WARNING "amount_usd clamped to max_trade_size_usd";
       Post OrderEndpoint
         {| instrument := "NEAR"; side := Buy; order_type := "market"; size_or_amount := 5000 |};
       Log INFO "order 1 filled";
       Log INFO "order placed" ],
     Succeeded).
Proof. vm_compute. reflexivity. Qed.

Example simulated_cycle_logs :
  run_cycle (config_5000 true) (near_world balances_ok)
  = ([ Get BalanceEndpoint; Get RecommendationSource;
       Log WARNING "amount_usd clamped to max_trade_size_usd";
       LogOrder INFO "SIMULATED"
         {| instrument := "NEAR"; side := Buy; order_type := "market"; size_or_amount := 5000 |};
       Log INFO "order placed" ],
     Succeeded).
Proof. vm_compute. reflexivity. Qed.

(** *** The encoding of a signature *)

Lemma bytes_of_string_of_bytes bs :
  Forall is_byte bs → bytes_of_string (string_of_bytes bs) = bs.
Proof.
  intros Hbytes. unfold bytes_of_string, string_of_bytes.
  rewrite String.list_ascii_of_string_of_list_ascii.
  rewrite <-list_fmap_compose.
  induction Hbytes as [|b bs [Hlow Hhigh] _ IH]; [done|].
  cbn [fmap list_fmap]. rewrite IH. f_equal. cbn.
  rewrite Ascii.N_ascii_embedding by lia. lia.
Qed.

Lemma string_of_bytes_length bs : String.length (string_of_bytes bs) = length bs.
Proof.
  unfold string_of_bytes. induction bs as [|b bs IH]; [done|].
  cbn. by rewrite IH.
Qed.

(** Each of the 64 sextets has its own character, a byte other than [=]. *)
Lemma base64_char_spec i :
  0 <= i < 64 →
  base64_index (base64_char i) = Some i ∧ base64_char i ≠ 61 ∧ is_byte (base64_char i).
Proof.
  intros Hi.
  assert (Forall (λ i, base64_index (base64_char i) = Some i
                       ∧ base64_char i ≠ 61 ∧ is_byte (base64_char i)) (seqZ 0 64)) as Hall.
  { unfold is_byte. apply (bool_decide_unpack _). vm_compute. reflexivity. }
  rewrite Forall_forall in Hall. apply Hall. apply elem_of_seqZ. lia.
Qed.

Lemma base64_bytes_spec n :
  ∀ bs fuel fuel',
    (length bs <= n)%nat → (n <= fuel)%nat → (n <= fuel')%nat →
    Forall is_byte bs →
    base64_decode_bytes fuel' (base64_bytes fuel bs) = Some bs
    ∧ Forall is_byte (base64_bytes fuel bs)
    ∧ (length bs <= length (base64_bytes fuel bs))%nat.
Proof.
  induction n as [|n IH]; intros bs fuel fuel' Hlen Hfuel Hfuel' Hbytes.
  { destruct bs; [|simpl in Hlen; lia]. by destruct fuel, fuel'. }
  destruct fuel as [|fuel]; [lia|]. destruct fuel' as [|fuel']; [lia|].
  destruct bs as [|a [|b [|c rest]]].
  - done.
  - apply Forall_cons in Hbytes as [Ha _]. unfold is_byte in Ha.
    cbn [base64_bytes].
    assert (0 <= a / 4 < 64) as H1 by (Z.div_mod_to_equations; lia).
    assert (0 <= a `mod` 4 * 16 < 64) as H2 by (Z.div_mod_to_equations; lia).
    destruct (base64_char_spec _ H1) as (Hs1 & _ & ?).
    destruct (base64_char_spec _ H2) as (Hs2 & _ & ?).
    cbn [base64_decode_bytes]. rewrite Hs1, Hs2. cbn [mbind option_bind].
    rewrite !decide_True by done. split_and!.
    + do 2 f_equal. Z.div_mod_to_equations; lia.
    + repeat (apply Forall_cons; split; [done|]).
      repeat (apply Forall_cons; split; [unfold is_byte; lia|]). done.
    + simpl. lia.
  - apply Forall_cons in Hbytes as [Ha Hbytes]. apply Forall_cons in Hbytes as [Hb _].
    unfold is_byte in Ha, Hb.
    cbn [base64_bytes].
    assert (0 <= a / 4 < 64) as H1 by (Z.div_mod_to_equations; lia).
    assert (0 <= a `mod` 4 * 16 + b / 16 < 64) as H2 by (Z.div_mod_to_equations; lia).
    assert (0 <= b `mod` 16 * 4 < 64) as H3 by (Z.div_mod_to_equations; lia).
    destruct (base64_char_spec _ H1) as (Hs1 & _ & ?).
    destruct (base64_char_spec _ H2) as (Hs2 & _ & ?).
    destruct (base64_char_spec _ H3) as (Hs3 & Hne3 & ?).
    cbn [base64_decode_bytes]. rewrite Hs1, Hs2. cbn [mbind option_bind].
    rewrite decide_True by done. rewrite decide_False by done.
    rewrite Hs3. cbn [mbind option_bind]. split_and!.
    + do 2 f_equal; [|f_equal]; Z.div_mod_to_equations; lia.
    + repeat (apply Forall_cons; split; [done|]).
      repeat (apply Forall_cons; split; [unfold is_byte; lia|]). done.
    + simpl. lia.
  - apply Forall_cons in Hbytes as [Ha Hbytes]. apply Forall_cons in Hbytes as [Hb Hbytes].
    apply Forall_cons in Hbytes as [Hc Hbytes].
    unfold is_byte in Ha, Hb, Hc.
    cbn [base64_bytes]. cbn [app].
    assert (0 <= a / 4 < 64) as H1
      by (split; [apply Z.div_pos; lia|apply Z.div_lt_upper_bound; lia]).
    assert (0 <= a `mod` 4 * 16 + b / 16 < 64) as H2 by (Z.div_mod_to_equations; lia).
    assert (0 <= b `mod` 16 * 4 + c / 64 < 64) as H3 by (Z.div_mod_to_equations; lia).
    assert (0 <= c `mod` 64 < 64) as H4 by (Z.div_mod_to_equations; lia).
    destruct (base64_char_spec _ H1) as (Hs1 & _ & ?).
    destruct (base64_char_spec _ H2) as (Hs2 & _ & ?).
    destruct (base64_char_spec _ H3) as (Hs3 & _ & ?).
    destruct (base64_char_spec _ H4) as (Hs4 & Hne4 & ?).
    simpl in Hlen.
    destruct (IH rest fuel fuel') as (Hrest & Hbytes' & Hlen'); [lia..|done|].
    cbn [base64_decode_bytes]. rewrite Hs1, Hs2. cbn [mbind option_bind].
    rewrite decide_False by done. rewrite Hs3, Hs4. cbn [mbind option_bind].
    rewrite Hrest. cbn [mbind option_bind]. split_and!.
    + do 2 f_equal; [|f_equal; [|f_equal]]; Z.div_mod_to_equations; lia.
    + by repeat (apply Forall_cons; split; [done|]).
    + simpl. lia.
Qed.

(** Decoding the base64 text of a list of bytes gives the bytes back. *)
Lemma base64_decode_encode bs :
  Forall is_byte bs → base64_decode (base64_encode bs) = Some bs.
Proof.
  intros Hbytes. unfold base64_decode, base64_encode.
  destruct (base64_bytes_spec (length bs) bs (length bs) (length bs)) as (_ & Hchars & Hlen);
    [done..|].
  rewrite (bytes_of_string_of_bytes _ Hchars).
  by apply (base64_bytes_spec (length bs)).
Qed.

Lemma round_length st kw : length (round st kw) = length st.
Proof. unfold round. by do 9 (destruct st as [|? st]; try done). Qed.

Lemma compress_length st block : length st = 8%nat → length (compress st block) = 8%nat.
Proof.
  intros Hst. unfold compress. rewrite length_zip_with.
  assert (∀ l st', length st' = 8%nat → length (foldl round st' l) = 8%nat) as Hfold.
  { induction l as [|kw l IH]; intros st' Hst'; [done|].
    simpl. apply IH. by rewrite round_length. }
  rewrite Hfold by done. lia.
Qed.

Lemma be_bytes_spec n x : length (be_bytes n x) = n ∧ Forall is_byte (be_bytes n x).
Proof.
  induction n as [|n [IHlen IHbytes]]; [done|]. cbn [be_bytes]. split.
  - simpl. by rewrite IHlen.
  - apply Forall_cons. split; [|done]. apply Z.mod_pos_bound. lia.
Qed.

(** A SHA-256 digest is 32 bytes. *)
Lemma sha256_spec msg : length (sha256 msg) = 32%nat ∧ Forall is_byte (sha256 msg).
Proof.
  unfold sha256.
  assert (∀ blocks st, length st = 8%nat → length (foldl compress st blocks) = 8%nat) as Hfold.
  { induction blocks as [|block blocks IH]; intros st Hst; [done|].
    simpl. apply IH. by apply compress_length. }
  specialize (Hfold (chunks (length (pad msg)) 64 (pad msg)) H256 eq_refl).
  destruct (foldl compress H256 _) as [|h0 [|h1 [|h2 [|h3 [|h4 [|h5 [|h6 [|h7 [|]]]]]]]]];
    try discriminate.
  split; [reflexivity|].
  cbn [mbind list_bind app].
  repeat (apply Forall_app; split; [apply be_bytes_spec|]). done.
Qed.

Lemma hmac_sha256_spec key msg :
  length (hmac sha256 64 key msg) = 32%nat ∧ Forall is_byte (hmac sha256 64 key msg).
Proof. unfold hmac. apply sha256_spec. Qed.

Lemma base64_encode_length_32 bs :
  length bs = 32%nat → String.length (base64_encode bs) = 44%nat.
Proof.
  intros Hlen. unfold base64_encode. rewrite string_of_bytes_length, Hlen.
  do 32 (destruct bs as [|? bs]; [simpl in Hlen; lia|]).
  destruct bs; [reflexivity|simpl in Hlen; lia].
Qed.

Lemma hmac_bytes (hash : list Z → list Z) block_size key msg :
  (∀ msg, Forall is_byte (hash msg)) → Forall is_byte (hmac hash block_size key msg).
Proof. intros Hhash. unfold hmac. apply Hhash. Qed.

(** C8: the signer is a function of its inputs: equal method, path, body,
    timestamp and secret give equal signatures. Over any hash function that
    returns bytes, the signature is the base64 text of the HMAC tag, keyed by
    the secret, of [timestamp + method + request_path + body], and decoding
    the signature gives that tag back. With the hash the README names, the
    tag has 32 bytes and the signature 44 characters, the keyed hash is the
    HMAC-SHA256 of RFC 4231 (test case 2), and a balance request at a given
    time under a given secret has the signature that HMAC-SHA256 and base64
    give it. *)
Theorem sign_deterministic (hash : list Z → list Z) (block_size : nat)
    (method path body timestamp secret method' path' body' timestamp' secret' : string) :
  (method, path, body, timestamp, secret) = (method', path', body', timestamp', secret') →
  let base := timestamp +:+ method +:+ path +:+ body in
  let tag := hmac hash block_size (bytes_of_string secret) (bytes_of_string base) in
  let tag256 := hmac sha256 64 (bytes_of_string secret) (bytes_of_string base) in
  sign hash block_size secret timestamp method path body
  = sign hash block_size secret' timestamp' method' path' body'
  ∧ sign hash block_size secret timestamp method path body = base64_encode tag
  ∧ ((∀ msg, Forall is_byte (hash msg)) →
     base64_decode (sign hash block_size secret timestamp method path body) = Some tag)
  ∧ sign_sha256 secret timestamp method path body = base64_encode tag256
  ∧ base64_decode (sign_sha256 secret timestamp method path body) = Some tag256
  ∧ length tag256 = 32%nat
  ∧ String.length (sign_sha256 secret timestamp method path body) = 44%nat
  ∧ hex (hmac sha256 64 (bytes_of_string "Jefe")
           (bytes_of_string "what do ya want for nothing?"))
    = "5bdcc146bf60754e6a042426089575c75a003f089d2739839dec58b964ec3843"
  ∧ sign_sha256 "secret" "2020-12-08T09:08:57.715Z" "GET" "/api/v5/account/balance" ""
    = "5ktoTKif8DCJlIPb/3Kfd1A17bIRye6jpS9QBWj+9AU=".
Proof.
  intros [= -> -> -> -> ->]. cbv zeta.
  destruct (hmac_sha256_spec (bytes_of_string secret')
              (bytes_of_string (timestamp' +:+ method' +:+ path' +:+ body')))
    as [Hlen Hbytes].
  split_and!.
  - reflexivity.
  - reflexivity.
  - intros Hhash. apply base64_decode_encode. by apply hmac_bytes.
  - reflexivity.
  - by apply base64_decode_encode.
  - exact Hlen.
  - by apply base64_encode_length_32.
  - vm_compute. reflexivity.
  - vm_compute. reflexivity.
Qed.

Lemma sign_deterministic_witness :
  let base := "2020-12-08T09:08:57.715Z" +:+ "GET" +:+ "/api/v5/account/balance" +:+ "" in
  let tag := hmac sha256 64 (bytes_of_string "secret") (bytes_of_string base) in
  sign sha256 64 "secret" "2020-12-08T09:08:57.715Z" "GET" "/api/v5/account/balance" ""
  = sign sha256 64 "secret" "2020-12-08T09:08:57.715Z" "GET" "/api/v5/account/balance" ""
  ∧ sign sha256 64 "secret" "2020-12-08T09:08:57.715Z" "GET" "/api/v5/account/balance" ""
    = base64_encode tag
  ∧ ((∀ msg, Forall is_byte (sha256 msg)) →
     base64_decode
       (sign sha256 64 "secret" "2020-12-08T09:08:57.715Z" "GET" "/api/v5/account/balance" "")
     = Some tag)
  ∧ sign_sha256 "secret" "2020-12-08T09:08:57.715Z" "GET" "/api/v5/account/balance" ""
    = base64_encode tag
  ∧ base64_decode
      (sign_sha256 "secret" "2020-12-08T09:08:57.715Z" "GET" "/api/v5/account/balance" "")
    = Some tag
  ∧ length tag = 32%nat
  ∧ String.length
      (sign_sha256 "secret" "2020-12-08T09:08:57.715Z" "GET" "/api/v5/account/balance" "")
    = 44%nat
  ∧ hex (hmac sha256 64 (bytes_of_string "Jefe")
           (bytes_of_string "what do ya want for nothing?"))
    = "5bdcc146bf60754e6a042426089575c75a003f089d2739839dec58b964ec3843"
  ∧ sign_sha256 "secret" "2020-12-08T09:08:57.715Z" "GET" "/api/v5/account/balance" ""
    = "5ktoTKif8DCJlIPb/3Kfd1A17bIRye6jpS9QBWj+9AU=".
Proof.
  apply (sign_deterministic sha256 64 "GET" "/api/v5/account/balance" ""
           "2020-12-08T09:08:57.715Z" "secret").
  reflexivity.
Defined.

End TraderClaims.
